(** * Appointment chat assistant: slot-filling handlers, extraction and
      validation rules, idle sweep and message store.

    A shallow embedding of the JavaScript sources
      - src/handlers/chat.js (the slot-filling handler over ten required
        fields, and the later handler guarded by [validateInput]),
      - the seven-field cursor handler,
      - utils/appointment.js ([validateAppointmentData],
        [extractAppointmentInfo]),
      - utils/inMemoryStore.js,
    together with the properties proved about them.

    Conventions.  A JavaScript string is the sequence of its UTF-16 code
    units; the development covers code units below 256, one [ascii] each,
    which includes every character the regular expressions of the sources
    mention.  An object used as a dictionary is a [gmap] over its own
    properties (keys inherited from [Object.prototype] are not modelled).
    Collaborators (the document store, the completion API, the clock) are
    inputs of each invocation: an [env] records what they answered. *)

From Stdlib Require Import ZArith List String Ascii Bool Lia DecimalString.
From stdpp Require Import base option list gmap strings.
Import ListNotations.

#[local] Set Warnings "-register-all".

Local Open Scope string_scope.
Local Open Scope list_scope.

(* ===================================================================== *)
(** ** JavaScript values, strings and exceptions *)
(* ===================================================================== *)

Module JS.

(** Values that occur in the handlers: what [JSON.parse] can return,
    plus [Date] objects.  [undefined] is [None] in an [option value]. *)
Inductive value : Type :=
| VNull
| VBool (b : bool)
| VNum (n : Z)                    (* integers: only the test against 0 is used *)
| VStr (s : string)
| VArr (l : list value)
| VObj (l : list (string * value))
| VDate (ms : Z).

(** ToBoolean. *)
Definition truthy (v : value) : bool :=
  match v with
  | VNull => false
  | VBool b => b
  | VNum n => negb (n =? 0)%Z
  | VStr s => negb (String.eqb s "")
  | VArr _ | VObj _ | VDate _ => true
  end.

(** ToBoolean of a possibly [undefined] value: [!x] is its negation. *)
Definition truthy_opt (o : option value) : bool :=
  match o with
  | None => false
  | Some v => truthy v
  end.

Definition truthy_str (o : option string) : bool :=
  match o with
  | None => false
  | Some s => negb (String.eqb s "")
  end.

Inductive error : Type :=
| ReferenceError (msg : string)
| TypeError (msg : string)
| SyntaxError (msg : string)
| ServiceError (msg : string).   (* rejection of an external call *)

Definition error_message (e : error) : string :=
  match e with
  | ReferenceError m | TypeError m | SyntaxError m | ServiceError m => m
  end.

(** The outcome of evaluating an expression or awaiting a promise. *)
Inductive result (A : Type) : Type :=
| Ok (a : A)
| Throw (e : error).
Arguments Ok {A} a.
Arguments Throw {A} e.

(** Code that reads and writes a module-level store [S] and may throw.
    A throw keeps the writes made before it: nothing is rolled back. *)
Definition M (S A : Type) : Type := S -> result A * S.

Definition ret {S A : Type} (a : A) : M S A := fun s => (Ok a, s).
Definition throw {S A : Type} (e : error) : M S A := fun s => (Throw e, s).
Definition bind {S A B : Type} (m : M S A) (k : A -> M S B) : M S B :=
  fun s =>
    match m s with
    | (Ok a, s') => k a s'
    | (Throw e, s') => (Throw e, s')
    end.
Definition get {S : Type} : M S S := fun s => (Ok s, s).
Definition put {S : Type} (s : S) : M S unit := fun _ => (Ok tt, s).
Definition lift {S A : Type} (r : result A) : M S A := fun s => (r, s).

(** An external call that either completes or rejects with [e]. *)
Definition await {S : Type} (failure : option error) : M S unit :=
  match failure with
  | None => ret tt
  | Some e => throw e
  end.

(** *** Code units *)

Definition code (c : ascii) : nat := nat_of_ascii c.

Definition in_range (lo hi : nat) (c : ascii) : bool :=
  (lo <=? code c)%nat && (code c <=? hi)%nat.

Definition is_digit (c : ascii) : bool := in_range 48 57 c.
Definition is_upper (c : ascii) : bool := in_range 65 90 c.
Definition is_lower (c : ascii) : bool := in_range 97 122 c.
Definition is_alpha (c : ascii) : bool := is_upper c || is_lower c.

(** [\w] without the unicode flag: [A-Za-z0-9_]. *)
Definition is_word (c : ascii) : bool :=
  is_alpha c || is_digit c || (code c =? 95)%nat.

(** [\s], which is also what [trim] strips: TAB, LF, VT, FF, CR, SP and
    NBSP are the white space and line terminators below 256. *)
Definition is_space (c : ascii) : bool :=
  in_range 9 13 c || (code c =? 32)%nat || (code c =? 160)%nat.

(** Upper-casing of the ASCII letters.  Under the [i] flag (and no [u]
    flag) a pattern character that is an ASCII letter matches exactly
    the two ASCII letters of either case: Canonicalize never maps a code
    unit of 128 or more to one below 128. *)
Definition ascii_upper (c : ascii) : ascii :=
  if is_lower c then ascii_of_nat (code c - 32) else c.

(** [toLowerCase] on code units below 256: A-Z and the Latin-1 capitals
    (192-222 but the multiplication sign 215) move up by 32. *)
Definition to_lower_char (c : ascii) : ascii :=
  if is_upper c || (in_range 192 222 c && negb (code c =? 215)%nat)
  then ascii_of_nat (code c + 32) else c.

Fixpoint toLowerCase (s : string) : string :=
  match s with
  | EmptyString => EmptyString
  | String c s' => String (to_lower_char c) (toLowerCase s')
  end.

(** *** String methods *)

Fixpoint starts_with (p s : string) : bool :=
  match p, s with
  | EmptyString, _ => true
  | String a p', String b s' => Ascii.eqb a b && starts_with p' s'
  | String _ _, EmptyString => false
  end.

(** [s.includes(p)]. *)
Fixpoint includes (s p : string) : bool :=
  starts_with p s ||
  match s with
  | EmptyString => false
  | String _ s' => includes s' p
  end.

Fixpoint trim_start (s : string) : string :=
  match s with
  | EmptyString => EmptyString
  | String c s' => if is_space c then trim_start s' else s
  end.

(** Drops the trailing white space: a character is kept when something
    that is not white space follows it or it is not white space. *)
Fixpoint trim_end (s : string) : string :=
  match s with
  | EmptyString => EmptyString
  | String c s' =>
      match trim_end s' with
      | EmptyString => if is_space c then EmptyString else String c EmptyString
      | t => String c t
      end
  end.

Definition trim (s : string) : string := trim_end (trim_start s).

(** [s.replace(/[...]/g, '')] for a character class: the characters of
    the class are dropped. *)
Fixpoint remove_chars (p : ascii -> bool) (s : string) : string :=
  match s with
  | EmptyString => EmptyString
  | String c s' => if p c then remove_chars p s' else String c (remove_chars p s')
  end.

(** The own enumerable properties an object spread [{...v}] copies.
    Later duplicates of a key win, as in [JSON.parse]. *)
Definition index_key (i : nat) : string :=
  NilZero.string_of_uint (Nat.to_uint i).

Definition indexed {A : Type} (f : A -> value) (l : list A) : gmap string value :=
  list_to_map (imap (fun i x => (index_key i, f x)) l).

Definition object_props (l : list (string * value)) : gmap string value :=
  fold_left (fun m kv => <[fst kv := snd kv]> m) l ∅.

Definition own_props (v : option value) : gmap string value :=
  match v with
  | Some (VObj l) => object_props l
  | Some (VArr l) => indexed id l
  | Some (VStr s) =>
      indexed (fun c => VStr (String c EmptyString)) (list_ascii_of_string s)
  | Some VNull | Some (VBool _) | Some (VNum _) | Some (VDate _) | None => ∅
  end.

(** [{...a, ...b}]: the properties of [b] win. *)
Definition merge_props {V : Type} (a b : gmap string V) : gmap string V := b ∪ a.

Definition spread2 (a : gmap string value) (b : option value) : gmap string value :=
  merge_props a (own_props b).

(** The property names of [Object.prototype], which every plain object
    inherits.  Each holds a function, but for [__proto__], whose getter
    returns the prototype itself. *)
Definition object_prototype_names : list string :=
  [ "constructor"; "__defineGetter__"; "__defineSetter__"; "hasOwnProperty";
    "__lookupGetter__"; "__lookupSetter__"; "isPrototypeOf";
    "propertyIsEnumerable"; "toString"; "valueOf"; "__proto__"; "toLocaleString" ].

Definition on_object_prototype (key : string) : bool :=
  existsb (String.eqb key) object_prototype_names.

End JS.

Declare Scope js_scope.
Delimit Scope js_scope with js.
Notation "x <- m ;; k" := (JS.bind m (fun x => k))
  (at level 100, m at next level, right associativity) : js_scope.

(* ===================================================================== *)
(** ** Regular expressions: the backtracking matcher of the language *)
(* ===================================================================== *)

Module Regex.
Import JS.

Inductive regex : Type :=
| Eps                              (* empty pattern *)
| Lit (c : ascii)                  (* pattern character *)
| LitI (c : ascii)                 (* pattern character under the i flag *)
| Cls (p : ascii -> bool)          (* character class or escape *)
| Seq (r1 r2 : regex)
| Alt (r1 r2 : regex)              (* r1|r2, r1 tried first *)
| Star (r : regex)                 (* r*, greedy *)
| Group (n : nat) (r : regex)      (* n-th capturing group *)
| Bol                              (* ^ *)
| Eol.                             (* $ *)

(** Derived quantifiers. *)
Definition Plus (r : regex) : regex := Seq r (Star r).       (* r+ *)
Definition Opt (r : regex) : regex := Alt r Eps.             (* r? greedy *)
Fixpoint Rep (n : nat) (r : regex) : regex :=                (* r{n} *)
  match n with
  | O => Eps
  | S n' => Seq r (Rep n' r)
  end.
Fixpoint Word (lit : ascii -> regex) (s : string) : regex := (* a literal run *)
  match s with
  | EmptyString => Eps
  | String c s' => Seq (lit c) (Word lit s')
  end.

Definition captures : Type := list (nat * string).

Fixpoint capture (n : nat) (c : captures) : option string :=
  match c with
  | [] => None
  | (m, s) :: c' => if (n =? m)%nat then Some s else capture n c'
  end.

(** [rmatch r i s c k]: match [r] at index [i], where [s] is the input
    from [i] on, then continue with [k]; a failing continuation makes
    the matcher backtrack into [r].  An iteration of [Star] that
    consumes nothing is rejected, as in RepeatMatcher. *)
Fixpoint rmatch {A : Type} (r : regex) (i : nat) (s : string) (c : captures)
         (k : nat -> string -> captures -> option A) {struct r} : option A :=
  match r with
  | Eps => k i s c
  | Lit a =>
      match s with
      | String b s' => if Ascii.eqb a b then k (S i) s' c else None
      | EmptyString => None
      end
  | LitI a =>
      match s with
      | String b s' =>
          if Ascii.eqb (ascii_upper a) (ascii_upper b) then k (S i) s' c else None
      | EmptyString => None
      end
  | Cls p =>
      match s with
      | String b s' => if p b then k (S i) s' c else None
      | EmptyString => None
      end
  | Seq r1 r2 => rmatch r1 i s c (fun i' s' c' => rmatch r2 i' s' c' k)
  | Alt r1 r2 =>
      match rmatch r1 i s c k with
      | Some x => Some x
      | None => rmatch r2 i s c k
      end
  | Star r' =>
      (fix loop (fuel : nat) (i : nat) (s : string) (c : captures)
           {struct fuel} : option A :=
         match fuel with
         | O => k i s c
         | S fuel' =>
             match rmatch r' i s c
                     (fun i' s' c' =>
                        if (i <? i')%nat then loop fuel' i' s' c' else None) with
             | Some x => Some x
             | None => k i s c
             end
         end) (String.length s) i s c
  | Group n r' =>
      rmatch r' i s c
        (fun i' s' c' => k i' s' ((n, substring 0 (i' - i) s) :: c'))
  | Bol => if (i =? 0)%nat then k i s c else None
  | Eol => match s with EmptyString => k i s c | _ => None end
  end.

(** The search of [RegExp.prototype.exec] on a pattern without the g or
    y flag: the first index at which the pattern matches. *)
Fixpoint exec_from (r : regex) (i : nat) (s : string) : option captures :=
  match rmatch r i s [] (fun _ _ c => Some c) with
  | Some c => Some c
  | None =>
      match s with
      | EmptyString => None
      | String _ s' => exec_from r (S i) s'
      end
  end.

Definition exec (r : regex) (s : string) : option captures := exec_from r 0 s.

(** [r.test(s)]. *)
Definition test (r : regex) (s : string) : bool :=
  match exec r s with Some _ => true | None => false end.

(** [s.match(r)[1]] when [s.match(r)] is not [null]. *)
Definition match1 (r : regex) (s : string) : option string :=
  match exec r s with
  | Some c => Some (default "" (capture 1 c))
  | None => None
  end.

End Regex.

(* ===================================================================== *)
(** ** utils/appointment.js: validation and rule-based extraction *)
(* ===================================================================== *)

Module Appointment.
Import JS Regex.

(** [/^[^\s@]+@[^\s@]+\.[^\s@]+$/] *)
Definition not_space_at (c : ascii) : bool :=
  negb (is_space c || Ascii.eqb c "@").

Definition emailRegex : regex :=
  Seq Bol
    (Seq (Plus (Cls not_space_at))
       (Seq (Lit "@")
          (Seq (Plus (Cls not_space_at))
             (Seq (Lit ".")
                (Seq (Plus (Cls not_space_at)) Eol))))).

Definition isValidEmail (email : string) : bool := test emailRegex email.

(** The conditions of [validateAppointmentData], one per [if], on an
    object whose properties hold strings (what [extractAppointmentInfo]
    builds). *)
Definition name_invalid (d : gmap string string) : bool :=
  negb (truthy_str (d !! "name")) ||
  match d !! "name" with
  | Some s => (String.length (trim s) <? 2)%nat
  | None => false
  end.

Definition email_invalid (d : gmap string string) : bool :=
  negb (truthy_str (d !! "email")) ||
  match d !! "email" with
  | Some s => negb (isValidEmail s)
  | None => false
  end.

Definition phone_invalid (d : gmap string string) : bool :=
  negb (truthy_str (d !! "phone")) ||
  match d !! "phone" with
  | Some s => (String.length (trim s) <? 10)%nat
  | None => false
  end.

Definition service_invalid (d : gmap string string) : bool :=
  negb (truthy_str (d !! "service")) ||
  match d !! "service" with
  | Some s => (String.length (trim s) =? 0)%nat
  | None => false
  end.

Definition date_invalid (d : gmap string string) : bool :=
  negb (truthy_str (d !! "preferredDate")).

Definition time_invalid (d : gmap string string) : bool :=
  negb (truthy_str (d !! "preferredTime")).

Record validation : Type := { valid : bool; errors : list string }.

(** [errors.push(msg)] under its [if]. *)
Definition push_if (cond : bool) (msg : string) (errors : list string) : list string :=
  if cond then errors ++ [msg] else errors.

Definition validateAppointmentData (appointmentData : gmap string string) : validation :=
  let errors := [] in
  let errors := push_if (name_invalid appointmentData)
                  "Name must be at least 2 characters long" errors in
  let errors := push_if (email_invalid appointmentData)
                  "Valid email is required" errors in
  let errors := push_if (phone_invalid appointmentData)
                  "Valid phone number is required" errors in
  let errors := push_if (service_invalid appointmentData)
                  "Service type is required" errors in
  let errors := push_if (date_invalid appointmentData)
                  "Preferred date is required" errors in
  let errors := push_if (time_invalid appointmentData)
                  "Preferred time is required" errors in
  {| valid := (List.length errors =? 0)%nat; errors := errors |}.



(** *** The patterns of [extractAppointmentInfo] *)

Definition alpha_or_space (c : ascii) : bool := is_alpha c || is_space c.

(** [/(?:my name is|i'm|i am|call me)\s+([a-zA-Z\s]+)/i] *)
Definition nameRegex : regex :=
  Seq (Alt (Word LitI "my name is")
         (Alt (Word LitI "i'm")
            (Alt (Word LitI "i am") (Word LitI "call me"))))
    (Seq (Plus (Cls is_space))
       (Group 1 (Plus (Cls alpha_or_space)))).

Definition one_of (chars : string) (c : ascii) : bool :=
  includes chars (String c EmptyString).

Definition email_local (c : ascii) : bool :=
  is_alpha c || is_digit c || one_of "._%+-" c.
Definition email_domain (c : ascii) : bool :=
  is_alpha c || is_digit c || one_of ".-" c.

(** [/([a-zA-Z0-9._%+-]+@[a-zA-Z0-9.-]+\.[a-zA-Z]{2,})/i] *)
Definition emailMatchRegex : regex :=
  Group 1
    (Seq (Plus (Cls email_local))
       (Seq (Lit "@")
          (Seq (Plus (Cls email_domain))
             (Seq (Lit ".")
                (Seq (Rep 2 (Cls is_alpha)) (Star (Cls is_alpha))))))).

Definition phone_sep (c : ascii) : bool := one_of "-." c || is_space c.

(** [/(\d{3}[-.\s]?\d{3}[-.\s]?\d{4})/] *)
Definition phoneRegex : regex :=
  Group 1
    (Seq (Rep 3 (Cls is_digit))
       (Seq (Opt (Cls phone_sep))
          (Seq (Rep 3 (Cls is_digit))
             (Seq (Opt (Cls phone_sep))
                (Rep 4 (Cls is_digit)))))).

Definition serviceKeywords : list string :=
  ["consultation"; "checkup"; "examination"; "treatment"; "therapy"; "surgery"].

(** The [for ... of] loop with its [break]: the first keyword, in the
    order of the list, that the lower-cased message includes. *)
Fixpoint first_keyword (keywords : list string) (message : string) : option string :=
  match keywords with
  | [] => None
  | keyword :: rest =>
      if includes (toLowerCase message) keyword then Some keyword
      else first_keyword rest message
  end.

(** [/(?:on|for|at)\s+(\w+\s+\d{1,2}(?:st|nd|rd|th)?)/i] *)
Definition dateRegex : regex :=
  Seq (Alt (Word LitI "on") (Alt (Word LitI "for") (Word LitI "at")))
    (Seq (Plus (Cls is_space))
       (Group 1
          (Seq (Plus (Cls is_word))
             (Seq (Plus (Cls is_space))
                (Seq (Cls is_digit)
                   (Seq (Opt (Cls is_digit))
                      (Opt (Alt (Word LitI "st")
                              (Alt (Word LitI "nd")
                                 (Alt (Word LitI "rd") (Word LitI "th"))))))))))).

(** [/(\d{1,2}:\d{2}\s*(?:am|pm)?)/i] *)
Definition timeRegex : regex :=
  Group 1
    (Seq (Cls is_digit)
       (Seq (Opt (Cls is_digit))
          (Seq (Lit ":")
             (Seq (Rep 2 (Cls is_digit))
                (Seq (Star (Cls is_space))
                   (Opt (Alt (Word LitI "am") (Word LitI "pm")))))))).

(** [if (m) appointmentData.key = f(m[1])]. *)
Definition set_if {A : Type} (m : option A) (key : string) (f : A -> string)
           (appointmentData : gmap string string) : gmap string string :=
  match m with
  | Some x => <[key := f x]> appointmentData
  | None => appointmentData
  end.

Definition extractAppointmentInfo (message : string) : gmap string string :=
  let appointmentData := ∅ in
  let appointmentData :=
    set_if (match1 nameRegex message) "name" trim appointmentData in
  let appointmentData :=
    set_if (match1 emailMatchRegex message) "email" id appointmentData in
  let appointmentData :=
    set_if (match1 phoneRegex message) "phone" (remove_chars phone_sep)
      appointmentData in
  let appointmentData :=
    set_if (first_keyword serviceKeywords message) "service" id appointmentData in
  let appointmentData :=
    set_if (match1 dateRegex message) "preferredDate" id appointmentData in
  let appointmentData :=
    set_if (match1 timeRegex message) "preferredTime" id appointmentData in
  appointmentData.

End Appointment.

(* ===================================================================== *)
(** ** utils/inMemoryStore.js *)
(* ===================================================================== *)

Module InMemoryStore.
Import JS.

(** [const store = new Map()]: session id to message array. *)
Definition getMessages_t : Type :=
  string -> option string -> M (gmap string (list value)) (option (list value)).

(** [module.exports.getMessages]. *)
Definition getMessages : getMessages_t :=
  fun sessionId systemPrompt store =>
    match store !! sessionId with
    | None =>
        if negb (truthy_str systemPrompt) then (Ok None, store)
        else
          let store :=
            <[sessionId := [VObj [("role", VStr "system");
                                  ("content", VStr (default "" systemPrompt))]]]>
              store in
          (Ok (store !! sessionId), store)
    | Some _ => (Ok (store !! sessionId), store)
    end.

(** What an identifier of the file can be bound to. *)
Inductive binding : Type :=
| BStore                          (* const store *)
| BParameter                      (* a parameter of the function *)
| BCommonJS                       (* the wrapper's parameters *)
| BFunction (f : getMessages_t).

(** The bindings in scope in the body of [appendMessage]: its
    parameters, the single top-level declaration and the parameters of
    the CommonJS wrapper.  [getMessages] and [appendMessage] are
    properties of [module.exports] only, and no global of the runtime
    has either name. *)
Definition scope : list (string * binding) :=
  [ ("sessionId", BParameter); ("msg", BParameter);
    ("store", BStore);
    ("exports", BCommonJS); ("require", BCommonJS); ("module", BCommonJS);
    ("__filename", BCommonJS); ("__dirname", BCommonJS) ].

Fixpoint resolve (name : string) (sc : list (string * binding)) : option binding :=
  match sc with
  | [] => None
  | (n, b) :: sc' => if String.eqb name n then Some b else resolve name sc'
  end.

(** [module.exports.appendMessage]: [getMessages(sessionId).push(msg)],
    with [getMessages] resolved as a bare identifier. *)
Definition appendMessage (sessionId : string) (msg : value)
  : M (gmap string (list value)) unit :=
  match resolve "getMessages" scope with
  | None => throw (ReferenceError "getMessages is not defined")
  | Some (BFunction f) =>
      (history <- f sessionId None ;;
       match history with
       | Some l => fun store => (Ok tt, <[sessionId := l ++ [msg]]> store)
       | None => throw (TypeError "Cannot read properties of undefined (reading 'push')")
       end)%js
  | Some _ => throw (TypeError "getMessages is not a function")
  end.

End InMemoryStore.

(* ===================================================================== *)
(** ** handlers/chat.js: the slot-filling handler (ten required fields) *)
(* ===================================================================== *)

Module SlotFilling.
Import JS Regex.

Record session : Type :=
  { step : nat; data : gmap string value; lastActive : Z; started : bool }.

Definition set_lastActive (t : Z) (s : session) : session :=
  {| step := step s; data := data s; lastActive := t; started := started s |}.

Definition set_data (d : gmap string value) (s : session) : session :=
  {| step := step s; data := d; lastActive := lastActive s; started := started s |}.

(** The module-level state: the own properties of [const sessions = {}]
    and the documents of the [actiontables] collection.  [sessions] is
    a plain object, so a key that is not an own property is looked up
    on [Object.prototype]; the handler can add one property there,
    [lastActive], which the state records too. *)
Record world : Type :=
  { sessions : gmap string session;
    collection : list (gmap string value);
    prototype_lastActive : option Z }.   (* Object.prototype.lastActive *)

Definition requiredFields : list string :=
  [ "patientName"; "dob"; "email"; "phone"; "doctor"; "service"; "time";
    "status"; "action"; "chiefComplaint" ].

(** [requiredFields.filter(f => !session.data[f])]. *)
Definition missing (d : gmap string value) : list string :=
  List.filter (fun f => negb (truthy_opt (d !! f))) requiredFields.

(** What the completion API answered to [handleAIConversation]. *)
Inductive completion_outcome : Type :=
| Rejected (e : error)     (* [create] rejects: timeout, network, quota *)
| Unparseable              (* inside [try]: the content cannot be read or
                              [JSON.parse] throws *)
| Parsed (v : value).      (* [JSON.parse] returns [v] *)

(** What the collaborators answer during one invocation. *)
Record env : Type :=
  { now : Z;                          (* Date.now() *)
    createdAt : Z;                    (* new Date() *)
    mongo : option error;             (* initMongo throws *)
    openai : option error;            (* initOpenAI throws *)
    insertOne : option error;         (* collection.insertOne rejects *)
    completion : completion_outcome }.

(** [event.body] once parsed and destructured. *)
Inductive event : Type :=
| BadBody (e : error)                 (* JSON.parse or the destructuring throws *)
| Body (sessionId message : option string).

Inductive body : Type :=
| ErrorBody (error : string) (message : option string)
| Booked (response : string) (appointment : gmap string value) (completed : bool)
| Cancelled (response : string) (completed : bool)
| Prompt (response : option value) (step totalSteps : nat).

Record response : Type := { statusCode : Z; payload : body }.

(** [/yes/i] and [/no/i]. *)
Definition yesRegex : regex := Word LitI "yes".
Definition noRegex : regex := Word LitI "no".

Definition fallback : value :=
  VObj [ ("data", VObj []);
         ("nextPrompt", VStr "Sorry, I didn't understand that. Can you rephrase?") ].

(** [handleAIConversation]: the call to the completion API is awaited
    before the [try]; only reading and parsing its content is inside.
    ([initOpenAI] is a no-op here, the handler has run it.) *)
Definition handleAIConversation (e : env) (session : session) (userMessage : string)
  : result value :=
  match completion e with
  | Rejected err => Throw err
  | Unparseable => Ok fallback
  | Parsed parsed => Ok parsed
  end.

(** [v.key] for a key that is neither an index nor [length]. *)
Definition get_prop (v : value) (key : string) : option value :=
  match v with
  | VObj l => object_props l !! key
  | _ => None
  end.

(** [const { data, nextPrompt } = v]. *)
Definition destructure (v : value) : result (option value * option value) :=
  match v with
  | VNull =>
      Throw (TypeError
               "Cannot destructure property 'data' of '(intermediate value)' as it is null.")
  | _ => Ok (get_prop v "data", get_prop v "nextPrompt")
  end.

(** What an identifier of the file can be bound to. *)
Inductive binding : Type :=
| BValue                                    (* a declaration of the file *)
| BPrompts (confirm : session -> string)    (* an object with [confirm] *)
| BSteps (steps : list string).             (* an array *)

(** The declarations of the file, the parameters of the CommonJS
    wrapper and the handler's own bindings.  Neither [PROMPTS] nor
    [STEPS] is declared, and the runtime has no such global. *)
Definition scope : list (string * binding) :=
  List.map (fun n => (n, BValue))
    [ "MongoClient"; "Pinecone"; "OpenAI"; "mongoUri"; "pineconeApiKey";
      "pineconeEnv"; "pineconeIndexName"; "openaiApiKey"; "pineconeClient";
      "pineconeIndex"; "mongoClient"; "openai"; "sessions"; "cachedDb";
      "cachedCollection"; "requiredFields"; "initOpenAI"; "initPinecone";
      "initMongo"; "handleAIConversation"; "getConfirmationMessage";
      "defaultHeaders"; "exports"; "require"; "module"; "__filename";
      "__dirname"; "event"; "db"; "collection"; "body"; "sessionId";
      "message"; "session"; "missingFields" ].

Fixpoint resolve (name : string) (sc : list (string * binding)) : option binding :=
  match sc with
  | [] => None
  | (n, b) :: sc' => if String.eqb name n then Some b else resolve name sc'
  end.

(** [sessions[sessionId] = s], [delete sessions[sessionId]] and the
    arrival of a document in the collection. *)
Definition with_session (sessionId : string) (s : session) (w : world) : world :=
  {| sessions := <[sessionId := s]> (sessions w); collection := collection w;
     prototype_lastActive := prototype_lastActive w |}.

Definition without_session (sessionId : string) (w : world) : world :=
  {| sessions := delete sessionId (sessions w); collection := collection w;
     prototype_lastActive := prototype_lastActive w |}.

Definition with_document (doc : gmap string value) (w : world) : world :=
  {| sessions := sessions w; collection := collection w ++ [doc];
     prototype_lastActive := prototype_lastActive w |}.

(** [Object.prototype.lastActive = t]. *)
Definition with_prototype_lastActive (t : Z) (w : world) : world :=
  {| sessions := sessions w; collection := collection w;
     prototype_lastActive := Some t |}.

(** What [sessions[sessionId]] evaluates to. *)
Inductive resolved : Type :=
| Session (s : session)      (* an own property *)
| Prototype                  (* [Object.prototype] itself, under [__proto__] *)
| Method                     (* a function of [Object.prototype] *)
| Stamp (n : Z)              (* the number at [Object.prototype.lastActive] *)
| Undefined.

(** What the key inherits when [sessions] has no own property for it. *)
Definition inherited (sessionId : string) (w : world) : resolved :=
  if String.eqb sessionId "__proto__" then Prototype
  else if on_object_prototype sessionId then Method
  else if String.eqb sessionId "lastActive" then
    match prototype_lastActive w with
    | Some n => Stamp n
    | None => Undefined
    end
  else Undefined.

Definition sessions_get (sessionId : string) (w : world) : resolved :=
  match sessions w !! sessionId with
  | Some s => Session s
  | None => inherited sessionId w
  end.

(** ToBoolean of it. *)
Definition found (r : resolved) : bool :=
  match r with
  | Session _ | Prototype | Method => true
  | Stamp n => negb (n =? 0)%Z
  | Undefined => false
  end.

(** Whether the key finds something on [Object.prototype]: then
    [!sessions[sessionId]] is false without an own property. *)
Definition inherits (sessionId : string) (w : world) : bool :=
  found (inherited sessionId w).

Definition read_session (sessionId : string) : M world session :=
  fun w =>
    match sessions w !! sessionId with
    | Some s => (Ok s, w)
    | None => (Throw (TypeError "Cannot read properties of undefined"), w)
    end.

Definition write_session (sessionId : string) (s : session) : M world unit :=
  fun w => (Ok tt, with_session sessionId s w).

Definition delete_session (sessionId : string) : M world unit :=
  fun w => (Ok tt, without_session sessionId w).

(** [await collection.insertOne(doc)]. *)
Definition insert (e : env) (doc : gmap string value) : M world unit :=
  match insertOne e with
  | Some err => throw err
  | None => fun w => (Ok tt, with_document doc w)
  end.

(** [{ response: PROMPTS.confirm(session), step: session.step,
       totalSteps: STEPS.length }]. *)
Definition confirm_prompt (sc : list (string * binding)) (session : session)
  : M world response :=
  match resolve "PROMPTS" sc with
  | None => throw (ReferenceError "PROMPTS is not defined")
  | Some (BPrompts confirm) =>
      match resolve "STEPS" sc with
      | None => throw (ReferenceError "STEPS is not defined")
      | Some (BSteps steps) =>
          ret {| statusCode := 200;
                 payload := Prompt (Some (VStr (confirm session))) (step session)
                              (List.length steps) |}
      | Some _ => throw (TypeError "Cannot read properties of undefined")
      end
  | Some _ => throw (TypeError "PROMPTS.confirm is not a function")
  end.

Definition fresh (e : env) : session :=
  {| step := 0; data := ∅; lastActive := now e; started := false |}.

(** [{ ...session.data, status: 'booked', action: 'appointment',
       createdAt: new Date(), sessionId }]. *)
Definition booking_doc (e : env) (sessionId : string) (d : gmap string value)
  : gmap string value :=
  <["sessionId" := VStr sessionId]>
    (<["createdAt" := VDate (createdAt e)]>
       (<["action" := VStr "appointment"]>
          (<["status" := VStr "booked"]> d))).

(** The session a turn works on: the one stored under the key, or the
    one just created, with [lastActive] refreshed; none when the key
    finds something else, inherited. *)
Definition current (e : env) (sessionId : string) (w : world) : option session :=
  match sessions w !! sessionId with
  | Some s => Some (set_lastActive (now e) s)
  | None => if inherits sessionId w then None else Some (fresh e)
  end.

(** [if (!sessions[sessionId]) sessions[sessionId] = {...}], then
    [const session = sessions[sessionId]] and
    [session.lastActive = Date.now()].  On [Object.prototype] the
    assignment creates the property; on one of its functions it
    changes nothing the handler or the timer reads; on a number it
    does nothing. *)
Definition open_session (e : env) (sessionId : string) : M world resolved :=
  (w <- get ;;
   _ <- (if found (sessions_get sessionId w) then ret tt
         else write_session sessionId (fresh e)) ;;
   w <- get ;;
   match sessions_get sessionId w with
   | Session session =>
       _ <- write_session sessionId (set_lastActive (now e) session) ;;
       session <- read_session sessionId ;;
       ret (Session session)
   | Prototype =>
       _ <- (fun w => (Ok tt, with_prototype_lastActive (now e) w)) ;;
       ret Prototype
   | Method => ret Method
   | Stamp n => ret (Stamp n)
   | Undefined =>
       throw (TypeError "Cannot set properties of undefined (setting 'lastActive')")
   end)%js.

(** The state once [session.lastActive = Date.now()] has run on what
    the key inherits. *)
Definition touched (e : env) (sessionId : string) (w : world) : world :=
  if String.eqb sessionId "__proto__" then with_prototype_lastActive (now e) w else w.

(** The fields that the completion of a turn contributes to the
    collected ones, when the turn runs extraction. *)
Definition extracted (e : env) : gmap string value :=
  match completion e with
  | Parsed v =>
      match destructure v with
      | Ok (d, _) => own_props d
      | Throw _ => ∅
      end
  | Unparseable | Rejected _ => ∅
  end.

(** The branch taken when no required field is missing. *)
Definition confirmation (e : env) (sessionId : string) (session : session)
           (message : string) : M world response :=
  (if test yesRegex message then
     let doc := booking_doc e sessionId (data session) in
     _ <- insert e doc ;;
     _ <- delete_session sessionId ;;
     ret {| statusCode := 200;
            payload := Booked "Your appointment is confirmed! Thank you." doc true |}
   else if test noRegex message then
     _ <- delete_session sessionId ;;
     ret {| statusCode := 200;
            payload := Cancelled
              "Appointment cancelled. If you want to start over, just say hi!"
              false |}
   else confirm_prompt scope session)%js.

(** The branch taken otherwise: extraction by the completion API and
    the merge [session.data = { ...session.data, ...data }]. *)
Definition extraction (e : env) (sessionId : string) (session : session)
           (message : string) : M world response :=
  (parsed <- lift (handleAIConversation e session message) ;;
   fields <- lift (destructure parsed) ;;
   let (extracted, nextPrompt) := fields : option value * option value in
   _ <- write_session sessionId (set_data (spread2 (data session) extracted) session) ;;
   session <- read_session sessionId ;;
   let stillMissing := missing (data session) in
   ret {| statusCode := 200;
          payload := Prompt nextPrompt
                       (List.length requiredFields - List.length stillMissing)
                       (List.length requiredFields) |})%js.

(** The handler from the session lookup on, for a non-empty
    [sessionId] and [message]. *)
Definition turn (e : env) (sessionId message : string) : M world response :=
  (session <- open_session e sessionId ;;
   match session with
   | Session session =>
       let missingFields := missing (data session) in
       if (List.length missingFields =? 0)%nat
       then confirmation e sessionId session message
       else extraction e sessionId session message
   | Prototype | Method | Stamp _ | Undefined =>
       (* [session.data] is undefined *)
       throw (TypeError "Cannot read properties of undefined (reading 'patientName')")
   end)%js.

Definition handler_try (e : env) (ev : event) : M world response :=
  (_ <- await (mongo e) ;;
   _ <- await (openai e) ;;
   match ev with
   | BadBody err => throw err
   | Body sessionId message =>
       if negb (truthy_str sessionId) || negb (truthy_str message) then
         ret {| statusCode := 400;
                payload := ErrorBody "sessionId and message are required." None |}
       else
         match sessionId, message with
         | Some sessionId, Some message => turn e sessionId message
         | _, _ => throw (TypeError "unreachable")
         end
   end)%js.

(** [module.exports.handler]: the [try] block and its [catch]. *)
Definition handler (e : env) (ev : event) (w : world) : response * world :=
  match handler_try e ev w with
  | (Ok r, w') => (r, w')
  | (Throw err, w') =>
      ({| statusCode := 500;
          payload := ErrorBody "Database connection error" (Some (error_message err)) |},
       w')
  end.

Definition IDLE_LIMIT_MS : Z := 15 * 60 * 1000.

Definition expired (now : Z) (s : session) : bool :=
  (now - lastActive s >? IDLE_LIMIT_MS)%Z.

(** The [for ... in] loop over the keys, deleting as it goes.  The
    loop also visits [lastActive] once it is on [Object.prototype] and
    not an own key: [sessions[id]] is then a number, whose [lastActive]
    is that number again, and the [delete] finds no own property. *)
Definition sweep_loop (now : Z) (keys : list (string * session))
           (ss : gmap string session) : gmap string session :=
  fold_left
    (fun acc kv =>
       match acc !! fst kv with
       | Some s => if expired now s then delete (fst kv) acc else acc
       | None => acc
       end)
    keys ss.

Definition sweep (now : Z) (w : world) : world :=
  {| sessions := sweep_loop now (map_to_list (sessions w)) (sessions w);
     collection := collection w;
     prototype_lastActive := prototype_lastActive w |}.


End SlotFilling.

(* ===================================================================== *)
(** ** The seven-field handler: one field per turn, by cursor *)
(* ===================================================================== *)

Module CursorFlow.
Import JS.

(** [appointmentFields], keys only: the prompts are not used. *)
Definition appointmentFields : list string :=
  [ "name"; "email"; "phoneNumber"; "doctor"; "service"; "date"; "time" ].

Record session : Type := { step : nat; data : gmap string value }.

Record world : Type :=
  { sessions : gmap string session; collection : list (gmap string value) }.

Record env : Type :=
  { createdAt : Z;                    (* new Date() *)
    init : option error;              (* initOpenAI, initPinecone or initMongo throws *)
    insertOne : option error;         (* awsCollection.insertOne rejects *)
    aiResponse : result string }.     (* getAIResponse *)

Inductive event : Type :=
| BadBody (e : error)
| Body (sessionId message : option string).

Inductive body : Type :=
| ErrorBody (error : string) (message : option string)
| Completed (response : string) (appointment : gmap string value) (completed : bool)
| Next (response : string) (step totalSteps : nat)
| Unnumbered (response : string) (totalSteps : nat).   (* step: NaN *)

Record response : Type := { statusCode : Z; payload : body }.

(** [sessions] is a plain object: whether [sessions[sessionId]] finds,
    without an own property, a property of [Object.prototype]. *)
Definition inherits (sessionId : string) (w : world) : bool :=
  match sessions w !! sessionId with
  | Some _ => false
  | None => on_object_prototype sessionId
  end.

Definition read_session (sessionId : string) : M world session :=
  fun w =>
    match sessions w !! sessionId with
    | Some s => (Ok s, w)
    | None => (Throw (TypeError "Cannot read properties of undefined"), w)
    end.

Definition write_session (sessionId : string) (s : session) : M world unit :=
  fun w => (Ok tt, {| sessions := <[sessionId := s]> (sessions w);
                      collection := collection w |}).

Definition delete_session (sessionId : string) : M world unit :=
  fun w => (Ok tt, {| sessions := delete sessionId (sessions w);
                      collection := collection w |}).

Definition insert (e : env) (doc : gmap string value) : M world unit :=
  match insertOne e with
  | Some err => throw err
  | None =>
      fun w => (Ok tt, {| sessions := sessions w;
                          collection := collection w ++ [doc] |})
  end.

(** [session.data[prevField] = message] when the cursor has moved. *)
Definition save_previous (message : string) (s : session) : session :=
  if (0 <? step s)%nat && (step s <=? List.length appointmentFields)%nat then
    match appointmentFields !! (step s - 1)%nat with
    | Some prevField =>
        {| step := step s; data := <[prevField := VStr message]> (data s) |}
    | None => s
    end
  else s.

(** The turn when [sessions[sessionId]] is inherited: the object has
    neither [step] nor [data], so no comparison on [step] holds, and
    [session.step++] leaves NaN on it, which no later turn tells from
    the missing [step]. *)
Definition inherited_turn (e : env) : M world response :=
  (aiResponse <- lift (aiResponse e) ;;
   ret {| statusCode := 200;
          payload := Unnumbered aiResponse (List.length appointmentFields) |})%js.

Definition turn (e : env) (sessionId message : string) : M world response :=
  (w <- get ;;
   if inherits sessionId w then inherited_turn e else
   _ <- (match sessions w !! sessionId with
         | None => write_session sessionId {| step := 0; data := ∅ |}
         | Some _ => ret tt
         end) ;;
   session <- read_session sessionId ;;
   _ <- write_session sessionId (save_previous message session) ;;
   session <- read_session sessionId ;;
   if (List.length appointmentFields <=? step session)%nat then
     let appointmentData :=
       <["sessionId" := VStr sessionId]>
         (<["createdAt" := VDate (createdAt e)]> (data session)) in
     _ <- insert e appointmentData ;;
     _ <- delete_session sessionId ;;
     aiResponse <- lift (aiResponse e) ;;
     ret {| statusCode := 200;
            payload := Completed aiResponse appointmentData true |}
   else
     aiResponse <- lift (aiResponse e) ;;
     _ <- write_session sessionId {| step := S (step session); data := data session |} ;;
     session <- read_session sessionId ;;
     ret {| statusCode := 200;
            payload := Next aiResponse (step session)
                         (List.length appointmentFields) |})%js.

Definition handler_try (e : env) (ev : event) : M world response :=
  (_ <- await (init e) ;;
   match ev with
   | BadBody err => throw err
   | Body sessionId message =>
       if negb (truthy_str sessionId) || negb (truthy_str message) then
         ret {| statusCode := 400;
                payload := ErrorBody "sessionId and message are required." None |}
       else
         match sessionId, message with
         | Some sessionId, Some message => turn e sessionId message
         | _, _ => throw (TypeError "unreachable")
         end
   end)%js.

Definition handler (e : env) (ev : event) (w : world) : response * world :=
  match handler_try e ev w with
  | (Ok r, w') => (r, w')
  | (Throw err, w') =>
      ({| statusCode := 500;
          payload := ErrorBody "Internal server error" (Some (error_message err)) |},
       w')
  end.

End CursorFlow.

(* ===================================================================== *)
(** ** handlers/chat.js: the handler guarded by [validateInput] *)
(* ===================================================================== *)

Module Gateway.
Import JS.

Record validation : Type := { valid : bool; error : option string }.

(** [!x || typeof x !== 'string']. *)
Definition not_nonempty_string (x : option value) : bool :=
  negb (truthy_opt x) ||
  match x with
  | Some (VStr _) => false
  | _ => true
  end.

(** [x.length] of a string. *)
Definition str_length (x : option value) : nat :=
  match x with
  | Some (VStr s) => String.length s
  | _ => 0
  end.

Definition validateInput (sessionId message : option value) : validation :=
  if not_nonempty_string sessionId then
    {| valid := false; error := Some "sessionId must be a non-empty string" |}
  else if not_nonempty_string message then
    {| valid := false; error := Some "message must be a non-empty string" |}
  else if (100 <? str_length sessionId)%nat then
    {| valid := false; error := Some "sessionId too long (max 100 characters)" |}
  else if (4000 <? str_length message)%nat then
    {| valid := false; error := Some "message too long (max 4000 characters)" |}
  else {| valid := true; error := None |}.

Definition RATE_LIMIT_WINDOW : Z := 60000.
Definition RATE_LIMIT_MAX_REQUESTS : nat := 10.

(** [isRateLimited], on [rateLimitCache]. *)
Definition isRateLimited (now : Z) (sessionId : string)
  : M (gmap string (list Z)) bool :=
  fun cache =>
    let windowStart := (now - RATE_LIMIT_WINDOW)%Z in
    let cache :=
      match cache !! sessionId with
      | None => <[sessionId := []]> cache
      | Some _ => cache
      end in
    let requests := default [] (cache !! sessionId) in
    let recentRequests := List.filter (fun time => (time >? windowStart)%Z) requests in
    if (RATE_LIMIT_MAX_REQUESTS <=? List.length recentRequests)%nat then (Ok true, cache)
    else (Ok false, <[sessionId := recentRequests ++ [now]]> cache).

(** [event.body] as [JSON.parse] sees it. *)
Inductive request_body : Type :=
| NoBody                      (* falsy: parsed as '{}' *)
| InvalidJSON                 (* JSON.parse throws *)
| JSONNull                    (* JSON.parse returns null *)
| Fields (sessionId message : option value).

Record event : Type := { httpMethod : string; body : request_body }.

Inductive payload : Type :=
| Empty
| ErrorBody (error : string)
| RateLimited (error : string) (retryAfter : Z)
| Reply (reply : string).

Record response : Type := { statusCode : Z; content : payload }.

Record env : Type :=
  { now : Z;
    apiKey : bool;                    (* process.env.OPENAI_API_KEY is set *)
    processing : result string }.     (* everything after the key check:
                                         the final reply or what was thrown *)

(** [event.body ? JSON.parse(event.body).sessionId : 'unknown'], as
    evaluated for the log lines. *)
Definition log_session (ev : event) : result unit :=
  match body ev with
  | InvalidJSON => Throw (SyntaxError "Unexpected token in JSON")
  | JSONNull => Throw (TypeError "Cannot read properties of null (reading 'sessionId')")
  | NoBody | Fields _ _ => Ok tt
  end.

Definition fields (ev : event) : option value * option value :=
  match body ev with
  | Fields sessionId message => (sessionId, message)
  | _ => (None, None)
  end.

(** What follows a successful validation: rate limiting, the key check
    and the processing of the message. *)
Definition validated (e : env) (sessionId : string) : M (gmap string (list Z)) response :=
  (limited <- isRateLimited (now e) sessionId ;;
   if (limited : bool) then
     ret {| statusCode := 429;
            content := RateLimited
              "Rate limit exceeded. Please wait before sending another message." 60 |}
   else if negb (apiKey e) then
     ret {| statusCode := 500; content := ErrorBody "OpenAI API key not configured" |}
   else
     reply <- lift (processing e) ;;
     ret {| statusCode := 200; content := Reply reply |})%js.

(** The [try] block.  Its guarded [JSON.parse(event.body || '{}')]
    cannot throw any more: the log line has parsed the same text. *)
Definition handler_try (e : env) (ev : event) : M (gmap string (list Z)) response :=
  (_ <- lift (log_session ev) ;;
   if String.eqb (httpMethod ev) "OPTIONS" then
     ret {| statusCode := 200; content := Empty |}
   else if negb (String.eqb (httpMethod ev) "POST") then
     ret {| statusCode := 405; content := ErrorBody "Method not allowed" |}
   else
     let (sessionId, message) := fields ev in
     let validation := validateInput sessionId message in
     if negb (valid validation) then
       ret {| statusCode := 400;
              content := ErrorBody (default "" (error validation)) |}
     else
       match sessionId with
       | Some (VStr sessionId) => validated e sessionId
       | _ => throw (TypeError "unreachable")
       end)%js.

(** The status the [catch] block picks from [error.message]. *)
Definition catch_response (err : JS.error) : response :=
  let m := error_message err in
  if includes m "OpenAI API timeout" then
    {| statusCode := 408; content := ErrorBody "Request timeout - please try again" |}
  else if includes m "rate limit" then
    {| statusCode := 429;
       content := ErrorBody "OpenAI rate limit exceeded - please try again later" |}
  else if includes m "authentication" then
    {| statusCode := 401; content := ErrorBody "OpenAI authentication failed" |}
  else if includes m "quota" then
    {| statusCode := 429; content := ErrorBody "OpenAI quota exceeded" |}
  else if includes m "MongoDB" then
    {| statusCode := 503;
       content := ErrorBody "Database service temporarily unavailable" |}
  else {| statusCode := 500; content := ErrorBody "Internal server error" |}.

(** [module.exports.handler].  The [catch] block evaluates the log
    expression again, so a body that made it throw makes the handler
    itself reject. *)
Definition handler (e : env) (ev : event) : M (gmap string (list Z)) response :=
  fun cache =>
    match handler_try e ev cache with
    | (Ok r, cache') => (Ok r, cache')
    | (Throw err, cache') =>
        match log_session ev with
        | Throw err' => (Throw err', cache')
        | Ok _ => (Ok (catch_response err), cache')
        end
    end.

End Gateway.

(* ===================================================================== *)
(** ** What the matcher computes: derivations of a pattern *)
(* ===================================================================== *)

Module RegexSpec.
Import JS Regex.

(** The loop of [Star] in [rmatch], as a function of its own. *)
Section StarLoop.
Context {A : Type} (r : regex) (k : nat -> string -> captures -> option A).

Fixpoint star_loop (fuel : nat) (i : nat) (s : string) (c : captures)
         {struct fuel} : option A :=
  match fuel with
  | O => k i s c
  | S fuel' =>
      match rmatch r i s c
              (fun i' s' c' =>
                 if (i <? i')%nat then star_loop fuel' i' s' c' else None) with
      | Some x => Some x
      | None => k i s c
      end
  end.

End StarLoop.

(** [derives r i s c j t c']: from index [i], where the input left is
    [s] and the captures are [c], the pattern [r] can consume input up
    to index [j], leaving [t] and the captures [c']. *)
Inductive derives : regex -> nat -> string -> captures -> nat -> string -> captures -> Prop :=
| d_eps i s c : derives Eps i s c i s c
| d_lit a i s c : derives (Lit a) i (String a s) c (S i) s c
| d_liti a b i s c :
    ascii_upper a = ascii_upper b ->
    derives (LitI a) i (String b s) c (S i) s c
| d_cls p b i s c :
    p b = true ->
    derives (Cls p) i (String b s) c (S i) s c
| d_seq r1 r2 i s c j t c1 k u c2 :
    derives r1 i s c j t c1 ->
    derives r2 j t c1 k u c2 ->
    derives (Seq r1 r2) i s c k u c2
| d_alt_l r1 r2 i s c j t c1 :
    derives r1 i s c j t c1 ->
    derives (Alt r1 r2) i s c j t c1
| d_alt_r r1 r2 i s c j t c1 :
    derives r2 i s c j t c1 ->
    derives (Alt r1 r2) i s c j t c1
| d_star_stop r i s c : derives (Star r) i s c i s c
| d_star_more r i s c j t c1 k u c2 :
    derives r i s c j t c1 ->
    (i < j)%nat ->
    derives (Star r) j t c1 k u c2 ->
    derives (Star r) i s c k u c2
| d_group n r i s c j t c1 :
    derives r i s c j t c1 ->
    derives (Group n r) i s c j t ((n, substring 0 (j - i) s) :: c1)
| d_bol s c : derives Bol 0 s c 0 s c
| d_eol i c : derives Eol i EmptyString c i EmptyString c.

(** Every character of [s] is in the class [p]. *)
Fixpoint all_chars (p : ascii -> bool) (s : string) : bool :=
  match s with
  | EmptyString => true
  | String c s' => p c && all_chars p s'
  end.

End RegexSpec.

(* ===================================================================== *)
(** ** utils/appointment.js, the rest: confirmation, slots, services *)
(* ===================================================================== *)

Module AppointmentUtils.
Import JS.

(** [`${n}`] for an integer. *)
Definition decimal (n : Z) : string := NilZero.string_of_int (Z.to_int n).

(** [`${d.key}`]: an absent property prints as [undefined]. *)
Definition show (d : gmap string string) (key : string) : string :=
  default "undefined" (d !! key).

Record confirmation : Type :=
  { appointmentId : string;
    status : string;
    confirmationMessage : string;
    appointmentData : gmap string string }.

Definition generateAppointmentConfirmation (now : Z) (appointmentData : gmap string string)
  : confirmation :=
  {| appointmentId := ("APT-" ++ decimal now)%string;
     status := "confirmed";
     confirmationMessage :=
       ("Thank you " ++ show appointmentData "name"
        ++ "! Your appointment has been confirmed for " ++ show appointmentData "service"
        ++ " on " ++ show appointmentData "preferredDate"
        ++ " at " ++ show appointmentData "preferredTime"
        ++ ". We'll send a confirmation email to " ++ show appointmentData "email"
        ++ " and call you at " ++ show appointmentData "phone"
        ++ " if needed.")%string;
     appointmentData := appointmentData |}.

Definition availableSlots : list string :=
  [ "09:00 AM"; "10:00 AM"; "11:00 AM"; "02:00 PM"; "03:00 PM"; "04:00 PM" ].

Record availability : Type :=
  { available : bool; alternativeSlots : list string; message : string }.

(** [availableSlots.includes(time)]. *)
Definition slot_listed (slots : list string) (time : string) : bool :=
  existsb (String.eqb time) slots.

Definition checkAvailability (date time service : string) : availability :=
  let isAvailable := slot_listed availableSlots time in
  {| available := isAvailable;
     alternativeSlots := if isAvailable then [] else availableSlots;
     message := if isAvailable then "Slot is available"
                else "Slot is not available, here are alternative times" |}.

(** What [Date.now()] and [new Date().toISOString()] answer while an
    appointment is created and confirmed. *)
Record clock : Type :=
  { created_ms : Z; created_iso : string; updated_iso : string; confirmed_ms : Z }.

(** [{ id: `APT-${Date.now()}`, ...appointmentData, status: 'confirmed',
       createdAt: ..., updatedAt: ... }]. *)
Definition createAppointment (t : clock) (appointmentData : gmap string string)
  : gmap string string :=
  <["updatedAt" := updated_iso t]>
    (<["createdAt" := created_iso t]>
       (<["status" := "confirmed"]>
          (merge_props {[ "id" := ("APT-" ++ decimal (created_ms t))%string ]}
             appointmentData))).

Record service : Type := { id : string; name : string; duration : nat }.

Definition getAvailableServices : list service :=
  [ {| id := "consultation"; name := "General Consultation"; duration := 30 |};
    {| id := "checkup"; name := "Health Checkup"; duration := 45 |};
    {| id := "examination"; name := "Physical Examination"; duration := 60 |};
    {| id := "treatment"; name := "Treatment Session"; duration := 45 |};
    {| id := "therapy"; name := "Therapy Session"; duration := 60 |};
    {| id := "surgery"; name := "Surgical Consultation"; duration := 90 |} ].

Definition getAvailableTimeSlots : list string :=
  [ "09:00 AM"; "09:30 AM"; "10:00 AM"; "10:30 AM"; "11:00 AM"; "11:30 AM";
    "02:00 PM"; "02:30 PM"; "03:00 PM"; "03:30 PM"; "04:00 PM"; "04:30 PM" ].

(** [d.key || fallback]: an empty string falls back too. *)
Definition or_else (d : gmap string string) (key fallback : string) : string :=
  match d !! key with
  | Some s => if String.eqb s "" then fallback else s
  | None => fallback
  end.

Definition formatAppointmentData (appointmentData : gmap string string)
  : gmap string string :=
  list_to_map
    [ ("name", or_else appointmentData "name" "Not provided");
      ("email", or_else appointmentData "email" "Not provided");
      ("phone", or_else appointmentData "phone" "Not provided");
      ("service", or_else appointmentData "service" "Not specified");
      ("date", or_else appointmentData "preferredDate" "Not specified");
      ("time", or_else appointmentData "preferredTime" "Not specified") ].

End AppointmentUtils.

(* ===================================================================== *)
(** ** handlers/chat.js, guarded handler: the booking decision *)
(* ===================================================================== *)

Module Booking.
Import JS Appointment AppointmentUtils.

(** [errors.join(', ')]. *)
Fixpoint join (sep : string) (l : list string) : string :=
  match l with
  | [] => ""
  | [x] => x
  | x :: rest => (x ++ sep ++ join sep rest)%string
  end.

Definition wantsToConfirm (aiReply message : string) : bool :=
  includes (toLowerCase aiReply) "confirm"
  || includes (toLowerCase message) "confirm"
  || includes (toLowerCase message) "book"
  || includes (toLowerCase message) "schedule".

(** [Object.keys(extractedAppointmentInfo).length > 0]. *)
Definition hasAppointmentInfo (extracted : gmap string string) : bool :=
  (0 <? size extracted)%nat.

(** [finalReply] and [appointmentConfirmation] once the model has
    replied [aiReply] to [message]. *)
Definition decide (t : clock) (aiReply message : string)
  : string * option confirmation :=
  let extractedAppointmentInfo := extractAppointmentInfo message in
  if wantsToConfirm aiReply message && hasAppointmentInfo extractedAppointmentInfo then
    let validation := validateAppointmentData extractedAppointmentInfo in
    if valid validation then
      let appointment := createAppointment t extractedAppointmentInfo in
      let appointmentConfirmation :=
        generateAppointmentConfirmation (confirmed_ms t) appointment in
      (confirmationMessage appointmentConfirmation, Some appointmentConfirmation)
    else
      (("I need a bit more information to book your appointment. Please provide: "
        ++ join ", " (errors validation))%string, None)
  else (aiReply, None).

End Booking.

(* ===================================================================== *)
(** ** handlers/chat.js, slot-filling handler: the cached connection *)
(* ===================================================================== *)

Module MongoInit.
Import JS.

(** Which of [mongoClient], [cachedDb] and [cachedCollection] is set. *)
Record connection : Type :=
  { mongoClient : bool; cachedDb : bool; cachedCollection : bool }.

(** The state of a container that has just started. *)
Definition cold : connection :=
  {| mongoClient := false; cachedDb := false; cachedCollection := false |}.

(** What the driver answers if it is asked: [new MongoClient(uri)] may
    throw, [connect()] may reject. *)
Record driver : Type := { construct : option error; connect : option error }.

(** [{ db, collection }]. *)
Inductive handles : Type := Handles.

(** [initMongo]: the result is the object of handles or [undefined]
    ([None]), when the function runs off its end. *)
Definition initMongo (d : driver) : M connection (option handles) :=
  fun c =>
    if cachedDb c && cachedCollection c then (Ok (Some Handles), c)
    else if negb (mongoClient c) then
      match construct d with
      | Some err => (Throw err, c)
      | None =>
          let c := {| mongoClient := true; cachedDb := cachedDb c;
                      cachedCollection := cachedCollection c |} in
          match connect d with
          | Some err => (Throw err, c)
          | None =>
              (Ok (Some Handles),
               {| mongoClient := true; cachedDb := true; cachedCollection := true |})
          end
      end
    else (Ok None, c).

(** [const { db, collection } = await initMongo()] in the handler: what
    it makes of the call, as the [mongo] field of the handler's [env]. *)
Definition destructured (r : result (option handles)) : option error :=
  match r with
  | Ok (Some _) => None
  | Ok None =>
      Some (TypeError
              "Cannot destructure property 'db' of '(intermediate value)' as it is undefined.")
  | Throw err => Some err
  end.

Definition with_mongo (m : option error) (e : SlotFilling.env) : SlotFilling.env :=
  {| SlotFilling.now := SlotFilling.now e;
     SlotFilling.createdAt := SlotFilling.createdAt e;
     SlotFilling.mongo := m;
     SlotFilling.openai := SlotFilling.openai e;
     SlotFilling.insertOne := SlotFilling.insertOne e;
     SlotFilling.completion := SlotFilling.completion e |}.

(** One invocation of the handler in a container: [initMongo] runs on
    the connection state, and the handler on what it returned. *)
Definition invoke (d : driver) (e : SlotFilling.env) (ev : SlotFilling.event)
           (st : connection * SlotFilling.world)
  : SlotFilling.response * (connection * SlotFilling.world) :=
  let (r, c) := initMongo d (fst st) in
  let (resp, w) := SlotFilling.handler (with_mongo (destructured r) e) ev (snd st) in
  (resp, (c, w)).

End MongoInit.

(* ===================================================================== *)
(** ** Conversations: successive invocations of a handler *)
(* ===================================================================== *)

Module Conversation.

(** The seven-field handler invoked once per message of [turns] for the
    same key, each time with what the collaborators answer then; the
    replies come in order. *)
Fixpoint cursor_run (sessionId : string) (turns : list (CursorFlow.env * string))
         (w : CursorFlow.world) : list CursorFlow.response * CursorFlow.world :=
  match turns with
  | [] => ([], w)
  | (e, message) :: rest =>
      let (r, w1) :=
        CursorFlow.handler e (CursorFlow.Body (Some sessionId) (Some message)) w in
      let (rs, w2) := cursor_run sessionId rest w1 in
      (r :: rs, w2)
  end.

(** The session a turn of the seven-field handler works on when the
    key finds a session or nothing: the one found or created, with the
    message saved under the field asked on the previous turn. *)
Definition cursor_current (sessionId message : string) (w : CursorFlow.world)
  : CursorFlow.session :=
  CursorFlow.save_previous message
    (default {| CursorFlow.step := 0; CursorFlow.data := ∅ |}
       (CursorFlow.sessions w !! sessionId)).

(** The document the seven-field handler builds from a session. *)
Definition cursor_doc (e : CursorFlow.env) (sessionId : string) (s : CursorFlow.session)
  : gmap string JS.value :=
  <["sessionId" := JS.VStr sessionId]>
    (<["createdAt" := JS.VDate (CursorFlow.createdAt e)]> (CursorFlow.data s)).

Definition cursor_with (sessionId : string) (s : CursorFlow.session)
           (w : CursorFlow.world) : CursorFlow.world :=
  {| CursorFlow.sessions := <[sessionId := s]> (CursorFlow.sessions w);
     CursorFlow.collection := CursorFlow.collection w |}.

Definition cursor_error (err : JS.error) : CursorFlow.response :=
  {| CursorFlow.statusCode := 500;
     CursorFlow.payload :=
       CursorFlow.ErrorBody "Internal server error" (Some (JS.error_message err)) |}.

End Conversation.

(* ===================================================================== *)
(** ** handlers/chat.js: successive requests through the rate limiter *)
(* ===================================================================== *)

Module RateLimit.
Import JS Gateway.

(** [isRateLimited(sessionId)] called once per request, the clock
    reading [times] in turn: what each call returned. *)
Fixpoint arrivals (sessionId : string) (times : list Z)
  : M (gmap string (list Z)) (list bool) :=
  match times with
  | [] => ret []
  | now :: rest =>
      (limited <- isRateLimited now sessionId ;;
       later <- arrivals sessionId rest ;;
       ret (limited :: later))%js
  end.

(** The timestamps of [requests] inside the window that ends at [now]. *)
Definition recent (now : Z) (requests : list Z) : list Z :=
  List.filter (fun time => (time >? now - RATE_LIMIT_WINDOW)%Z) requests.

(** [rateLimitCache.get(sessionId)], nothing recorded when absent. *)
Definition recorded (sessionId : string) (cache : gmap string (list Z)) : list Z :=
  default [] (cache !! sessionId).

End RateLimit.

(* ===================================================================== *)
(** ** handlers/chat.js: the cached chat history *)
(* ===================================================================== *)

Module History.
Import JS.

Record message : Type :=
  { sessionId : string; role : string; content : string; createdAt : Z }.

(** What the database answers during one call. *)
Record env : Type :=
  { now : Z;                              (* new Date() *)
    getCollection : option error;         (* getCollection('chats') rejects *)
    found : result (list message);        (* find().sort().limit(50).toArray() *)
    insertOne : option error }.

(** [getSessionHistory], on [sessionCache].  The [catch] logs and
    rethrows. *)
Definition getSessionHistory (e : env) (sessionId : string)
  : M (gmap string (list message)) (list message) :=
  fun cache =>
    match cache !! sessionId with
    | Some history => (Ok history, cache)
    | None =>
        (_ <- await (getCollection e) ;;
         history <- lift (found e) ;;
         fun cache => (Ok history, <[sessionId := history]> cache))%js cache
    end.

(** [history.push(message)] followed by the [splice] that keeps the
    last 50. *)
Definition push_capped (history : list message) (m : message) : list message :=
  let history := history ++ [m] in
  if (50 <? List.length history)%nat
  then drop (List.length history - 50) history
  else history.

(** [saveMessage], on [sessionCache].  The [catch] logs and rethrows. *)
Definition saveMessage (e : env) (sessionId role content : string)
  : M (gmap string (list message)) message :=
  (_ <- await (getCollection e) ;;
   let message :=
     {| sessionId := sessionId; role := role; content := content;
        createdAt := now e |} in
   _ <- await (insertOne e) ;;
   fun cache =>
     match cache !! sessionId with
     | Some history => (Ok message, <[sessionId := push_capped history message]> cache)
     | None => (Ok message, cache)
     end)%js.

End History.

(* ===================================================================== *)
(** ** handlers/chat.js: the handler that offers [book_appointment] *)
(* ===================================================================== *)

Module FunctionCalling.
Import JS.

(** An item of [first.output]: the properties of the object. *)
Definition item : Type := gmap string value.

(** What [openai.responses.create] resolves to. *)
Record completion : Type := { output : list item; output_text : option string }.

(** [rateLimitCache] of the handler and [store] of inMemoryStore.js. *)
Record world : Type :=
  { rateLimitCache : gmap string (list Z);
    store : gmap string (list value) }.

Record env : Type :=
  { now : Z;
    apiKey : bool;               (* process.env.OPENAI_API_KEY is set *)
    context : result string;     (* the embeddings, the vector index and the
                                    searches: contextPrompt, or what was thrown *)
    first : result completion;   (* the first responses.create *)
    arguments : result unit;     (* JSON.parse(choice?.arguments) *)
    crypto : bool;               (* the runtime has a global named crypto *)
    second : result (option string) }.   (* second.output_text *)

Inductive payload : Type :=
| Empty
| ErrorBody (error : string)
| RateLimited (error : string) (retryAfter : Z)
| Reply (reply : option value) (sessionId : string) (tokens : option value).

Record response : Type := { statusCode : Z; content : payload }.

Definition on_cache {A : Type} (m : M (gmap string (list Z)) A) : M world A :=
  fun w =>
    let (r, cache) := m (rateLimitCache w) in
    (r, {| rateLimitCache := cache; store := store w |}).

Definition on_store {A : Type} (m : M (gmap string (list value)) A) : M world A :=
  fun w =>
    let (r, st) := m (store w) in
    (r, {| rateLimitCache := rateLimitCache w; store := st |}).

(** [m.key] for a key that is neither an index nor [length]. *)
Definition prop (key : string) (m : value) : result (option value) :=
  match m with
  | VNull => Throw (TypeError "Cannot read properties of null")
  | VObj l => Ok (object_props l !! key)
  | VBool _ | VNum _ | VStr _ | VArr _ | VDate _ => Ok None
  end.

(** [v === s] for a string literal [s]. *)
Definition is_string (s : string) (v : option value) : bool :=
  match v with
  | Some (VStr t) => String.eqb t s
  | _ => false
  end.

(** [history.filter(m => m.role === role)]. *)
Fixpoint filter_role (role : string) (history : list value) : result (list value) :=
  match history with
  | [] => Ok []
  | m :: rest =>
      match prop "role" m with
      | Throw err => Throw err
      | Ok r =>
          match filter_role role rest with
          | Throw err => Throw err
          | Ok ms => Ok (if is_string role r then m :: ms else ms)
          end
      end
  end.

(** [history.filter(m => m.role === 'assistant').slice(-1)[0]?.content]. *)
Definition reply_of (history : option (list value)) : result (option value) :=
  match history with
  | None => Throw (TypeError "Cannot read properties of undefined (reading 'filter')")
  | Some l =>
      match filter_role "assistant" l with
      | Throw err => Throw err
      | Ok ms =>
          match last ms with
          | None => Ok None
          | Some m => prop "content" m
          end
      end
  end.

(** [{ role: 'assistant', content }]; a property that is [undefined]
    is left out, as [JSON.stringify] does. *)
Definition assistant (content : option string) : value :=
  VObj (("role", VStr "assistant") ::
        match content with
        | Some text => [("content", VStr text)]
        | None => []
        end).

(** [{ type: 'function_call_output', call_id: choice.call_id, output }]
    with [functionResult] still [undefined]. *)
Definition function_call_output (choice : item) : value :=
  VObj (("type", VStr "function_call_output") ::
        match choice !! "call_id" with
        | Some id => [("call_id", id)]
        | None => []
        end).

(** [choice?.usage?.total_tokens]. *)
Definition tokens (choice : item) : option value :=
  match choice !! "usage" with
  | Some (VObj l) => object_props l !! "total_tokens"
  | _ => None
  end.

Definition prompt_head : string :=
  "You are an AI appointment booking assistant for a healthcare facility. Your role is to help users book appointments by collecting necessary information and providing helpful responses.
    
    
    
    ".

Definition prompt_middle : string :=
  "
    
    Current appointment information collected: ".

Definition prompt_tail : string :=
  "
    
    Instructions:
    1. Be friendly and professional
    2. Help collect missing appointment information (name, email, phone, service, date, time)
    3. If all information is collected, offer to confirm the appointment
    4. Provide available services and time slots when asked
    5. Keep responses concise and helpful
    6. Call appropriate function if required
    
    Remember: You're helping with appointment booking and information provider of Clinic, not general medical advice.".

(** The status the [catch] block picks from [error.message]. *)
Definition catch_response (err : JS.error) : response :=
  let m := error_message err in
  if includes m "OpenAI API timeout" then
    {| statusCode := 408; content := ErrorBody "Request timeout - please try again" |}
  else if includes m "rate limit" then
    {| statusCode := 429;
       content := ErrorBody "OpenAI rate limit exceeded - please try again later" |}
  else if includes m "authentication" then
    {| statusCode := 401; content := ErrorBody "OpenAI authentication failed" |}
  else if includes m "quota" then
    {| statusCode := 429; content := ErrorBody "OpenAI quota exceeded" |}
  else if includes m "MongoDB" then
    {| statusCode := 503;
       content := ErrorBody "Database service temporarily unavailable" |}
  else {| statusCode := 500; content := ErrorBody "Internal server error" |}.

Section Stringify.

(** [JSON.stringify] of the extracted fields. *)
Variable stringify : gmap string string -> string.

Definition systemPrompt (contextPrompt message : string) : string :=
  (prompt_head ++ contextPrompt ++ prompt_middle
   ++ stringify (Appointment.extractAppointmentInfo message) ++ prompt_tail)%string.

(** The branch [choice.type === 'function_call']. *)
Definition function_call (e : env) (sessionId : string) (choice : item) : M world unit :=
  (_ <- lift (arguments e) ;;
   _ <- (if is_string "book_appointment" (choice !! "name") then
           if crypto e then
             throw (TypeError
                      "Cannot set properties of undefined (setting 'appointmentId')")
           else throw (ReferenceError "crypto is not defined")
         else ret tt) ;;
   _ <- on_store (InMemoryStore.appendMessage sessionId (VObj (map_to_list choice))) ;;
   _ <- on_store (InMemoryStore.appendMessage sessionId (function_call_output choice)) ;;
   history <- on_store (InMemoryStore.getMessages sessionId None) ;;
   _ <- match history with
        | Some _ => ret tt
        | None => throw (TypeError "Cannot read properties of undefined (reading 'map')")
        end ;;
   wrap <- lift (second e) ;;
   on_store (InMemoryStore.appendMessage sessionId (assistant wrap)))%js.

(** What follows the key check. *)
Definition answered (e : env) (sessionId message : string) : M world response :=
  (contextPrompt <- lift (context e) ;;
   userMessage <- on_store (InMemoryStore.getMessages sessionId
                              (Some (systemPrompt contextPrompt message))) ;;
   _ <- match userMessage with
        | Some _ => ret tt
        | None => throw (TypeError "Cannot read properties of undefined (reading '_id')")
        end ;;
   first <- lift (first e) ;;
   match output first with
   | [] => throw (TypeError "Cannot read properties of undefined (reading 'type')")
   | choice :: _ =>
       _ <- (if is_string "function_call" (choice !! "type") then
               function_call e sessionId choice
             else if truthy_str (output_text first) then
               on_store (InMemoryStore.appendMessage sessionId
                           (assistant (output_text first)))
             else ret tt) ;;
       history <- on_store (InMemoryStore.getMessages sessionId None) ;;
       reply <- lift (reply_of history) ;;
       ret {| statusCode := 200; content := Reply reply sessionId (tokens choice) |}
   end)%js.

(** What follows the parsing of the body. *)
Definition parsed (e : env) (sessionId message : option value) : M world response :=
  let validation := Gateway.validateInput sessionId message in
  if negb (Gateway.valid validation) then
    ret {| statusCode := 400;
           content := ErrorBody (default "" (Gateway.error validation)) |}
  else
    match sessionId, message with
    | Some (VStr sessionId), Some (VStr message) =>
        (limited <- on_cache (Gateway.isRateLimited (now e) sessionId) ;;
         if (limited : bool) then
           ret {| statusCode := 429;
                  content := RateLimited
                    "Rate limit exceeded. Please wait before sending another message."
                    60 |}
         else if negb (apiKey e) then
           ret {| statusCode := 500;
                  content := ErrorBody "OpenAI API key not configured" |}
         else answered e sessionId message)%js
    | _, _ => throw (TypeError "unreachable")
    end.

(** The [try] block, with its inner [try] around
    [JSON.parse(event.body || '{}')]; [null] then fails the
    destructuring, outside of the inner [try]. *)
Definition handler_try (e : env) (ev : Gateway.event) : M world response :=
  (_ <- lift (Gateway.log_session ev) ;;
   if String.eqb (Gateway.httpMethod ev) "OPTIONS" then
     ret {| statusCode := 200; content := Empty |}
   else if negb (String.eqb (Gateway.httpMethod ev) "POST") then
     ret {| statusCode := 405; content := ErrorBody "Method not allowed" |}
   else
     match Gateway.body ev with
     | Gateway.InvalidJSON =>
         ret {| statusCode := 400; content := ErrorBody "Invalid JSON in request body" |}
     | Gateway.JSONNull =>
         throw (TypeError "Cannot destructure property 'sessionId' of 'body' as it is null.")
     | Gateway.NoBody => parsed e None None
     | Gateway.Fields sessionId message => parsed e sessionId message
     end)%js.

(** [module.exports.handler]: the [catch] block evaluates the log
    expression again, as in the guarded handler. *)
Definition handler (e : env) (ev : Gateway.event) : M world response :=
  fun w =>
    match handler_try e ev w with
    | (Ok r, w') => (Ok r, w')
    | (Throw err, w') =>
        match Gateway.log_session ev with
        | Throw err' => (Throw err', w')
        | Ok _ => (Ok (catch_response err), w')
        end
    end.

End Stringify.

End FunctionCalling.

(* ===================================================================== *)
(** ** Concrete inputs used by the examples below *)
(* ===================================================================== *)

Import JS.


(** A session of the slot-filling handler with the ten required fields
    collected, the state that holds it alone, and what the collaborators
    may answer. *)
Definition complete_data : gmap string value :=
  list_to_map
    [ ("patientName", VStr "Jane Doe"); ("dob", VStr "1990-01-01");
      ("email", VStr "jane@example.com"); ("phone", VStr "5551234567");
      ("doctor", VStr "Dr. Smith"); ("service", VStr "checkup");
      ("time", VStr "10:30"); ("status", VStr "pending");
      ("action", VStr "reschedule"); ("chiefComplaint", VStr "cough") ].

Definition complete_session : SlotFilling.session :=
  {| SlotFilling.step := 0; SlotFilling.data := complete_data;
     SlotFilling.lastActive := 1000; SlotFilling.started := false |}.

Definition complete_world : SlotFilling.world :=
  {| SlotFilling.sessions := {[ "abc" := complete_session ]};
     SlotFilling.collection := [];
     SlotFilling.prototype_lastActive := None |}.

Definition empty_world : SlotFilling.world :=
  {| SlotFilling.sessions := ∅; SlotFilling.collection := [];
     SlotFilling.prototype_lastActive := None |}.

Definition env_with (insertOne : option error)
           (completion : SlotFilling.completion_outcome) : SlotFilling.env :=
  {| SlotFilling.now := 2000; SlotFilling.createdAt := 2001;
     SlotFilling.mongo := None; SlotFilling.openai := None;
     SlotFilling.insertOne := insertOne; SlotFilling.completion := completion |}.

Definition calm_env : SlotFilling.env := env_with None SlotFilling.Unparseable.

Definition storage_down_env : SlotFilling.env :=
  env_with (Some (ServiceError "MongoDB write failed")) SlotFilling.Unparseable.

Definition timeout_env : SlotFilling.env :=
  env_with None (SlotFilling.Rejected (ServiceError "Request timed out.")).

Definition jane_message : string := "My name is Jane Doe, email jane@example.com".

(** A completion that extracts the two fields of [jane_message]. *)
Definition jane_completion : value :=
  VObj [ ("data", VObj [ ("patientName", VStr "Jane Doe");
                         ("email", VStr "jane@example.com") ]);
         ("nextPrompt", VStr "What is your phone number?") ].

Definition jane_env : SlotFilling.env :=
  env_with None (SlotFilling.Parsed jane_completion).

(** The seven-field handler: an empty session table and collaborators
    that answer. *)
Definition cursor_world : CursorFlow.world :=
  {| CursorFlow.sessions := ∅; CursorFlow.collection := [] |}.

Definition cursor_env : CursorFlow.env :=
  {| CursorFlow.createdAt := 2001; CursorFlow.init := None;
     CursorFlow.insertOne := None;
     CursorFlow.aiResponse := Ok "Nice to meet you! What is your email address?" |}.

(** What the scenario expects the seven-field variant to have collected. *)
Definition jane_collected : gmap string value :=
  <["name" := VStr "Jane Doe"]> (<["email" := VStr "jane@example.com"]> ∅).


(** A POST request of the guarded handler and its collaborators. *)
Definition post (sessionId message : option value) : Gateway.event :=
  {| Gateway.httpMethod := "POST"; Gateway.body := Gateway.Fields sessionId message |}.

Definition gateway_env : Gateway.env :=
  {| Gateway.now := 2000; Gateway.apiKey := true;
     Gateway.processing := Ok "How can I help you?" |}.

(** A message that holds the six fields and asks to book, and the clock
    of the booking. *)
Definition booking_message : string :=
  "I am Bob Lee, bob@x.io 555-123-4567, please book a checkup on March 3 at 10:30 am".

Definition booking_clock : AppointmentUtils.clock :=
  {| AppointmentUtils.created_ms := 5000; AppointmentUtils.created_iso := "T1";
     AppointmentUtils.updated_iso := "T2"; AppointmentUtils.confirmed_ms := 5001 |}.

(** A state whose only session lacks one required field, [dob]. *)
Definition almost_complete_world : SlotFilling.world :=
  {| SlotFilling.sessions :=
       {[ "abc" := {| SlotFilling.step := 0;
                      SlotFilling.data := delete "dob" complete_data;
                      SlotFilling.lastActive := 1000;
                      SlotFilling.started := false |} ]};
     SlotFilling.collection := [];
     SlotFilling.prototype_lastActive := None |}.

(** A completion that gives the field [almost_complete_world] lacks,
    and a message that brings it and says yes. *)
Definition dob_completion : value :=
  VObj [ ("data", VObj [ ("dob", VStr "1990-01-01") ]);
         ("nextPrompt", VStr "Shall I book it?") ].

Definition dob_env : SlotFilling.env :=
  env_with None (SlotFilling.Parsed dob_completion).

Definition dob_message : string := "yes, I was born on 1990-01-01".


(** The seven-field handler with the cursor at the end, and
    collaborators that fail: the store, or the model. *)
Definition cursor_last_world : CursorFlow.world :=
  {| CursorFlow.sessions :=
       {[ "abc" := {| CursorFlow.step := 7;
                      CursorFlow.data := {[ "name" := VStr "Jane Doe" ]} |} ]};
     CursorFlow.collection := [] |}.

Definition cursor_store_down : CursorFlow.env :=
  {| CursorFlow.createdAt := 2001; CursorFlow.init := None;
     CursorFlow.insertOne := Some (ServiceError "write failed");
     CursorFlow.aiResponse := Ok "Thank you!" |}.

Definition cursor_model_down : CursorFlow.env :=
  {| CursorFlow.createdAt := 2001; CursorFlow.init := None;
     CursorFlow.insertOne := None;
     CursorFlow.aiResponse := Throw (ServiceError "Request timed out.") |}.

(** The handler that offers [book_appointment]: a serialiser, the
    collaborators around a given first response, a response with text
    and one without, and the state of a fresh container. *)
Definition fc_stringify (extracted : gmap string string) : string := "{}".

Definition fc_env (c : FunctionCalling.completion) : FunctionCalling.env :=
  {| FunctionCalling.now := 2000; FunctionCalling.apiKey := true;
     FunctionCalling.context := Ok "";
     FunctionCalling.first := Ok c;
     FunctionCalling.arguments := Ok tt;
     FunctionCalling.crypto := true;
     FunctionCalling.second := Ok (Some "Your appointment is booked.") |}.

Definition fc_text : FunctionCalling.completion :=
  {| FunctionCalling.output := [ {[ "type" := VStr "message" ]} ];
     FunctionCalling.output_text := Some "Hello! How can I help you?" |}.

Definition fc_silent : FunctionCalling.completion :=
  {| FunctionCalling.output := [ {[ "type" := VStr "reasoning" ]} ];
     FunctionCalling.output_text := None |}.

Definition fc_world : FunctionCalling.world :=
  {| FunctionCalling.rateLimitCache := ∅; FunctionCalling.store := ∅ |}.

(** The database during a call of [saveMessage]: up, and down; and a
    cache that holds a full history. *)
Definition history_env : History.env :=
  {| History.now := 3000; History.getCollection := None;
     History.found := Ok []; History.insertOne := None |}.

Definition history_down : History.env :=
  {| History.now := 3000; History.getCollection := None;
     History.found := Throw (ServiceError "MongoDB connection failed");
     History.insertOne := Some (ServiceError "MongoDB write failed") |}.

Definition history_cache : gmap string (list History.message) :=
  {[ "abc" := repeat {| History.sessionId := "abc"; History.role := "user";
                        History.content := "hi"; History.createdAt := 1000 |} 50 ]}.

(* ===================================================================== *)
(** ** Properties *)
(* ===================================================================== *)

(** *** The message store *)

(** C10: for every session key, message and store content,
    [appendMessage] throws a ReferenceError, because the bare identifier
    [getMessages] has no binding in the scope of the file (the function
    lives on [module.exports] only); the store is left as it was, so no
    message is ever appended. *)
Theorem appendMessage_throws_ReferenceError
    (sessionId : string) (msg : value) (store : gmap string (list value)) :
  InMemoryStore.resolve "getMessages" InMemoryStore.scope = None ∧
  InMemoryStore.appendMessage sessionId msg store
  = (Throw (ReferenceError "getMessages is not defined"), store).
Proof. split; reflexivity. Qed.

(** *** The patterns at work *)

Example extract_jane_message :
  Appointment.extractAppointmentInfo jane_message
  = <["name" := "Jane Doe"]> (<["email" := "jane@example.com"]> ∅).
Proof. vm_compute. reflexivity. Qed.

Example extract_full_message :
  map_to_list
    (Appointment.extractAppointmentInfo
       "Call me Bob, 555-123 4567, a Checkup on March 3rd at 10:30 PM")
  = [ ("service", "checkup"); ("name", "Bob"); ("preferredTime", "10:30 PM");
      ("preferredDate", "March 3rd"); ("phone", "5551234567") ].
Proof. vm_compute. reflexivity. Qed.

Example confirmation_patterns :
  Regex.test SlotFilling.yesRegex "Yes, please" = true
  ∧ Regex.test SlotFilling.yesRegex "maybe" = false
  ∧ Regex.test SlotFilling.noRegex "maybe" = false
  ∧ Regex.test SlotFilling.noRegex "I do not KNOW" = true.
Proof. repeat split; vm_compute; reflexivity. Qed.

Example email_shapes :
  Appointment.isValidEmail "jane@example.com" = true
  ∧ Appointment.isValidEmail "bad" = false
  ∧ Appointment.isValidEmail "a b@c.d" = false
  ∧ Appointment.isValidEmail "a@b" = false.
Proof. repeat split; vm_compute; reflexivity. Qed.

(** *** Validation *)

Lemma push_if_app (c : bool) (msg : string) (l : list string) :
  Appointment.push_if c msg l = l ++ (if c then [msg] else []).
Proof. destruct c; simpl; [reflexivity | symmetry; apply app_nil_r]. Qed.



(** *** The idle sweep *)

Section Sweep.
Import SlotFilling.

Lemma sweep_loop_lookup (now : Z) (keys : list (string * session))
      (ss : gmap string session) (k : string) :
  sweep_loop now keys ss !! k
  = match ss !! k with
    | Some s => if bool_decide (k ∈ keys.*1) && expired now s then None else Some s
    | None => None
    end.
Proof.
  revert ss. induction keys as [| [k0 s0] keys IH]; intros ss.
  - simpl. destruct (ss !! k); reflexivity.
  - unfold sweep_loop in *. simpl fold_left. rewrite IH. simpl fst.
    rewrite fmap_cons. simpl fst.
    destruct (decide (k = k0)) as [-> | Hne].
    + rewrite (bool_decide_eq_true_2 (k0 ∈ k0 :: keys.*1)) by (apply list_elem_of_here).
      destruct (ss !! k0) as [s |] eqn:E.
      * destruct (expired now s) eqn:X.
        -- rewrite lookup_delete_eq. reflexivity.
        -- rewrite E, X. rewrite andb_false_r. simpl. reflexivity.
      * rewrite E. reflexivity.
    + assert (Hk : bool_decide (k ∈ k0 :: keys.*1) = bool_decide (k ∈ keys.*1)).
      { apply bool_decide_ext. rewrite elem_of_cons.
        split; [intros [? | ?]; [congruence | assumption] | auto]. }
      rewrite Hk.
      destruct (ss !! k0) as [s |] eqn:E; [destruct (expired now s) eqn:X |];
        rewrite ?lookup_delete_ne by congruence; reflexivity.
Qed.

Lemma sweep_lookup (now : Z) (w : world) (k : string) :
  sessions (sweep now w) !! k
  = match sessions w !! k with
    | Some s => if expired now s then None else Some s
    | None => None
    end.
Proof.
  unfold sweep. simpl. rewrite sweep_loop_lookup.
  destruct (sessions w !! k) as [s |] eqn:E; [| reflexivity].
  rewrite bool_decide_eq_true_2; [reflexivity |].
  apply list_elem_of_fmap. exists (k, s). split; [reflexivity |].
  apply elem_of_map_to_list. exact E.
Qed.

End Sweep.

(** *** The slot-filling handler, step by step *)

Section Turn.
Import SlotFilling.

Lemma string_nonempty (s : string) : s ≠ "" → negb (String.eqb s "") = true.
Proof.
  intros H. destruct (String.eqb_spec s ""); [contradiction | reflexivity].
Qed.

Lemma with_session_twice (sid : string) (s1 s2 : session) (w : world) :
  with_session sid s2 (with_session sid s1 w) = with_session sid s2 w.
Proof. unfold with_session. simpl. rewrite insert_insert_eq. reflexivity. Qed.

Lemma without_with_session (sid : string) (s : session) (w : world) :
  without_session sid (with_session sid s w) = without_session sid w.
Proof. unfold without_session, with_session. simpl. rewrite delete_insert_eq. reflexivity. Qed.

Lemma open_session_existing (e : env) (sid : string) (w : world) (s : session) :
  sessions w !! sid = Some s →
  open_session e sid w
  = (Ok (Session (set_lastActive (now e) s)),
     with_session sid (set_lastActive (now e) s) w).
Proof.
  intros H. unfold open_session, bind, get, sessions_get, read_session, write_session, ret.
  rewrite H. cbn [found]. rewrite H. simpl. rewrite lookup_insert_eq. reflexivity.
Qed.

Lemma open_session_absent (e : env) (sid : string) (w : world) :
  sessions w !! sid = None → inherits sid w = false →
  open_session e sid w = (Ok (Session (fresh e)), with_session sid (fresh e) w).
Proof.
  intros H Hi. unfold open_session, bind, get, sessions_get, read_session, write_session, ret.
  rewrite H. change (found (inherited sid w)) with (inherits sid w). rewrite Hi.
  simpl. rewrite lookup_insert_eq. simpl. rewrite lookup_insert_eq.
  rewrite with_session_twice. reflexivity.
Qed.

(** What the key inherits when it finds something: not a session. *)
Lemma inherited_cases (sid : string) (w : world) :
  inherits sid w = true →
  (sid = "__proto__" ∧ inherited sid w = Prototype)
  ∨ (sid ≠ "__proto__"
     ∧ (inherited sid w = Method ∨ ∃ n, inherited sid w = Stamp n)).
Proof.
  unfold inherits, inherited.
  destruct (String.eqb_spec sid "__proto__") as [-> | Hne]; [left; split; reflexivity |].
  intros H. right. split; [exact Hne |].
  destruct (on_object_prototype sid); [left; reflexivity |].
  destruct (String.eqb sid "lastActive"); [| discriminate].
  destruct (prototype_lastActive w) as [n |]; [| discriminate].
  right. exists n. reflexivity.
Qed.

Lemma open_session_inherited (e : env) (sid : string) (w : world) :
  sessions w !! sid = None → inherits sid w = true →
  ∃ r, open_session e sid w = (Ok r, touched e sid w)
       ∧ ∀ s, r ≠ Session s.
Proof.
  intros H Hi.
  unfold open_session, bind, get, sessions_get, touched. rewrite H.
  change (found (inherited sid w)) with (inherits sid w). rewrite Hi.
  cbn [ret]. rewrite H.
  destruct (inherited_cases sid w Hi) as [(-> & ->) | (Hne & [-> | (n & ->)])].
  - eexists. split; [reflexivity | discriminate].
  - destruct (String.eqb_spec sid "__proto__"); [contradiction |].
    eexists. split; [reflexivity | discriminate].
  - destruct (String.eqb_spec sid "__proto__"); [contradiction |].
    eexists. split; [reflexivity | discriminate].
Qed.

Lemma current_stored (e : env) (sid : string) (w : world) (s : session) :
  sessions w !! sid = Some s → current e sid w = Some (set_lastActive (now e) s).
Proof. intros H. unfold current. rewrite H. reflexivity. Qed.

Lemma current_absent (e : env) (sid : string) (w : world) :
  sessions w !! sid = None → inherits sid w = false → current e sid w = Some (fresh e).
Proof. intros H Hi. unfold current. rewrite H, Hi. reflexivity. Qed.

Lemma open_session_current (e : env) (sid : string) (w : world) (s : session) :
  current e sid w = Some s →
  open_session e sid w = (Ok (Session s), with_session sid s w).
Proof.
  unfold current. destruct (sessions w !! sid) as [s0 |] eqn:E.
  - intros [= <-]. apply open_session_existing. exact E.
  - destruct (inherits sid w) eqn:Hi; [discriminate |].
    intros [= <-]. apply open_session_absent; assumption.
Qed.

(** What a turn does, by what the key finds. *)
Lemma turn_current (e : env) (sid msg : string) (w : world) :
  turn e sid msg w
  = match current e sid w with
    | Some s =>
        (if (List.length (missing (data s)) =? 0)%nat
         then confirmation e sid s msg
         else extraction e sid s msg)
          (with_session sid s w)
    | None =>
        (Throw (TypeError "Cannot read properties of undefined (reading 'patientName')"),
         touched e sid w)
    end.
Proof.
  destruct (current e sid w) as [s |] eqn:Hc.
  - unfold turn, bind. rewrite (open_session_current e sid w s Hc).
    destruct (List.length (missing (data s)) =? 0)%nat; reflexivity.
  - unfold current in Hc. destruct (sessions w !! sid) as [s0 |] eqn:E; [discriminate |].
    destruct (inherits sid w) eqn:Hi; [| discriminate].
    destruct (open_session_inherited e sid w E Hi) as (r & Ho & Hr).
    unfold turn, bind. rewrite Ho.
    destruct r; try reflexivity. destruct (Hr s eq_refl).
Qed.

Lemma handler_try_turn (e : env) (sid msg : string) (w : world) :
  mongo e = None → openai e = None → sid ≠ "" → msg ≠ "" →
  handler_try e (Body (Some sid) (Some msg)) w = turn e sid msg w.
Proof.
  intros Hm Ho Hs Hmsg. unfold handler_try, bind, await. rewrite Hm, Ho. simpl.
  rewrite (string_nonempty sid Hs), (string_nonempty msg Hmsg). reflexivity.
Qed.

Lemma test_nonempty (r : Regex.regex) (msg : string) :
  Regex.test r "" = false → Regex.test r msg = true → msg ≠ "".
Proof. intros H0 H1 ->. congruence. Qed.

Lemma turn_confirmation (e : env) (sid msg : string) (w : world) (s : session) :
  sessions w !! sid = Some s → missing (data s) = [] →
  turn e sid msg w
  = confirmation e sid (set_lastActive (now e) s) msg
      (with_session sid (set_lastActive (now e) s) w).
Proof.
  intros H Hmiss. rewrite turn_current, (current_stored e sid w s H).
  cbn [data set_lastActive]. rewrite Hmiss. reflexivity.
Qed.

Lemma turn_extraction (e : env) (sid msg : string) (w : world) (s : session) :
  sessions w !! sid = Some s → missing (data s) ≠ [] →
  turn e sid msg w
  = extraction e sid (set_lastActive (now e) s) msg
      (with_session sid (set_lastActive (now e) s) w).
Proof.
  intros H Hmiss. rewrite turn_current, (current_stored e sid w s H).
  cbn [data set_lastActive]. destruct (missing (data s)); [contradiction | reflexivity].
Qed.

Lemma yes_empty : Regex.test yesRegex "" = false.
Proof. reflexivity. Qed.

(** The booking turn, as an equation on the handler. *)
Lemma handler_books (e : env) (sid msg : string) (w : world) (s : session) :
  mongo e = None → openai e = None → insertOne e = None →
  sid ≠ "" →
  sessions w !! sid = Some s →
  missing (data s) = [] →
  Regex.test yesRegex msg = true →
  handler e (Body (Some sid) (Some msg)) w
  = ({| statusCode := 200;
        payload := Booked "Your appointment is confirmed! Thank you."
                     (booking_doc e sid (data s)) true |},
     without_session sid (with_document (booking_doc e sid (data s)) w)).
Proof.
  intros Hm Ho Hi Hsid Hs Hmiss Hyes.
  assert (Hmsg : msg ≠ "") by (exact (test_nonempty _ _ yes_empty Hyes)).
  unfold handler. rewrite handler_try_turn by assumption.
  rewrite (turn_confirmation e sid msg w s Hs Hmiss).
  unfold confirmation. rewrite Hyes. unfold bind, insert. rewrite Hi. simpl.
  unfold without_session, with_document, with_session. simpl.
  rewrite delete_insert_eq. reflexivity.
Qed.

Lemma set_data_same (s : session) : set_data (data s) s = s.
Proof. destruct s; reflexivity. Qed.

Lemma spread2_nothing (d : gmap string value) : spread2 d (Some (VObj [])) = d.
Proof. unfold spread2, merge_props. simpl. apply (left_id_L ∅ (∪)). Qed.

Lemma extraction_parsed (e : env) (sid msg : string) (s : session) (w : world) (v : value) :
  completion e = Parsed v → v ≠ VNull →
  extraction e sid s msg w
  = (Ok {| statusCode := 200;
           payload := Prompt (get_prop v "nextPrompt")
                        (List.length requiredFields
                         - List.length (missing (spread2 (data s) (get_prop v "data"))))
                        (List.length requiredFields) |},
     with_session sid (set_data (spread2 (data s) (get_prop v "data")) s) w).
Proof.
  intros Hc Hv. unfold extraction, bind, lift, handleAIConversation. rewrite Hc.
  destruct v; try contradiction; simpl;
    unfold read_session; simpl; rewrite lookup_insert_eq; reflexivity.
Qed.

Lemma extraction_unparseable (e : env) (sid msg : string) (s : session) (w : world) :
  completion e = Unparseable →
  extraction e sid s msg w
  = (Ok {| statusCode := 200;
           payload := Prompt (Some (VStr "Sorry, I didn't understand that. Can you rephrase?"))
                        (List.length requiredFields - List.length (missing (data s)))
                        (List.length requiredFields) |},
     with_session sid s w).
Proof.
  intros Hc. unfold extraction, bind, lift, handleAIConversation. rewrite Hc.
  cbn [fallback destructure get_prop].
  change (object_props [("data", VObj []); ("nextPrompt", VStr "Sorry, I didn't understand that. Can you rephrase?")] !! "data")
    with (Some (VObj [])).
  rewrite spread2_nothing, set_data_same.
  unfold write_session, read_session. simpl. rewrite lookup_insert_eq. reflexivity.
Qed.

Lemma extraction_rejected (e : env) (sid msg : string) (s : session) (w : world)
      (err : error) :
  completion e = Rejected err →
  extraction e sid s msg w = (Throw err, w).
Proof.
  intros Hc. unfold extraction, bind, lift, handleAIConversation. rewrite Hc. reflexivity.
Qed.

Lemma spread2_union (a : gmap string value) (b : option value) :
  spread2 a b = own_props b ∪ a.
Proof. reflexivity. Qed.

(** The session that the extraction branch leaves under the key: the
    fields of the completion over the collected ones. *)
Lemma extraction_stores (e : env) (sid msg : string) (s : session) (w : world) :
  sessions (snd (extraction e sid s msg (with_session sid s w))) !! sid
  = Some (set_data (extracted e ∪ data s) s).
Proof.
  unfold extracted. destruct (completion e) as [err | | v] eqn:Hc.
  - rewrite (extraction_rejected e sid msg s _ err Hc). cbn [snd with_session sessions].
    rewrite lookup_insert_eq, (left_id_L ∅ (∪)), set_data_same. reflexivity.
  - rewrite (extraction_unparseable e sid msg s _ Hc). cbn [snd with_session sessions].
    rewrite lookup_insert_eq, (left_id_L ∅ (∪)), set_data_same. reflexivity.
  - destruct v;
      try (rewrite (extraction_parsed e sid msg s _ _ Hc) by discriminate;
           cbn [snd with_session sessions];
           rewrite lookup_insert_eq, spread2_union; reflexivity).
    unfold extraction, bind, lift, handleAIConversation. rewrite Hc.
    cbn [destructure snd with_session sessions].
    rewrite lookup_insert_eq, (left_id_L ∅ (∪)), set_data_same. reflexivity.
Qed.

Lemma missing_empty : missing ∅ = requiredFields.
Proof. vm_compute. reflexivity. Qed.

(** The first turn for a key that finds nothing: a session is created
    and stored, and it holds what the completion of that turn gave. *)
Lemma first_turn_session (e : env) (sid msg : string) (w : world) :
  mongo e = None → openai e = None → sid ≠ "" → msg ≠ "" →
  sessions w !! sid = None → inherits sid w = false →
  sessions (snd (handler e (Body (Some sid) (Some msg)) w)) !! sid
  = Some {| step := 0; data := extracted e; lastActive := now e; started := false |}.
Proof.
  intros Hm Ho Hsid Hmsg Hs Hi.
  assert (E : snd (handler e (Body (Some sid) (Some msg)) w)
              = snd (extraction e sid (fresh e) msg (with_session sid (fresh e) w))).
  { unfold handler. rewrite handler_try_turn by assumption.
    rewrite turn_current, (current_absent e sid w Hs Hi).
    cbn [data fresh]. rewrite missing_empty. cbn [List.length requiredFields Nat.eqb].
    destruct (extraction e sid (fresh e) msg (with_session sid (fresh e) w))
      as [[r | err] w']; reflexivity. }
  rewrite E, extraction_stores. cbn [data fresh set_data step lastActive started].
  rewrite (right_id_L ∅ (∪)). reflexivity.
Qed.

End Turn.

(** *** Confirmation *)

Section Confirmation.
Import SlotFilling.

(** C1, the claim as stated fails: with every required field collected
    and the message "yes", the persisted record does not include all
    collected field values, since the collected [status] ("pending")
    and [action] ("reschedule") are replaced. *)
Lemma booked_record_drops_collected_status :
  missing (data complete_session) = [] ∧
  Regex.test yesRegex "yes" = true ∧
  ∃ doc,
    collection (snd (handler calm_env (Body (Some "abc") (Some "yes")) complete_world))
    = [doc]
    ∧ ¬ (data complete_session ⊆ doc).
Proof.
  split; [vm_compute; reflexivity |]. split; [vm_compute; reflexivity |].
  eexists. split; [vm_compute; reflexivity |].
  intros Hsub.
  assert (H : data complete_session !! "status" = Some (VStr "pending"))
    by (vm_compute; reflexivity).
  apply (lookup_weaken _ _ _ _ H) in Hsub. vm_compute in Hsub. discriminate.
Qed.

(** C1, amended: for every session whose collected data holds all
    required fields, a turn whose message matches [/yes/i], with the
    insert succeeding, persists and returns (status 200, completed =
    true) a record that carries every collected field value except
    under the keys [status], [action], [createdAt] and [sessionId],
    which hold 'booked', 'appointment', the creation date and the
    session key; the session is deleted, and, when the key finds
    nothing on [Object.prototype], the next turn for the key creates
    and stores a new session, which holds no field of the old one: only
    what the completion of that turn gave. *)
Theorem yes_books_and_ends_session
    (e : env) (sid msg : string) (w : world) (s : session) :
  mongo e = None → openai e = None → insertOne e = None →
  sid ≠ "" →
  sessions w !! sid = Some s →
  missing (data s) = [] →
  Regex.test yesRegex msg = true →
  let doc := booking_doc e sid (data s) in
  let w' := without_session sid (with_document doc w) in
  handler e (Body (Some sid) (Some msg)) w
  = ({| statusCode := 200;
        payload := Booked "Your appointment is confirmed! Thank you." doc true |}, w')
  ∧ collection w' = collection w ++ [doc]
  ∧ doc !! "status" = Some (VStr "booked")
  ∧ doc !! "action" = Some (VStr "appointment")
  ∧ doc !! "createdAt" = Some (VDate (createdAt e))
  ∧ doc !! "sessionId" = Some (VStr sid)
  ∧ (∀ f, f ∉ ["status"; "action"; "createdAt"; "sessionId"] →
          doc !! f = data s !! f)
  ∧ sessions w' !! sid = None
  ∧ (∀ e2 msg2, mongo e2 = None → openai e2 = None → msg2 ≠ "" →
       inherits sid w = false →
       sessions (snd (handler e2 (Body (Some sid) (Some msg2)) w')) !! sid
       = Some {| step := 0; data := extracted e2; lastActive := now e2;
                 started := false |}).
Proof.
  intros Hm Ho Hi Hsid Hs Hmiss Hyes doc w'.
  split; [apply handler_books; assumption |].
  split; [reflexivity |].
  unfold doc, booking_doc.
  split; [by rewrite lookup_insert_ne, lookup_insert_ne, lookup_insert_ne, lookup_insert_eq |].
  split; [by rewrite lookup_insert_ne, lookup_insert_ne, lookup_insert_eq |].
  split; [by rewrite lookup_insert_ne, lookup_insert_eq |].
  split; [by rewrite lookup_insert_eq |].
  split.
  { intros f Hf. rewrite !not_elem_of_cons in Hf.
    destruct Hf as (H1 & H2 & H3 & H4 & _).
    rewrite !lookup_insert_ne by congruence. reflexivity. }
  assert (Hgone : sessions w' !! sid = None) by (simpl; apply lookup_delete_eq).
  split; [exact Hgone |].
  intros e2 msg2 Hm2 Ho2 Hmsg2 Hinh.
  apply first_turn_session; assumption.
Qed.

Lemma yes_books_and_ends_session_witness :
  handler calm_env (Body (Some "abc") (Some "yes")) complete_world
  = ({| statusCode := 200;
        payload := Booked "Your appointment is confirmed! Thank you."
                     (booking_doc calm_env "abc" complete_data) true |},
     without_session "abc"
       (with_document (booking_doc calm_env "abc" complete_data) complete_world)).
Proof.
  refine (proj1 (yes_books_and_ends_session calm_env "abc" "yes" complete_world
                   complete_session _ _ _ _ _ _ _)).
  - reflexivity.
  - reflexivity.
  - reflexivity.
  - discriminate.
  - vm_compute; reflexivity.
  - vm_compute; reflexivity.
  - vm_compute; reflexivity.
Defined.

End Confirmation.

(** *** Storage failure while booking, and the re-prompt *)

Section ConfirmationFailures.
Import SlotFilling.

(** C2: for every session with all required fields collected, when the
    insert of the record fails during the "yes" turn, the caller gets a
    5xx response (500, carrying the error's message), nothing is stored,
    and the session stays with its collected data unchanged (only
    [lastActive] is refreshed); a retry of the same message for the same
    key, the insert now succeeding, books the appointment from that
    data. *)
Theorem insert_failure_keeps_session
    (e : env) (sid msg : string) (w : world) (s : session) (err : error) :
  mongo e = None → openai e = None →
  insertOne e = Some err →
  sid ≠ "" →
  sessions w !! sid = Some s →
  missing (data s) = [] →
  Regex.test yesRegex msg = true →
  let w' := with_session sid (set_lastActive (now e) s) w in
  handler e (Body (Some sid) (Some msg)) w
  = ({| statusCode := 500;
        payload := ErrorBody "Database connection error" (Some (error_message err)) |},
     w')
  ∧ (500 <= statusCode (fst (handler e (Body (Some sid) (Some msg)) w)) < 600)%Z
  ∧ (∃ s', sessions w' !! sid = Some s' ∧ data s' = data s)
  ∧ collection w' = collection w
  ∧ (∀ e2, mongo e2 = None → openai e2 = None → insertOne e2 = None →
       let doc := booking_doc e2 sid (data s) in
       handler e2 (Body (Some sid) (Some msg)) w'
       = ({| statusCode := 200;
             payload := Booked "Your appointment is confirmed! Thank you." doc true |},
          without_session sid (with_document doc w'))).
Proof.
  intros Hm Ho Hi Hsid Hs Hmiss Hyes w'.
  assert (Hmsg : msg ≠ "") by (exact (test_nonempty _ _ yes_empty Hyes)).
  assert (Hs' : sessions w' !! sid = Some (set_lastActive (now e) s))
    by (simpl; apply lookup_insert_eq).
  assert (E : handler e (Body (Some sid) (Some msg)) w
              = ({| statusCode := 500;
                    payload := ErrorBody "Database connection error"
                                 (Some (error_message err)) |}, w')).
  { unfold handler. rewrite handler_try_turn by assumption.
    rewrite (turn_confirmation e sid msg w s Hs Hmiss).
    unfold confirmation. rewrite Hyes. unfold bind, insert. rewrite Hi. reflexivity. }
  split; [exact E |].
  split; [rewrite E; simpl; lia |].
  split; [exists (set_lastActive (now e) s); split; [exact Hs' | reflexivity] |].
  split; [reflexivity |].
  intros e2 Hm2 Ho2 Hi2 doc.
  exact (handler_books e2 sid msg w' (set_lastActive (now e) s)
           Hm2 Ho2 Hi2 Hsid Hs' Hmiss Hyes).
Qed.

Lemma insert_failure_keeps_session_witness :
  handler storage_down_env (Body (Some "abc") (Some "yes")) complete_world
  = ({| statusCode := 500;
        payload := ErrorBody "Database connection error" (Some "MongoDB write failed") |},
     with_session "abc" (set_lastActive 2000 complete_session) complete_world).
Proof.
  refine (proj1 (insert_failure_keeps_session storage_down_env "abc" "yes" complete_world
                   complete_session (ServiceError "MongoDB write failed")
                   _ _ _ _ _ _ _)).
  - reflexivity.
  - reflexivity.
  - reflexivity.
  - discriminate.
  - vm_compute; reflexivity.
  - vm_compute; reflexivity.
  - vm_compute; reflexivity.
Defined.

(** C3, what the code does: for every session with all required fields
    collected and every message matching neither [/yes/i] nor [/no/i],
    the re-prompt reads the undeclared identifier [PROMPTS], so the
    handler answers 500 instead of the confirmation question; the
    collected fields are left as they were. *)
Theorem reprompt_answers_500
    (e : env) (sid msg : string) (w : world) (s : session) :
  mongo e = None → openai e = None →
  sid ≠ "" → msg ≠ "" →
  sessions w !! sid = Some s →
  missing (data s) = [] →
  Regex.test yesRegex msg = false →
  Regex.test noRegex msg = false →
  handler e (Body (Some sid) (Some msg)) w
  = ({| statusCode := 500;
        payload := ErrorBody "Database connection error" (Some "PROMPTS is not defined") |},
     with_session sid (set_lastActive (now e) s) w).
Proof.
  intros Hm Ho Hsid Hmsg Hs Hmiss Hyes Hno.
  unfold handler. rewrite handler_try_turn by assumption.
  rewrite (turn_confirmation e sid msg w s Hs Hmiss).
  unfold confirmation. rewrite Hyes, Hno. reflexivity.
Qed.

Lemma reprompt_answers_500_witness :
  handler calm_env (Body (Some "abc") (Some "maybe")) complete_world
  = ({| statusCode := 500;
        payload := ErrorBody "Database connection error" (Some "PROMPTS is not defined") |},
     with_session "abc" (set_lastActive 2000 complete_session) complete_world).
Proof.
  refine (reprompt_answers_500 calm_env "abc" "maybe" complete_world complete_session
            _ _ _ _ _ _ _ _).
  - reflexivity.
  - reflexivity.
  - discriminate.
  - discriminate.
  - vm_compute; reflexivity.
  - vm_compute; reflexivity.
  - vm_compute; reflexivity.
  - vm_compute; reflexivity.
Defined.

End ConfirmationFailures.

(** *** Extraction and merge *)

Section Extraction.
Import SlotFilling.

Lemma spread2_idempotent (c : gmap string value) (d : option value) :
  spread2 (spread2 c d) d = spread2 c d.
Proof.
  unfold spread2, merge_props. rewrite (assoc (∪)), (idemp (∪)). reflexivity.
Qed.

Lemma handler_extracts (e : env) (sid msg : string) (w : world) (s : session) :
  mongo e = None → openai e = None → sid ≠ "" → msg ≠ "" →
  current e sid w = Some s → missing (data s) ≠ [] →
  handler_try e (Body (Some sid) (Some msg)) w
  = extraction e sid s msg (with_session sid s w).
Proof.
  intros Hm Ho Hsid Hmsg Hc Hmiss. rewrite handler_try_turn by assumption.
  rewrite turn_current, Hc.
  destruct (missing (data s)); [contradiction | reflexivity].
Qed.

(** The turn that runs extraction on a parsed completion. *)
Lemma handler_merges (e : env) (sid msg : string) (w : world) (s : session) (v : value) :
  mongo e = None → openai e = None → sid ≠ "" → msg ≠ "" →
  current e sid w = Some s → missing (data s) ≠ [] →
  completion e = Parsed v → v ≠ VNull →
  handler e (Body (Some sid) (Some msg)) w
  = ({| statusCode := 200;
        payload := Prompt (get_prop v "nextPrompt")
                     (List.length requiredFields
                      - List.length (missing (spread2 (data s) (get_prop v "data"))))
                     (List.length requiredFields) |},
     with_session sid (set_data (spread2 (data s) (get_prop v "data")) s) w).
Proof.
  intros Hm Ho Hsid Hmsg Hcur Hmiss Hc Hv. unfold handler.
  rewrite (handler_extracts e sid msg w s) by assumption.
  rewrite (extraction_parsed e sid msg _ _ v Hc Hv).
  rewrite with_session_twice. reflexivity.
Qed.

(** C4, the claim as stated fails: when the call to the completion API
    itself is rejected (here a timeout), [handleAIConversation] throws
    and the caller gets an error response. *)
Lemma rejected_completion_reaches_caller :
  handleAIConversation timeout_env (fresh timeout_env) "hello"
  = Throw (ServiceError "Request timed out.")
  ∧ fst (handler timeout_env (Body (Some "abc") (Some "hello")) empty_world)
    = {| statusCode := 500;
         payload := ErrorBody "Database connection error" (Some "Request timed out.") |}.
Proof. split; vm_compute; reflexivity. Qed.

(** C4, amended: in a turn that runs extraction (the key has a stored
    session, or finds nothing and gets a new one, and fields are
    missing), when the content of the completion cannot be read or
    parsed, [handleAIConversation] returns
    [{data: {}, nextPrompt: clarification}] without throwing, and the
    handler replies 200 with the clarification, the collected fields
    unchanged; when the completion call itself is rejected, the error
    leaves [handleAIConversation] and the handler replies 500 with the
    error's message, the collected fields unchanged. *)
Theorem unparseable_completion_falls_back
    (e : env) (sid msg : string) (w : world) (s : session) :
  mongo e = None → openai e = None → sid ≠ "" → msg ≠ "" →
  current e sid w = Some s →
  missing (data s) ≠ [] →
  (completion e = Unparseable →
     handleAIConversation e s msg = Ok fallback
     ∧ destructure fallback
       = Ok (Some (VObj []),
             Some (VStr "Sorry, I didn't understand that. Can you rephrase?"))
     ∧ handler e (Body (Some sid) (Some msg)) w
       = ({| statusCode := 200;
             payload := Prompt (Some (VStr "Sorry, I didn't understand that. Can you rephrase?"))
                          (List.length requiredFields - List.length (missing (data s)))
                          (List.length requiredFields) |},
          with_session sid s w))
  ∧ (∀ err, completion e = Rejected err →
       handleAIConversation e s msg = Throw err
       ∧ handler e (Body (Some sid) (Some msg)) w
         = ({| statusCode := 500;
               payload := ErrorBody "Database connection error" (Some (error_message err)) |},
            with_session sid s w)).
Proof.
  intros Hm Ho Hsid Hmsg Hcur Hmiss. split.
  - intros Hc. split; [unfold handleAIConversation; rewrite Hc; reflexivity |].
    split; [reflexivity |].
    unfold handler. rewrite (handler_extracts e sid msg w s) by assumption.
    rewrite (extraction_unparseable e sid msg _ _ Hc).
    rewrite with_session_twice. reflexivity.
  - intros err Hc. split; [unfold handleAIConversation; rewrite Hc; reflexivity |].
    unfold handler. rewrite (handler_extracts e sid msg w s) by assumption.
    rewrite (extraction_rejected e sid msg _ _ err Hc). reflexivity.
Qed.

Lemma unparseable_completion_falls_back_witness :
  handler calm_env (Body (Some "abc") (Some "hello")) empty_world
  = ({| statusCode := 200;
        payload := Prompt (Some (VStr "Sorry, I didn't understand that. Can you rephrase?"))
                     0 10 |},
     with_session "abc" (fresh calm_env) empty_world)
  ∧ handler timeout_env (Body (Some "abc") (Some "hello")) empty_world
    = ({| statusCode := 500;
          payload := ErrorBody "Database connection error" (Some "Request timed out.") |},
       with_session "abc" (fresh timeout_env) empty_world).
Proof.
  split.
  - refine (proj2 (proj2 (proj1 (unparseable_completion_falls_back calm_env "abc" "hello"
                                   empty_world (fresh calm_env) _ _ _ _ _ _) _))).
    + reflexivity.
    + reflexivity.
    + discriminate.
    + discriminate.
    + reflexivity.
    + vm_compute; discriminate.
    + reflexivity.
  - refine (proj2 (proj2 (unparseable_completion_falls_back timeout_env "abc" "hello"
                            empty_world (fresh timeout_env) _ _ _ _ _ _)
                     (ServiceError "Request timed out.") _)).
    + reflexivity.
    + reflexivity.
    + discriminate.
    + discriminate.
    + reflexivity.
    + vm_compute; discriminate.
    + reflexivity.
Defined.

End Extraction.

(** *** The seven-field handler, one invocation *)

Section CursorSteps.
Import CursorFlow Conversation.

Lemma cursor_stored_not_inherited (sid : string) (cw : world) (s : session) :
  sessions cw !! sid = Some s → inherits sid cw = false.
Proof. intros H. unfold inherits. rewrite H. reflexivity. Qed.

Lemma cursor_absent_not_inherited (sid : string) (cw : world) :
  sessions cw !! sid = None → on_object_prototype sid = false → inherits sid cw = false.
Proof. intros H Hp. unfold inherits. rewrite H. exact Hp. Qed.

(** What one invocation does, by the cursor of the session and the
    answers of the collaborators, when the key finds a session or
    nothing. *)
Lemma cursor_handler_step (ce : env) (sid msg : string) (cw : world) :
  init ce = None → sid ≠ "" → msg ≠ "" → inherits sid cw = false →
  handler ce (Body (Some sid) (Some msg)) cw
  = let s := cursor_current sid msg cw in
    if (7 <=? step s)%nat then
      match insertOne ce with
      | Some err => (cursor_error err, cursor_with sid s cw)
      | None =>
          let w' := {| sessions := delete sid (sessions cw);
                       collection := collection cw ++ [cursor_doc ce sid s] |} in
          match aiResponse ce with
          | JS.Ok reply =>
              ({| statusCode := 200;
                  payload := Completed reply (cursor_doc ce sid s) true |}, w')
          | JS.Throw err => (cursor_error err, w')
          end
      end
    else
      match aiResponse ce with
      | JS.Ok reply =>
          ({| statusCode := 200; payload := Next reply (S (step s)) 7 |},
           cursor_with sid {| step := S (step s); data := data s |} cw)
      | JS.Throw err => (cursor_error err, cursor_with sid s cw)
      end.
Proof.
  intros Hi Hsid Hmsg Hinh.
  unfold handler, handler_try, JS.bind, JS.await. rewrite Hi.
  cbn -[save_previous Nat.leb].
  rewrite (string_nonempty sid Hsid), (string_nonempty msg Hmsg).
  cbn -[save_previous Nat.leb].
  unfold turn, JS.bind, JS.get. rewrite Hinh.
  unfold read_session, write_session, cursor_current.
  destruct (sessions cw !! sid) as [s |] eqn:Es; cbn [JS.ret default].
  - rewrite Es. cbn -[save_previous Nat.leb]. rewrite lookup_insert_eq.
    cbn -[save_previous Nat.leb].
    destruct (7 <=? step (save_previous msg s))%nat.
    + unfold insert. destruct (insertOne ce); [reflexivity |].
      destruct (aiResponse ce); cbn -[save_previous]; rewrite delete_insert_eq;
        reflexivity.
    + destruct (aiResponse ce); [| reflexivity].
      cbn -[save_previous]. rewrite lookup_insert_eq. cbn -[save_previous].
      unfold cursor_with. rewrite insert_insert_eq. reflexivity.
  - cbn -[save_previous Nat.leb]. rewrite lookup_insert_eq.
    cbn -[save_previous Nat.leb]. rewrite lookup_insert_eq.
    cbn -[save_previous Nat.leb].
    destruct (7 <=? step (save_previous msg {| step := 0; data := ∅ |}))%nat.
    + unfold insert. destruct (insertOne ce).
      { cbn -[save_previous]. unfold cursor_with. rewrite insert_insert_eq.
        reflexivity. }
      destruct (aiResponse ce); cbn -[save_previous]; rewrite !delete_insert_eq;
        rewrite (delete_id _ _ Es); reflexivity.
    + destruct (aiResponse ce).
      * cbn -[save_previous]. rewrite lookup_insert_eq. cbn -[save_previous].
        unfold cursor_with. rewrite !insert_insert_eq. reflexivity.
      * cbn -[save_previous]. unfold cursor_with. rewrite insert_insert_eq.
        reflexivity.
Qed.

Lemma cursor_current_stored (sid msg : string) (cw : world) (s : session) :
  sessions cw !! sid = Some s → cursor_current sid msg cw = save_previous msg s.
Proof. intros H. unfold cursor_current. rewrite H. reflexivity. Qed.

Lemma save_previous_step (msg : string) (s : session) :
  step (save_previous msg s) = step s.
Proof.
  unfold save_previous.
  destruct ((0 <? step s)%nat && (step s <=? List.length appointmentFields)%nat);
    [| reflexivity].
  destruct (appointmentFields !! (step s - 1)%nat); reflexivity.
Qed.

(** The message saved under the field asked on the previous turn. *)
Lemma save_previous_field (msg field : string) (s : session) :
  (0 < step s <= 7)%nat → appointmentFields !! (step s - 1)%nat = Some field →
  save_previous msg s = {| step := step s; data := <[field := JS.VStr msg]> (data s) |}.
Proof.
  intros [Hpos Hle] Hf. unfold save_previous.
  destruct (Nat.ltb_spec 0 (step s)); [| lia].
  destruct (Nat.leb_spec (step s) (List.length appointmentFields));
    [| cbn in *; lia].
  cbn [andb]. rewrite Hf. reflexivity.
Qed.

(** A turn before the last field: the cursor moves by one. *)
Lemma cursor_advance (ce : env) (sid msg reply : string) (cw : world) (s : session) :
  init ce = None → aiResponse ce = JS.Ok reply → sid ≠ "" → msg ≠ "" →
  sessions cw !! sid = Some s → (step s < 7)%nat →
  handler ce (Body (Some sid) (Some msg)) cw
  = ({| statusCode := 200; payload := Next reply (S (step s)) 7 |},
     cursor_with sid {| step := S (step s); data := data (save_previous msg s) |} cw).
Proof.
  intros Hi Ha Hsid Hmsg Hs Hlt.
  rewrite cursor_handler_step
    by (try assumption; exact (cursor_stored_not_inherited sid cw s Hs)).
  cbv zeta. rewrite (cursor_current_stored sid msg cw s Hs), save_previous_step.
  destruct (Nat.leb_spec 7 (step s)); [lia |]. rewrite Ha. reflexivity.
Qed.

(** The first turn for a key that finds nothing: the message is not
    stored, the cursor moves to 1. *)
Lemma cursor_first_turn (ce : env) (sid msg reply : string) (cw : world) :
  init ce = None → aiResponse ce = JS.Ok reply →
  sid ≠ "" → msg ≠ "" →
  sessions cw !! sid = None → on_object_prototype sid = false →
  handler ce (Body (Some sid) (Some msg)) cw
  = ({| statusCode := 200; payload := Next reply 1 7 |},
     {| sessions := <[sid := {| step := 1; data := ∅ |}]> (sessions cw);
        collection := collection cw |}).
Proof.
  intros Hi Ha Hsid Hmsg Hs Hp.
  rewrite cursor_handler_step
    by (try assumption; exact (cursor_absent_not_inherited sid cw Hs Hp)).
  cbv zeta. unfold cursor_current. rewrite Hs. cbn [default].
  change (save_previous msg {| step := 0; data := ∅ |}) with {| step := 0; data := ∅ |}.
  cbn [step Nat.leb data]. rewrite Ha. reflexivity.
Qed.

(** A turn for a key that finds a property of [Object.prototype]: no
    session is created, nothing is stored, and the reply has no step
    number. *)
Lemma cursor_inherited_turn (ce : env) (sid msg : string) (cw : world) :
  init ce = None → sid ≠ "" → msg ≠ "" → inherits sid cw = true →
  handler ce (Body (Some sid) (Some msg)) cw
  = match aiResponse ce with
    | JS.Ok reply => ({| statusCode := 200; payload := Unnumbered reply 7 |}, cw)
    | JS.Throw err => (cursor_error err, cw)
    end.
Proof.
  intros Hi Hsid Hmsg Hinh.
  unfold handler, handler_try, JS.bind, JS.await. rewrite Hi.
  cbn -[Nat.leb].
  rewrite (string_nonempty sid Hsid), (string_nonempty msg Hmsg).
  cbn -[Nat.leb].
  unfold turn, JS.bind, JS.get. rewrite Hinh.
  unfold inherited_turn, JS.bind, JS.lift.
  destruct (aiResponse ce); reflexivity.
Qed.

End CursorSteps.

(** *** The step annotation *)

Section Steps.
Import SlotFilling.

(** C6, the claim as stated fails: in the seven-field variant the first
    turn "My name is Jane Doe, email jane@example.com" is answered with
    step 1 of 7, not step 2, and nothing has been collected. *)
Lemma seven_field_first_turn_is_step_1 :
  ∃ reply s,
    CursorFlow.handler cursor_env (CursorFlow.Body (Some "abc") (Some jane_message))
      cursor_world
    = ({| CursorFlow.statusCode := 200;
          CursorFlow.payload := CursorFlow.Next reply 1 7 |},
       {| CursorFlow.sessions := {[ "abc" := s ]}; CursorFlow.collection := [] |})
    ∧ 1 ≠ 2
    ∧ CursorFlow.data s = ∅
    ∧ CursorFlow.data s ≠ jane_collected.
Proof.
  eexists. eexists. split; [vm_compute; reflexivity |].
  split; [discriminate |]. split; [reflexivity |].
  simpl. intros H.
  assert (E : (∅ : gmap string value) !! "name" = jane_collected !! "name")
    by (rewrite <- H; reflexivity).
  vm_compute in E. discriminate.
Qed.

(** C6, amended: when a turn of the ten-field handler runs extraction
    (the key has a stored session, or finds nothing and gets a new one,
    and fields are missing) and the completion parses to a value other
    than [null], the reply carries step = 10 - |missing after the
    merge| and totalSteps = 10, and the session holds the merged
    fields; a completion that parses to [null] gets a 500.  In the
    seven-field variant, for a key that [Object.prototype] does not
    define, the first turn is answered with step 1 of 7 and collects
    nothing, whatever the message says, and a later turn before the
    last stores the message whole under the field asked on the previous
    turn and is answered with the next step. *)
Theorem reply_carries_step_of_total
    (e : env) (sid msg : string) (w : world) (s : session) (v : value) :
  mongo e = None → openai e = None → sid ≠ "" → msg ≠ "" →
  current e sid w = Some s → missing (data s) ≠ [] →
  completion e = Parsed v →
  let collected := spread2 (data s) (get_prop v "data") in
  (v ≠ VNull →
     handler e (Body (Some sid) (Some msg)) w
     = ({| statusCode := 200;
           payload := Prompt (get_prop v "nextPrompt")
                        (List.length requiredFields - List.length (missing collected))
                        (List.length requiredFields) |},
        with_session sid (set_data collected s) w))
  ∧ (v = VNull →
       ∃ m, handler e (Body (Some sid) (Some msg)) w
            = ({| statusCode := 500;
                  payload := ErrorBody "Database connection error" (Some m) |},
               with_session sid s w))
  ∧ List.length requiredFields = 10%nat
  ∧ (∀ ce reply cw,
       CursorFlow.init ce = None → CursorFlow.aiResponse ce = Ok reply →
       on_object_prototype sid = false →
       (CursorFlow.sessions cw !! sid = None →
          CursorFlow.handler ce (CursorFlow.Body (Some sid) (Some msg)) cw
          = ({| CursorFlow.statusCode := 200;
                CursorFlow.payload := CursorFlow.Next reply 1 7 |},
             {| CursorFlow.sessions :=
                  <[sid := {| CursorFlow.step := 1; CursorFlow.data := ∅ |}]>
                    (CursorFlow.sessions cw);
                CursorFlow.collection := CursorFlow.collection cw |}))
       ∧ (∀ cs field,
            CursorFlow.sessions cw !! sid = Some cs →
            (0 < CursorFlow.step cs < 7)%nat →
            CursorFlow.appointmentFields !! (CursorFlow.step cs - 1)%nat = Some field →
            CursorFlow.handler ce (CursorFlow.Body (Some sid) (Some msg)) cw
            = ({| CursorFlow.statusCode := 200;
                  CursorFlow.payload := CursorFlow.Next reply (S (CursorFlow.step cs)) 7 |},
               {| CursorFlow.sessions :=
                    <[sid := {| CursorFlow.step := S (CursorFlow.step cs);
                                CursorFlow.data :=
                                  <[field := VStr msg]> (CursorFlow.data cs) |}]>
                      (CursorFlow.sessions cw);
                  CursorFlow.collection := CursorFlow.collection cw |}))).
Proof.
  intros Hm Ho Hsid Hmsg Hcur Hmiss Hc collected.
  split; [intros Hv; apply handler_merges; assumption |].
  split.
  { intros ->. eexists. unfold handler.
    rewrite (handler_extracts e sid msg w s) by assumption.
    unfold extraction, bind, lift, handleAIConversation. rewrite Hc. reflexivity. }
  split; [reflexivity |].
  intros ce reply cw Hi Ha Hp. split.
  - intros Hs. apply cursor_first_turn; assumption.
  - intros cs field Hs Hstep Hf.
    rewrite (cursor_advance ce sid msg reply cw cs) by (try assumption; lia).
    rewrite (save_previous_field msg field cs) by (try assumption; lia).
    reflexivity.
Qed.

Lemma reply_carries_step_of_total_witness :
  ∃ w',
    handler jane_env (Body (Some "abc") (Some jane_message)) empty_world
    = ({| statusCode := 200;
          payload := Prompt (Some (VStr "What is your phone number?")) 2 10 |}, w')
    ∧ (data <$> sessions w' !! "abc")
      = Some (<["patientName" := VStr "Jane Doe"]>
                (<["email" := VStr "jane@example.com"]> ∅)).
Proof.
  eexists. split.
  - etransitivity.
    + refine (proj1 (reply_carries_step_of_total jane_env "abc" jane_message empty_world
                       (fresh jane_env) jane_completion _ _ _ _ _ _ _) _).
      * reflexivity.
      * reflexivity.
      * discriminate.
      * discriminate.
      * reflexivity.
      * vm_compute; discriminate.
      * reflexivity.
      * discriminate.
    + vm_compute. reflexivity.
  - vm_compute. reflexivity.
Defined.

(** C9, the claim as stated fails: when the first turn completes the
    fields, the same message sent again is not merged: it is read as
    the answer to the confirmation, and here it books the appointment
    and deletes the session with its collected mapping. *)
Lemma resubmitted_yes_books :
  let ev := Body (Some "abc") (Some dob_message) in
  let w1 := snd (handler dob_env ev almost_complete_world) in
  let w2 := snd (handler dob_env ev w1) in
  (data <$> sessions w1 !! "abc") = Some complete_data
  ∧ sessions w2 !! "abc" = None
  ∧ collection w2 = [booking_doc dob_env "abc" complete_data].
Proof.
  cbv zeta. split; [| split].
  - vm_compute. reflexivity.
  - vm_compute. reflexivity.
  - vm_compute. reflexivity.
Qed.

(** C9, amended: the merge of extracted fields is idempotent.  Merging
    the same extracted value twice gives what merging it once gives,
    for every collected mapping; so it is for the rule-based extractor,
    whose output depends on the message alone.  In the handler, in a
    turn that runs extraction and whose completion parses to a value
    other than [null], the session holds the merged fields; when the
    same message is sent again and the completion answers the same,
    the second turn leaves the collected mapping as the first one made
    it if fields are still missing, and otherwise does not merge: a
    message that matches [/yes/i] then books the merged fields and
    deletes the session. *)
Theorem resubmitted_message_merges_once
    (e : env) (sid msg : string) (w : world) (s : session) (v : value) :
  mongo e = None → openai e = None → sid ≠ "" → msg ≠ "" →
  current e sid w = Some s → missing (data s) ≠ [] →
  completion e = Parsed v → v ≠ VNull →
  let ev := Body (Some sid) (Some msg) in
  let w1 := snd (handler e ev w) in
  let w2 := snd (handler e ev w1) in
  let merged := spread2 (data s) (get_prop v "data") in
  sessions w1 !! sid = Some (set_data merged s)
  ∧ (missing merged ≠ [] →
       sessions w2 !! sid = Some (set_data merged (set_lastActive (now e) s)))
  ∧ (missing merged = [] → Regex.test yesRegex msg = true → insertOne e = None →
       sessions w2 !! sid = None
       ∧ collection w2 = collection w ++ [booking_doc e sid merged])
  ∧ (∀ (c : gmap string value) (d : option value),
       spread2 (spread2 c d) d = spread2 c d)
  ∧ (∀ (c : gmap string string) (m : string),
       merge_props (merge_props c (Appointment.extractAppointmentInfo m))
         (Appointment.extractAppointmentInfo m)
       = merge_props c (Appointment.extractAppointmentInfo m)).
Proof.
  intros Hm Ho Hsid Hmsg Hcur Hmiss Hc Hv ev w1 w2 merged.
  set (s1 := set_data merged s).
  assert (E1 : w1 = with_session sid s1 w).
  { unfold w1, ev. rewrite (handler_merges e sid msg w s v) by assumption. reflexivity. }
  assert (Hs1 : sessions w1 !! sid = Some s1).
  { rewrite E1. cbn [with_session sessions]. apply lookup_insert_eq. }
  split; [exact Hs1 |]. split; [| split; [| split]].
  - intros Hmiss1.
    assert (E2 : w2 = with_session sid
                        (set_data (spread2 merged (get_prop v "data"))
                           (set_lastActive (now e) s1)) w1).
    { unfold w2, ev.
      rewrite (handler_merges e sid msg w1 (set_lastActive (now e) s1) v);
        try assumption; [reflexivity | apply current_stored; exact Hs1].  }
    rewrite E2. cbn [with_session sessions]. rewrite lookup_insert_eq.
    unfold merged at 1. rewrite spread2_idempotent. reflexivity.
  - intros Hfull Hyes Hi.
    unfold w2, ev. rewrite (handler_books e sid msg w1 s1) by assumption.
    cbn [snd without_session with_document sessions collection].
    split; [apply lookup_delete_eq |]. rewrite E1. reflexivity.
  - apply spread2_idempotent.
  - intros c m. unfold merge_props. rewrite (assoc (∪)), (idemp (∪)). reflexivity.
Qed.

Lemma resubmitted_message_merges_once_witness :
  sessions
    (snd (handler jane_env (Body (Some "abc") (Some jane_message))
            (snd (handler jane_env (Body (Some "abc") (Some jane_message))
                    empty_world)))) !! "abc"
  = Some (set_data (spread2 ∅ (get_prop jane_completion "data"))
            (set_lastActive (now jane_env) (fresh jane_env))).
Proof.
  refine (proj1 (proj2 (resubmitted_message_merges_once jane_env "abc" jane_message
                          empty_world (fresh jane_env) jane_completion
                          _ _ _ _ _ _ _ _)) _).
  - reflexivity.
  - reflexivity.
  - discriminate.
  - discriminate.
  - reflexivity.
  - vm_compute; discriminate.
  - reflexivity.
  - discriminate.
  - vm_compute; discriminate.
Defined.

End Steps.

(** *** The idle sweep and the timer *)

Section IdleSweep.
Import SlotFilling.




End IdleSweep.

(** *** Input validation *)

Section TurnStatus.
Import SlotFilling.


End TurnStatus.

Section Validation.
Import Gateway.

Lemma not_nonempty_string_false (x : option value) :
  not_nonempty_string x = false ↔ ∃ s, x = Some (VStr s) ∧ s ≠ "".
Proof.
  split.
  - destruct x as [[| b | n | s | l | l | ms] |]; unfold not_nonempty_string;
      rewrite ?orb_true_r; try discriminate.
    intros H. exists s. split; [reflexivity |].
    intros ->. discriminate.
  - intros (s & -> & Hs). unfold not_nonempty_string, truthy_opt, truthy.
    rewrite (string_nonempty s Hs). reflexivity.
Qed.

(** When [validateInput] accepts and when it rejects, with which
    message. *)
Lemma validateInput_spec (sessionId message : option value) :
  validateInput sessionId message
  = if not_nonempty_string sessionId
    then {| valid := false; error := Some "sessionId must be a non-empty string" |}
    else if not_nonempty_string message
    then {| valid := false; error := Some "message must be a non-empty string" |}
    else if (100 <? str_length sessionId)%nat
    then {| valid := false; error := Some "sessionId too long (max 100 characters)" |}
    else if (4000 <? str_length message)%nat
    then {| valid := false; error := Some "message too long (max 4000 characters)" |}
    else {| valid := true; error := None |}.
Proof. reflexivity. Qed.

Lemma validateInput_valid (sessionId message : option value) :
  valid (validateInput sessionId message) = true
  ↔ ∃ sid msg, sessionId = Some (VStr sid) ∧ message = Some (VStr msg)
               ∧ sid ≠ "" ∧ msg ≠ ""
               ∧ (String.length sid <= 100)%nat ∧ (String.length msg <= 4000)%nat.
Proof.
  unfold validateInput. split.
  - destruct (not_nonempty_string sessionId) eqn:E1; [discriminate |].
    destruct (not_nonempty_string message) eqn:E2; [discriminate |].
    apply not_nonempty_string_false in E1 as (sid & -> & Hsid).
    apply not_nonempty_string_false in E2 as (msg & -> & Hmsg).
    simpl.
    destruct (Nat.ltb_spec 100 (String.length sid)); [discriminate |].
    destruct (Nat.ltb_spec 4000 (String.length msg)); [discriminate |].
    intros _. exists sid, msg. repeat split; assumption.
  - intros (sid & msg & -> & -> & Hsid & Hmsg & Hl1 & Hl2).
    rewrite (proj2 (not_nonempty_string_false (Some (VStr sid))))
      by (exists sid; split; [reflexivity | assumption]).
    rewrite (proj2 (not_nonempty_string_false (Some (VStr msg))))
      by (exists msg; split; [reflexivity | assumption]).
    simpl.
    destruct (Nat.ltb_spec 100 (String.length sid)); [lia |].
    destruct (Nat.ltb_spec 4000 (String.length msg)); [lia |]. reflexivity.
Qed.

(** The guarded handler on a POST request whose body parses to an
    object: the outcome of validation decides. *)
Lemma handler_post (e : env) (sessionId message : option value)
      (cache : gmap string (list Z)) :
  handler e {| httpMethod := "POST"; body := Fields sessionId message |} cache
  = if negb (valid (validateInput sessionId message)) then
      (Ok {| statusCode := 400;
             content := ErrorBody (default "" (error (validateInput sessionId message))) |},
       cache)
    else
      match sessionId with
      | Some (VStr sid) =>
          match validated e sid cache with
          | (Ok r, cache') => (Ok r, cache')
          | (Throw err, cache') => (Ok (catch_response err), cache')
          end
      | _ => (Ok (catch_response (TypeError "unreachable")), cache)
      end.
Proof.
  unfold handler, handler_try, bind, lift. simpl.
  destruct (negb (valid (validateInput sessionId message))); [reflexivity |].
  destruct sessionId as [[| b | n | sid | l | l | ms] |]; try reflexivity.
Qed.




End Validation.

(* ===================================================================== *)
(** ** Further properties *)
(* ===================================================================== *)

(** *** The matcher against derivations *)

Section MatcherTheory.
Import Regex RegexSpec.

Lemma rmatch_star {A : Type} (r : regex) (i : nat) (s : string) (c : captures)
      (k : nat -> string -> captures -> option A) :
  rmatch (Star r) i s c k = star_loop r k (String.length s) i s c.
Proof. reflexivity. Qed.

Lemma str_app_cons (a : ascii) (s t : string) :
  (String a s ++ t)%string = String a (s ++ t)%string.
Proof. reflexivity. Qed.

Lemma str_app_assoc (s t u : string) :
  ((s ++ t) ++ u)%string = (s ++ t ++ u)%string.
Proof.
  induction s as [| a s IH]; [reflexivity |].
  rewrite !str_app_cons, IH. reflexivity.
Qed.

Lemma str_app_nil_r (s : string) : (s ++ "")%string = s.
Proof.
  induction s as [| a s IH]; [reflexivity |]. rewrite str_app_cons, IH. reflexivity.
Qed.

Lemma str_length_app (s t : string) :
  String.length (s ++ t)%string = (String.length s + String.length t)%nat.
Proof.
  induction s as [| a s IH]; [reflexivity |].
  rewrite str_app_cons. simpl. rewrite IH. reflexivity.
Qed.

(** What a derivation consumes is a prefix of the input. *)
Lemma derives_consumes (r : regex) i s c j t c' :
  derives r i s c j t c' →
  ∃ u, s = (u ++ t)%string ∧ j = (i + String.length u)%nat.
Proof.
  induction 1.
  - exists EmptyString. split; [reflexivity | simpl; lia].
  - exists (String a EmptyString). split; [reflexivity | simpl; lia].
  - exists (String b EmptyString). split; [reflexivity | simpl; lia].
  - exists (String b EmptyString). split; [reflexivity | simpl; lia].
  - destruct IHderives1 as (u1 & -> & ->), IHderives2 as (u2 & -> & ->).
    exists (u1 ++ u2)%string. split.
    + symmetry. apply str_app_assoc.
    + rewrite str_length_app. lia.
  - assumption.
  - assumption.
  - exists EmptyString. split; [reflexivity | simpl; lia].
  - destruct IHderives1 as (u1 & -> & ->), IHderives2 as (u2 & -> & ->).
    exists (u1 ++ u2)%string. split.
    + symmetry. apply str_app_assoc.
    + rewrite str_length_app. lia.
  - assumption.
  - exists EmptyString. split; [reflexivity | simpl; lia].
  - exists EmptyString. split; [reflexivity | simpl; lia].
Qed.

Lemma star_loop_sound {A : Type} (r : regex)
      (IH : ∀ i s c (k : nat → string → captures → option A) x,
          rmatch r i s c k = Some x →
          ∃ j t c', derives r i s c j t c' ∧ k j t c' = Some x)
      (k : nat → string → captures → option A) (fuel : nat) :
  ∀ i s c x,
    star_loop r k fuel i s c = Some x →
    ∃ j t c', derives (Star r) i s c j t c' ∧ k j t c' = Some x.
Proof.
  induction fuel as [| fuel IHf]; intros i s c x H; simpl in H.
  - exists i, s, c. split; [constructor | exact H].
  - destruct (rmatch r i s c _) as [y |] eqn:E.
    + injection H as ->. apply IH in E as (j & t & c1 & Hd & Hk).
      destruct (Nat.ltb_spec i j) as [Hlt |]; [| discriminate].
      apply IHf in Hk as (j2 & t2 & c2 & Hd2 & Hk2).
      exists j2, t2, c2. split; [| exact Hk2].
      eapply d_star_more; eassumption.
    + exists i, s, c. split; [constructor | exact H].
Qed.

(** Soundness: a successful match follows a derivation of the pattern,
    and the continuation succeeded where the derivation ends. *)
Theorem rmatch_sound {A : Type} (r : regex) :
  ∀ i s c (k : nat → string → captures → option A) x,
    rmatch r i s c k = Some x →
    ∃ j t c', derives r i s c j t c' ∧ k j t c' = Some x.
Proof.
  induction r as [| a | a | p | r1 IH1 r2 IH2 | r1 IH1 r2 IH2 | r IH | n r IH | |];
    intros i s c k x H.
  - exists i, s, c. split; [constructor | exact H].
  - simpl in H. destruct s as [| b s]; [discriminate |].
    destruct (Ascii.eqb_spec a b) as [-> |]; [| discriminate].
    exists (S i), s, c. split; [constructor | exact H].
  - simpl in H. destruct s as [| b s]; [discriminate |].
    destruct (Ascii.eqb_spec (JS.ascii_upper a) (JS.ascii_upper b)) as [E |]; [| discriminate].
    exists (S i), s, c. split; [constructor; exact E | exact H].
  - simpl in H. destruct s as [| b s]; [discriminate |].
    destruct (p b) eqn:E; [| discriminate].
    exists (S i), s, c. split; [constructor; exact E | exact H].
  - simpl in H. apply IH1 in H as (j & t & c1 & Hd1 & H).
    apply IH2 in H as (j2 & t2 & c2 & Hd2 & H).
    exists j2, t2, c2. split; [econstructor; eassumption | exact H].
  - simpl in H. destruct (rmatch r1 i s c k) as [y |] eqn:E.
    + injection H as ->. apply IH1 in E as (j & t & c1 & Hd & Hk).
      exists j, t, c1. split; [apply d_alt_l; exact Hd | exact Hk].
    + apply IH2 in H as (j & t & c1 & Hd & Hk).
      exists j, t, c1. split; [apply d_alt_r; exact Hd | exact Hk].
  - rewrite rmatch_star in H. eapply star_loop_sound; eassumption.
  - simpl in H. apply IH in H as (j & t & c1 & Hd & Hk).
    exists j, t, ((n, substring 0 (j - i) s) :: c1).
    split; [constructor; exact Hd | exact Hk].
  - simpl in H. destruct (Nat.eqb_spec i 0) as [-> |]; [| discriminate].
    exists 0%nat, s, c. split; [constructor | exact H].
  - simpl in H. destruct s; [| discriminate].
    exists i, EmptyString, c. split; [constructor | exact H].
Qed.

Lemma star_loop_stop {A : Type} (r : regex) (k : nat → string → captures → option A)
      (fuel i : nat) (s : string) (c : captures) :
  is_Some (k i s c) → is_Some (star_loop r k fuel i s c).
Proof.
  intros Hk. destruct fuel as [| fuel]; simpl; [exact Hk |].
  destruct (rmatch r i s c _); [eexists; reflexivity | exact Hk].
Qed.

Lemma rmatch_complete_aux {A : Type} (r : regex) i s c j t c' :
  derives r i s c j t c' →
  ∀ k : nat → string → captures → option A,
    is_Some (k j t c') →
    is_Some (rmatch r i s c k)
    ∧ match r with
      | Star r0 =>
          ∀ fuel, (String.length s <= fuel)%nat → is_Some (star_loop r0 k fuel i s c)
      | _ => True
      end.
Proof.
  induction 1; intros k0 Hk.
  - split; [exact Hk | exact I].
  - split; [| exact I]. simpl. rewrite Ascii.eqb_refl. exact Hk.
  - split; [| exact I]. simpl. rewrite H, Ascii.eqb_refl. exact Hk.
  - split; [| exact I]. simpl. rewrite H. exact Hk.
  - split; [| exact I]. simpl.
    apply (IHderives1 (fun i' s' c' => rmatch r2 i' s' c' k0)).
    apply (IHderives2 k0). exact Hk.
  - split; [| exact I]. simpl.
    destruct (proj1 (IHderives k0 Hk)) as [x Hx]. rewrite Hx. eexists; reflexivity.
  - split; [| exact I]. simpl.
    destruct (rmatch r1 i s c k0); [eexists; reflexivity |].
    apply (IHderives k0). exact Hk.
  - split; [rewrite rmatch_star |]; intros; apply star_loop_stop; exact Hk.
  - assert (Hloop : ∀ fuel, (String.length s <= fuel)%nat →
                            is_Some (star_loop r k0 fuel i s c)).
    { intros fuel Hfuel.
      destruct (derives_consumes _ _ _ _ _ _ _ H) as (u1 & -> & ->).
      rewrite str_length_app in Hfuel.
      destruct fuel as [| fuel]; [lia |]. simpl.
      destruct (IHderives1
                  (fun i' s' c' =>
                     if (i <? i')%nat then star_loop r k0 fuel i' s' c' else None))
        as [[x Hx] _].
      - destruct (Nat.ltb_spec i (i + String.length u1)); [| lia].
        apply (proj2 (IHderives2 k0 Hk)). lia.
      - rewrite Hx. eexists; reflexivity. }
    split; [rewrite rmatch_star; apply Hloop; lia | exact Hloop].
  - split; [| exact I]. simpl.
    apply (IHderives (fun i' s' c' => k0 i' s' ((n, substring 0 (i' - i) s) :: c'))).
    exact Hk.
  - split; [exact Hk | exact I].
  - split; [exact Hk | exact I].
Qed.

(** Completeness: when the pattern has a derivation after which the
    continuation succeeds, the matcher succeeds. *)
Theorem rmatch_complete {A : Type} (r : regex) i s c j t c'
        (k : nat → string → captures → option A) :
  derives r i s c j t c' → is_Some (k j t c') → is_Some (rmatch r i s c k).
Proof. intros Hd Hk. exact (proj1 (rmatch_complete_aux r i s c j t c' Hd k Hk)). Qed.

Lemma exec_from_sound (r : regex) (s : string) :
  ∀ i c, exec_from r i s = Some c →
         ∃ pre rest j t,
           s = (pre ++ rest)%string
           ∧ derives r (i + String.length pre) rest [] j t c.
Proof.
  induction s as [| a s IH]; intros i c H; simpl in H.
  - destruct (rmatch r i "" [] _) as [c0 |] eqn:E; [| discriminate].
    injection H as ->. apply rmatch_sound in E as (j & t & c' & Hd & Hc).
    injection Hc as ->. exists EmptyString, EmptyString, j, t.
    split; [reflexivity |]. simpl. rewrite Nat.add_0_r. exact Hd.
  - destruct (rmatch r i (String a s) [] _) as [c0 |] eqn:E.
    + injection H as ->. apply rmatch_sound in E as (j & t & c' & Hd & Hc).
      injection Hc as ->. exists EmptyString, (String a s), j, t.
      split; [reflexivity |]. simpl. rewrite Nat.add_0_r. exact Hd.
    + apply IH in H as (pre & rest & j & t & -> & Hd).
      exists (String a pre), rest, j, t. split; [reflexivity |].
      simpl. rewrite Nat.add_succ_r. exact Hd.
Qed.

Lemma exec_from_complete (r : regex) (pre rest : string) :
  ∀ i j t c,
    derives r (i + String.length pre) rest [] j t c →
    is_Some (exec_from r i (pre ++ rest)%string).
Proof.
  induction pre as [| a pre IH]; intros i j t c Hd.
  - simpl in Hd. rewrite Nat.add_0_r in Hd.
    assert (Hm : is_Some (rmatch r i rest [] (fun _ _ c => Some c))).
    { eapply rmatch_complete; [exact Hd | eexists; reflexivity]. }
    destruct Hm as [c0 Hm]. change ("" ++ rest)%string with rest.
    destruct rest; simpl; rewrite Hm; eexists; reflexivity.
  - rewrite str_app_cons. simpl.
    destruct (rmatch r i _ [] _); [eexists; reflexivity |].
    apply (IH (S i) j t c). simpl in Hd. rewrite Nat.add_succ_r in Hd. exact Hd.
Qed.

(** [test] answers true exactly when the pattern has a derivation
    somewhere in the input. *)
Theorem test_iff_derives (r : regex) (s : string) :
  test r s = true
  ↔ ∃ pre rest j t c,
      s = (pre ++ rest)%string ∧ derives r (String.length pre) rest [] j t c.
Proof.
  unfold test, exec. split.
  - destruct (exec_from r 0 s) as [c |] eqn:E; [| discriminate]. intros _.
    apply exec_from_sound in E as (pre & rest & j & t & -> & Hd).
    exists pre, rest, j, t, c. split; [reflexivity | exact Hd].
  - intros (pre & rest & j & t & c & -> & Hd).
    destruct (exec_from_complete r pre rest 0 j t c Hd) as [c0 ->]. reflexivity.
Qed.

Lemma substring_prefix (u t : string) :
  substring 0 (String.length u) (u ++ t)%string = u.
Proof.
  induction u as [| a u IH].
  - simpl. destruct t; reflexivity.
  - rewrite str_app_cons. simpl. rewrite IH. reflexivity.
Qed.

(** A pattern that is one capturing group: what [match1] returns is a
    substring of the input that the body of the group derives. *)
Lemma match1_group_sound (body : regex) (s x : string) :
  match1 (Group 1 body) s = Some x →
  ∃ pre t c,
    s = (pre ++ x ++ t)%string
    ∧ derives body (String.length pre) (x ++ t)%string []
        (String.length pre + String.length x) t c.
Proof.
  unfold match1, exec. destruct (exec_from _ 0 s) as [c |] eqn:E; [| discriminate].
  intros H. apply exec_from_sound in E as (pre & rest & j & t & -> & Hd).
  simpl in Hd.
  inversion Hd as [ | | | | | | | | | n0 r0 i0 s0 c0 j0 t0 c1 Hbody | | ]; subst.
  destruct (derives_consumes _ _ _ _ _ _ _ Hbody) as (u & -> & ->).
  simpl in H. replace (String.length pre + String.length u - String.length pre)%nat
    with (String.length u) in H by lia.
  rewrite substring_prefix in H. injection H as <-.
  exists pre, t, c1. split; [reflexivity | exact Hbody].
Qed.

End MatcherTheory.

(** *** What the patterns of the extractor capture *)

Section CaptureShapes.
Import Regex RegexSpec Appointment.

Lemma str_app_inv_tail (a b t : string) : (a ++ t)%string = (b ++ t)%string → a = b.
Proof.
  revert b. induction a as [| x a IH]; intros [| y b] H.
  - reflexivity.
  - exfalso. apply (f_equal String.length) in H.
    rewrite !str_length_app in H. simpl in H. lia.
  - exfalso. apply (f_equal String.length) in H.
    rewrite !str_length_app in H. simpl in H. lia.
  - rewrite !str_app_cons in H. injection H as -> H. f_equal. apply IH. exact H.
Qed.

Lemma all_chars_app (p : ascii → bool) (u v : string) :
  all_chars p (u ++ v)%string = all_chars p u && all_chars p v.
Proof.
  induction u as [| a u IH]; [reflexivity |].
  rewrite str_app_cons. simpl. rewrite IH, andb_assoc. reflexivity.
Qed.

Lemma all_chars_weaken (p q : ascii → bool) (u : string) :
  (∀ b, p b = true → q b = true) → all_chars p u = true → all_chars q u = true.
Proof.
  intros Hpq. induction u as [| a u IH]; [reflexivity |]. simpl.
  intros [Ha Hu]%andb_true_iff. rewrite (Hpq a Ha), (IH Hu). reflexivity.
Qed.

Lemma derives_seq_inv (r1 r2 : regex) i s c k u c2 :
  derives (Seq r1 r2) i s c k u c2 →
  ∃ j t c1, derives r1 i s c j t c1 ∧ derives r2 j t c1 k u c2.
Proof. inversion 1; subst. eauto. Qed.

Lemma derives_cls_inv (p : ascii → bool) i s c j t c' :
  derives (Cls p) i s c j t c' →
  ∃ b, s = String b t ∧ p b = true ∧ j = S i ∧ c' = c.
Proof. inversion 1; subst. eauto. Qed.

Lemma derives_lit_inv (a : ascii) i s c j t c' :
  derives (Lit a) i s c j t c' → s = String a t ∧ j = S i ∧ c' = c.
Proof. inversion 1; subst. auto. Qed.

(** A run [[...]*] consumes characters of the class only. *)
Lemma derives_star_cls (p : ascii → bool) i s c j t c' :
  derives (Star (Cls p)) i s c j t c' →
  ∃ u, s = (u ++ t)%string ∧ all_chars p u = true
       ∧ j = (i + String.length u)%nat ∧ c' = c.
Proof.
  remember (Star (Cls p)) as r eqn:Er. induction 1; try discriminate.
  - exists EmptyString. repeat split; simpl; lia.
  - injection Er as ->. destruct (IHderives2 eq_refl) as (w & -> & Hw & -> & ->).
    apply derives_cls_inv in H as (b & -> & Hb & -> & ->).
    exists (String b w). rewrite str_app_cons. simpl. rewrite Hb, Hw.
    repeat split; lia.
Qed.

Lemma derives_plus_cls (p : ascii → bool) i s c j t c' :
  derives (Plus (Cls p)) i s c j t c' →
  ∃ u, s = (u ++ t)%string ∧ all_chars p u = true ∧ u ≠ EmptyString
       ∧ j = (i + String.length u)%nat ∧ c' = c.
Proof.
  intros (j1 & t1 & c1 & H1 & H2)%derives_seq_inv.
  apply derives_cls_inv in H1 as (b & -> & Hb & -> & ->).
  apply derives_star_cls in H2 as (u & -> & Hu & -> & ->).
  exists (String b u). rewrite str_app_cons. simpl. rewrite Hb, Hu.
  repeat split; [discriminate | lia].
Qed.

Lemma derives_rep_cls (p : ascii → bool) (n : nat) :
  ∀ i s c j t c',
    derives (Rep n (Cls p)) i s c j t c' →
    ∃ u, s = (u ++ t)%string ∧ all_chars p u = true ∧ String.length u = n
         ∧ j = (i + n)%nat ∧ c' = c.
Proof.
  induction n as [| n IH]; intros i s c j t c' H; simpl in H.
  - inversion H; subst. exists EmptyString. repeat split; lia.
  - apply derives_seq_inv in H as (j1 & t1 & c1 & H1 & H2).
    apply derives_cls_inv in H1 as (b & -> & Hb & -> & ->).
    apply IH in H2 as (u & -> & Hu & Hn & -> & ->).
    exists (String b u). rewrite str_app_cons. simpl. rewrite Hb, Hu, Hn.
    repeat split; lia.
Qed.

Lemma derives_opt_cls (p : ascii → bool) i s c j t c' :
  derives (Opt (Cls p)) i s c j t c' →
  ∃ u, s = (u ++ t)%string ∧ all_chars p u = true
       ∧ j = (i + String.length u)%nat ∧ c' = c.
Proof.
  unfold Opt. inversion 1; subst.
  - match goal with
    | Hc : derives (Cls p) _ _ _ _ _ _ |- _ =>
        apply derives_cls_inv in Hc as (b & -> & Hb & -> & ->)
    end.
    exists (String b EmptyString). simpl. rewrite Hb. repeat split; lia.
  - match goal with Hc : derives Eps _ _ _ _ _ _ |- _ => inversion Hc; subst end.
    exists EmptyString. repeat split; simpl; lia.
Qed.

(** Conversely, a run of class characters is derived by [[...]*]. *)
Lemma star_cls_derives (p : ascii → bool) (u t : string) :
  ∀ i c, all_chars p u = true →
         derives (Star (Cls p)) i (u ++ t)%string c (i + String.length u) t c.
Proof.
  induction u as [| b u IH]; intros i c Hu.
  - simpl. rewrite Nat.add_0_r. constructor.
  - simpl in Hu. apply andb_true_iff in Hu as [Hb Hu]. rewrite str_app_cons.
    eapply d_star_more.
    + constructor. exact Hb.
    + lia.
    + simpl. rewrite Nat.add_succ_r. apply (IH (S i) c Hu).
Qed.

Lemma plus_cls_derives (p : ascii → bool) (u t : string) :
  ∀ i c, all_chars p u = true → u ≠ EmptyString →
         derives (Plus (Cls p)) i (u ++ t)%string c (i + String.length u) t c.
Proof.
  intros i c Hu Hne. destruct u as [| b u]; [contradiction |].
  simpl in Hu. apply andb_true_iff in Hu as [Hb Hu]. rewrite str_app_cons.
  unfold Plus. eapply d_seq.
  - constructor. exact Hb.
  - simpl. rewrite Nat.add_succ_r. apply (star_cls_derives p u t (S i) c Hu).
Qed.

Lemma remove_chars_app (p : ascii → bool) (u v : string) :
  JS.remove_chars p (u ++ v)%string
  = (JS.remove_chars p u ++ JS.remove_chars p v)%string.
Proof.
  induction u as [| a u IH]; [reflexivity |].
  rewrite str_app_cons. simpl. destruct (p a); rewrite IH; reflexivity.
Qed.

Lemma remove_chars_keep (p q : ascii → bool) (u : string) :
  (∀ b, q b = true → p b = false) → all_chars q u = true → JS.remove_chars p u = u.
Proof.
  intros Hqp. induction u as [| a u IH]; [reflexivity |]. simpl.
  intros [Ha Hu]%andb_true_iff. rewrite (Hqp a Ha), (IH Hu). reflexivity.
Qed.

Lemma remove_chars_drop (p : ascii → bool) (u : string) :
  all_chars p u = true → JS.remove_chars p u = EmptyString.
Proof.
  induction u as [| a u IH]; [reflexivity |]. simpl.
  intros [Ha Hu]%andb_true_iff. rewrite Ha. exact (IH Hu).
Qed.

(** Facts on the character classes, by enumeration of the code units. *)
Ltac by_enumeration :=
  let b := fresh "b" in
  intros b; destruct b as [[] [] [] [] [] [] [] []]; vm_compute; congruence.

Lemma digit_not_sep : ∀ b, JS.is_digit b = true → phone_sep b = false.
Proof. by_enumeration. Qed.

Lemma digit_not_space : ∀ b, JS.is_digit b = true → JS.is_space b = false.
Proof. by_enumeration. Qed.

Lemma local_not_space_at : ∀ b, email_local b = true → not_space_at b = true.
Proof. by_enumeration. Qed.

Lemma domain_not_space_at : ∀ b, email_domain b = true → not_space_at b = true.
Proof. by_enumeration. Qed.

Lemma alpha_not_space_at : ∀ b, JS.is_alpha b = true → not_space_at b = true.
Proof. by_enumeration. Qed.

(** What each property of the extracted object is. *)
Lemma extract_lookups (m : string) :
  extractAppointmentInfo m !! "name" = JS.trim <$> match1 nameRegex m
  ∧ extractAppointmentInfo m !! "email" = match1 emailMatchRegex m
  ∧ extractAppointmentInfo m !! "phone"
    = JS.remove_chars phone_sep <$> match1 phoneRegex m
  ∧ extractAppointmentInfo m !! "service" = first_keyword serviceKeywords m
  ∧ extractAppointmentInfo m !! "preferredDate" = match1 dateRegex m
  ∧ extractAppointmentInfo m !! "preferredTime" = match1 timeRegex m.
Proof.
  unfold extractAppointmentInfo, set_if.
  destruct (match1 nameRegex m), (match1 emailMatchRegex m), (match1 phoneRegex m),
    (first_keyword serviceKeywords m), (match1 dateRegex m), (match1 timeRegex m);
    repeat split; simpl; by simplify_map_eq.
Qed.

End CaptureShapes.

(** *** The extractor's results, field by field *)

Section ExtractedFields.
Import Regex RegexSpec Appointment.

Lemma extracted_phone_shape (m x : string) :
  match1 phoneRegex m = Some x →
  String.length (JS.remove_chars phone_sep x) = 10%nat
  ∧ all_chars JS.is_digit (JS.remove_chars phone_sep x) = true.
Proof.
  intros H. apply match1_group_sound in H as (pre & t & c & _ & Hd).
  apply derives_seq_inv in Hd as (j1 & t1 & c1 & H1 & Hd).
  apply derives_seq_inv in Hd as (j2 & t2 & c2 & H2 & Hd).
  apply derives_seq_inv in Hd as (j3 & t3 & c3 & H3 & Hd).
  apply derives_seq_inv in Hd as (j4 & t4 & c4 & H4 & H5).
  apply derives_rep_cls in H5 as (u5 & -> & Hu5 & Hn5 & _ & _).
  apply derives_opt_cls in H4 as (u4 & -> & Hu4 & _ & _).
  apply derives_rep_cls in H3 as (u3 & -> & Hu3 & Hn3 & _ & _).
  apply derives_opt_cls in H2 as (u2 & -> & Hu2 & _ & _).
  apply derives_rep_cls in H1 as (u1 & Hx & Hu1 & Hn1 & _ & _).
  assert (Ex : x = (u1 ++ u2 ++ u3 ++ u4 ++ u5)%string).
  { apply (str_app_inv_tail _ _ t). rewrite Hx, !str_app_assoc. reflexivity. }
  rewrite Ex, !remove_chars_app.
  rewrite (remove_chars_keep _ _ u1 digit_not_sep Hu1),
    (remove_chars_keep _ _ u3 digit_not_sep Hu3),
    (remove_chars_keep _ _ u5 digit_not_sep Hu5),
    (remove_chars_drop _ u2 Hu2), (remove_chars_drop _ u4 Hu4).
  split.
  - rewrite !str_length_app. simpl. lia.
  - rewrite !all_chars_app, Hu1, Hu3, Hu5. reflexivity.
Qed.

(** X1: every phone number that [extractAppointmentInfo] returns is
    made of exactly ten digits, whatever separators the message had. *)
Theorem extracted_phone_is_ten_digits (m p : string) :
  extractAppointmentInfo m !! "phone" = Some p →
  String.length p = 10%nat ∧ all_chars JS.is_digit p = true.
Proof.
  destruct (extract_lookups m) as (_ & _ & Hp & _). rewrite Hp.
  destruct (match1 phoneRegex m) as [x |] eqn:E; [| discriminate].
  simpl. intros [= <-]. exact (extracted_phone_shape m x E).
Qed.

Lemma extracted_phone_is_ten_digits_witness :
  String.length "5551234567" = 10%nat ∧ all_chars JS.is_digit "5551234567" = true.
Proof.
  refine (extracted_phone_is_ten_digits "call 555-123 4567 please" "5551234567" _).
  vm_compute. reflexivity.
Defined.

Lemma extracted_email_shape (m x : string) :
  match1 emailMatchRegex m = Some x →
  ∃ l d t, x = (l ++ String "@" (d ++ String "." t))%string
           ∧ all_chars email_local l = true ∧ l ≠ EmptyString
           ∧ all_chars email_domain d = true ∧ d ≠ EmptyString
           ∧ all_chars JS.is_alpha t = true ∧ (2 <= String.length t)%nat.
Proof.
  intros H. apply match1_group_sound in H as (pre & t & c & _ & Hd).
  apply derives_seq_inv in Hd as (j1 & t1 & c1 & H1 & Hd).
  apply derives_seq_inv in Hd as (j2 & t2 & c2 & H2 & Hd).
  apply derives_seq_inv in Hd as (j3 & t3 & c3 & H3 & Hd).
  apply derives_seq_inv in Hd as (j4 & t4 & c4 & H4 & Hd).
  apply derives_seq_inv in Hd as (j5 & t5 & c5 & H5 & H6).
  apply derives_star_cls in H6 as (u6 & -> & Hu6 & _ & _).
  apply derives_rep_cls in H5 as (u5 & -> & Hu5 & Hn5 & _ & _).
  apply derives_lit_inv in H4 as (-> & _ & _).
  apply derives_plus_cls in H3 as (u3 & -> & Hu3 & Hne3 & _ & _).
  apply derives_lit_inv in H2 as (-> & _ & _).
  apply derives_plus_cls in H1 as (u1 & Hx & Hu1 & Hne1 & _ & _).
  exists u1, u3, (u5 ++ u6)%string. split.
  - apply (str_app_inv_tail _ _ t). rewrite Hx.
    rewrite !str_app_assoc, str_app_cons, !str_app_assoc, str_app_cons, !str_app_assoc.
    reflexivity.
  - repeat split; try assumption.
    + rewrite all_chars_app, Hu5, Hu6. reflexivity.
    + rewrite str_length_app. lia.
Qed.

Lemma email_capture_valid (m x : string) :
  match1 emailMatchRegex m = Some x → isValidEmail x = true.
Proof.
  intros H.
  apply extracted_email_shape in H
    as (l & d & t & -> & Hl & Hlne & Hd & Hdne & Ht & Htlen).
  apply test_iff_derives.
  exists EmptyString, (l ++ String "@" (d ++ String "." t))%string.
  assert (Htne : t ≠ EmptyString) by (destruct t; simpl in Htlen; [lia | discriminate]).
  pose proof (all_chars_weaken _ _ l local_not_space_at Hl) as Hl'.
  pose proof (all_chars_weaken _ _ d domain_not_space_at Hd) as Hd'.
  pose proof (all_chars_weaken _ _ t alpha_not_space_at Ht) as Ht'.
  eexists _, EmptyString, _. split; [reflexivity |].
  unfold emailRegex.
  eapply d_seq; [apply d_bol |].
  eapply d_seq; [apply (plus_cls_derives not_space_at l _ 0 [] Hl' Hlne) |].
  eapply d_seq; [apply d_lit |].
  eapply d_seq; [apply (plus_cls_derives not_space_at d _ _ [] Hd' Hdne) |].
  eapply d_seq; [apply d_lit |].
  eapply d_seq.
  - rewrite <- (str_app_nil_r t) at 1.
    apply (plus_cls_derives not_space_at t EmptyString _ [] Ht' Htne).
  - apply d_eol.
Qed.

(** X2: every email address that [extractAppointmentInfo] returns is
    accepted by [isValidEmail]. *)
Theorem extracted_email_is_valid (m e : string) :
  extractAppointmentInfo m !! "email" = Some e → isValidEmail e = true.
Proof.
  destruct (extract_lookups m) as (_ & He & _). rewrite He.
  apply email_capture_valid.
Qed.

Lemma extracted_email_is_valid_witness : isValidEmail "jane@example.com" = true.
Proof.
  refine (extracted_email_is_valid jane_message "jane@example.com" _).
  vm_compute. reflexivity.
Defined.

Lemma derives_group_inv (n : nat) (body : regex) i s c j t c' :
  derives (Group n body) i s c j t c' →
  ∃ u c1, s = (u ++ t)%string ∧ j = (i + String.length u)%nat
          ∧ c' = (n, u) :: c1 ∧ derives body i s c j t c1.
Proof.
  inversion 1 as [ | | | | | | | | | n0 r0 i0 s0 c0 j0 t0 c1 Hbody | | ]; subst.
  destruct (derives_consumes _ _ _ _ _ _ _ Hbody) as (u & -> & ->).
  exists u, c1. replace (i + String.length u - i)%nat with (String.length u) by lia.
  rewrite substring_prefix. repeat split. exact Hbody.
Qed.

(** A pattern [prefix \s+ (group)]: what [match1] returns is derived by
    the body of the group. *)
Lemma match1_prefixed_group_sound (prefix gap body : regex) (m x : string) :
  match1 (Seq prefix (Seq gap (Group 1 body))) m = Some x →
  ∃ i t c0 c1,
    derives body i (x ++ t)%string c0 (i + String.length x) t c1.
Proof.
  unfold match1, exec. destruct (exec_from _ 0 m) as [c |] eqn:E; [| discriminate].
  intros H. apply exec_from_sound in E as (pre & rest & j & t & -> & Hd).
  apply derives_seq_inv in Hd as (j1 & t1 & c1 & _ & Hd).
  apply derives_seq_inv in Hd as (j2 & t2 & c2 & _ & Hd).
  apply derives_group_inv in Hd as (u & c3 & -> & -> & -> & Hbody).
  simpl in H. injection H as <-. exists j2, t, c2, c3. exact Hbody.
Qed.

Lemma trim_start_all (p : ascii → bool) (s : string) :
  all_chars p s = true → all_chars p (JS.trim_start s) = true.
Proof.
  induction s as [| a s IH]; [reflexivity |]. simpl.
  intros [Ha Hs]%andb_true_iff.
  destruct (JS.is_space a); [exact (IH Hs) | simpl; rewrite Ha, Hs; reflexivity].
Qed.

Lemma trim_end_all (p : ascii → bool) (s : string) :
  all_chars p s = true → all_chars p (JS.trim_end s) = true.
Proof.
  induction s as [| a s IH]; [reflexivity |]. simpl.
  intros [Ha Hs]%andb_true_iff. specialize (IH Hs).
  destruct (JS.trim_end s) as [| b te].
  - destruct (JS.is_space a); [reflexivity | simpl; rewrite Ha; reflexivity].
  - simpl in *. rewrite Ha. exact IH.
Qed.

Lemma trim_end_idem (s : string) : JS.trim_end (JS.trim_end s) = JS.trim_end s.
Proof.
  induction s as [| a s IH]; [reflexivity |]. simpl.
  destruct (JS.trim_end s) as [| b te] eqn:E.
  - destruct (JS.is_space a) eqn:Ea; [reflexivity |]. simpl. rewrite Ea. reflexivity.
  - change (JS.trim_end (String a (String b te)))
      with (match JS.trim_end (String b te) with
            | EmptyString =>
                if JS.is_space a then EmptyString else String a EmptyString
            | t => String a t
            end).
    rewrite IH. reflexivity.
Qed.

Lemma trim_end_head (a : ascii) (s : string) :
  JS.is_space a = false → ∃ s', JS.trim_end (String a s) = String a s'.
Proof.
  intros Ha. simpl. destruct (JS.trim_end s) as [| b te].
  - rewrite Ha. eexists; reflexivity.
  - eexists; reflexivity.
Qed.

(** [trim] leaves nothing to trim. *)
Lemma trim_idem (s : string) : JS.trim (JS.trim s) = JS.trim s.
Proof.
  unfold JS.trim.
  assert (H : JS.trim_start (JS.trim_end (JS.trim_start s))
              = JS.trim_end (JS.trim_start s)).
  { induction s as [| a s IH]; [reflexivity |]. simpl.
    destruct (JS.is_space a) eqn:Ea; [exact IH |].
    destruct (trim_end_head a s Ea) as (s' & ->). simpl. rewrite Ea. reflexivity. }
  rewrite H. apply trim_end_idem.
Qed.

Lemma trim_digits (s : string) : all_chars JS.is_digit s = true → JS.trim s = s.
Proof.
  intros H. unfold JS.trim.
  assert (Hs : JS.trim_start s = s).
  { destruct s as [| a s]; [reflexivity |]. simpl in *.
    apply andb_true_iff in H as [Ha _]. rewrite (digit_not_space a Ha). reflexivity. }
  rewrite Hs. clear Hs. induction s as [| a s IH]; [reflexivity |].
  simpl in *. apply andb_true_iff in H as [Ha Hs]. rewrite (IH Hs).
  destruct s; [rewrite (digit_not_space a Ha) |]; reflexivity.
Qed.

Lemma name_capture_letters (m x : string) :
  match1 nameRegex m = Some x → all_chars alpha_or_space (JS.trim x) = true.
Proof.
  intros E. apply match1_prefixed_group_sound in E as (i & t & c0 & c1 & Hd).
  apply derives_plus_cls in Hd as (u & Hx & Hu & _).
  apply str_app_inv_tail in Hx as ->.
  unfold JS.trim. apply trim_end_all, trim_start_all. exact Hu.
Qed.

(** X3: the name that [extractAppointmentInfo] returns holds letters and
    white space only, and none of the white space is at either end. *)
Theorem extracted_name_is_trimmed_letters (m n : string) :
  extractAppointmentInfo m !! "name" = Some n →
  all_chars alpha_or_space n = true ∧ JS.trim n = n.
Proof.
  destruct (extract_lookups m) as (Hn & _). rewrite Hn.
  destruct (match1 nameRegex m) as [x |] eqn:E; [| discriminate].
  simpl. intros [= <-].
  split; [exact (name_capture_letters m x E) | apply trim_idem].
Qed.

Lemma extracted_name_is_trimmed_letters_witness :
  all_chars alpha_or_space "Jane Doe" = true ∧ JS.trim "Jane Doe" = "Jane Doe".
Proof.
  refine (extracted_name_is_trimmed_letters jane_message "Jane Doe" _).
  vm_compute. reflexivity.
Defined.

Lemma first_keyword_in (keywords : list string) (m k : string) :
  first_keyword keywords m = Some k →
  In k keywords ∧ JS.includes (JS.toLowerCase m) k = true.
Proof.
  induction keywords as [| kw rest IH]; [discriminate |]. simpl.
  destruct (JS.includes (JS.toLowerCase m) kw) eqn:E.
  - intros [= <-]. split; [left; reflexivity | exact E].
  - intros H. destruct (IH H) as [Hin Hinc]. split; [right; exact Hin | exact Hinc].
Qed.

Lemma extracted_date_nonempty (m x : string) :
  match1 dateRegex m = Some x → x ≠ EmptyString.
Proof.
  intros H. apply match1_prefixed_group_sound in H as (i & t & c0 & c1 & Hd).
  apply derives_seq_inv in Hd as (j1 & t1 & c2 & H1 & H2).
  apply derives_plus_cls in H1 as (u & _ & _ & Hne & -> & _).
  destruct (derives_consumes _ _ _ _ _ _ _ H2) as (v & _ & Hj).
  intros ->. destruct u; [contradiction | simpl in Hj; lia].
Qed.

Lemma extracted_time_nonempty (m x : string) :
  match1 timeRegex m = Some x → x ≠ EmptyString.
Proof.
  intros H. apply match1_group_sound in H as (pre & t & c & _ & Hd).
  apply derives_seq_inv in Hd as (j1 & t1 & c2 & H1 & H2).
  apply derives_cls_inv in H1 as (b & _ & _ & -> & _).
  destruct (derives_consumes _ _ _ _ _ _ _ H2) as (v & _ & Hj).
  intros ->. simpl in Hj. lia.
Qed.

(** X4: the service that [extractAppointmentInfo] returns is the id of
    one of the services of [getAvailableServices], and the lower-cased
    message contains it. *)
Theorem extracted_service_is_offered (m k : string) :
  extractAppointmentInfo m !! "service" = Some k →
  In k (List.map AppointmentUtils.id AppointmentUtils.getAvailableServices)
  ∧ JS.includes (JS.toLowerCase m) k = true.
Proof.
  destruct (extract_lookups m) as (_ & _ & _ & Hs & _). rewrite Hs.
  apply first_keyword_in.
Qed.

Lemma extracted_service_is_offered_witness :
  In "checkup" (List.map AppointmentUtils.id AppointmentUtils.getAvailableServices)
  ∧ JS.includes (JS.toLowerCase "A CheckUp, please") "checkup" = true.
Proof.
  refine (extracted_service_is_offered "A CheckUp, please" "checkup" _).
  vm_compute. reflexivity.
Defined.

Lemma valid_iff_no_rule_violated (d : gmap string string) :
  valid (validateAppointmentData d)
  = negb (name_invalid d) && negb (email_invalid d) && negb (phone_invalid d)
    && negb (service_invalid d) && negb (date_invalid d) && negb (time_invalid d).
Proof.
  unfold validateAppointmentData, push_if.
  destruct (name_invalid d), (email_invalid d), (phone_invalid d),
    (service_invalid d), (date_invalid d), (time_invalid d); reflexivity.
Qed.

Lemma in_if_singleton (c : bool) (m msg : string) :
  In msg (if c then [m] else []) ↔ msg = m ∧ c = true.
Proof.
  destruct c; simpl; split.
  - intros [<- | []]. split; reflexivity.
  - intros [-> _]. left. reflexivity.
  - intros [].
  - intros [_ H]. discriminate.
Qed.

Lemma nonempty_truthy (x : string) : x ≠ EmptyString → JS.truthy_str (Some x) = true.
Proof.
  intros H. simpl. destruct (String.eqb_spec x ""); [contradiction | reflexivity].
Qed.

(** Which rules the validation finds violated on an extracted object. *)
Lemma rules_on_extraction (m : string) :
  let d := extractAppointmentInfo m in
  (name_invalid d = true
   ↔ d !! "name" = None ∨ ∃ n, d !! "name" = Some n ∧ (String.length n < 2)%nat)
  ∧ (email_invalid d = true ↔ d !! "email" = None)
  ∧ (phone_invalid d = true ↔ d !! "phone" = None)
  ∧ (service_invalid d = true ↔ d !! "service" = None)
  ∧ (date_invalid d = true ↔ d !! "preferredDate" = None)
  ∧ (time_invalid d = true ↔ d !! "preferredTime" = None).
Proof.
  intros d. destruct (extract_lookups m) as (Hn & He & Hp & Hs & Hd & Ht).
  fold d in Hn, He, Hp, Hs, Hd, Ht.
  split; [| split; [| split; [| split; [| split]]]].
  - unfold name_invalid. rewrite Hn.
    destruct (match1 nameRegex m) as [x |]; simpl; [| split; [left |]; reflexivity].
    rewrite trim_idem.
    destruct (String.eqb_spec (JS.trim x) "") as [E | E]; simpl.
    + split; [intros _; right; eexists; split; [reflexivity |]; rewrite E; simpl; lia
             | reflexivity].
    + split.
      * intros H%Nat.ltb_lt. right. eexists. split; [reflexivity | exact H].
      * intros [H | (n & [= <-] & H)]; [discriminate | apply Nat.ltb_lt; exact H].
  - unfold email_invalid. rewrite He.
    destruct (match1 emailMatchRegex m) as [x |] eqn:E; [| split; reflexivity].
    pose proof (email_capture_valid m x E) as Hv. rewrite Hv.
    rewrite nonempty_truthy by (intros ->; vm_compute in Hv; discriminate).
    split; discriminate.
  - unfold phone_invalid. rewrite Hp.
    destruct (match1 phoneRegex m) as [x |] eqn:E; [| split; reflexivity].
    destruct (extracted_phone_shape m x E) as [Hlen Hdig].
    change (JS.remove_chars phone_sep <$> Some x)
      with (Some (JS.remove_chars phone_sep x)).
    cbv iota. rewrite (trim_digits _ Hdig), Hlen.
    rewrite nonempty_truthy by (intros Hx; rewrite Hx in Hlen; discriminate).
    split; discriminate.
  - unfold service_invalid. rewrite Hs.
    destruct (first_keyword serviceKeywords m) as [k |] eqn:E; [| split; reflexivity].
    apply first_keyword_in in E as [Hin _].
    assert (Hk : negb (JS.truthy_str (Some k))
                 || (String.length (JS.trim k) =? 0)%nat = false).
    { simpl in Hin. destruct Hin as [<- | [<- | [<- | [<- | [<- | [<- | []]]]]]];
        reflexivity. }
    rewrite Hk. split; discriminate.
  - unfold date_invalid. rewrite Hd.
    destruct (match1 dateRegex m) as [x |] eqn:E; [| split; reflexivity].
    rewrite (nonempty_truthy x (extracted_date_nonempty m x E)). split; discriminate.
  - unfold time_invalid. rewrite Ht.
    destruct (match1 timeRegex m) as [x |] eqn:E; [| split; reflexivity].
    rewrite (nonempty_truthy x (extracted_time_nonempty m x E)). split; discriminate.
Qed.

(** X5: on what [extractAppointmentInfo] found in a message, the
    validation complains about the email, the phone, the service, the
    date or the time exactly when that field was not found, and about
    the name when it was not found or is shorter than two characters; so
    the object is valid exactly when the six fields were all found and
    the name has at least two characters. *)
Theorem validation_reports_what_was_not_extracted (m : string) :
  let d := extractAppointmentInfo m in
  (∀ msg, In msg (errors (validateAppointmentData d)) ↔
     (msg = "Name must be at least 2 characters long"
      ∧ (d !! "name" = None ∨ ∃ n, d !! "name" = Some n ∧ (String.length n < 2)%nat))
     ∨ (msg = "Valid email is required" ∧ d !! "email" = None)
     ∨ (msg = "Valid phone number is required" ∧ d !! "phone" = None)
     ∨ (msg = "Service type is required" ∧ d !! "service" = None)
     ∨ (msg = "Preferred date is required" ∧ d !! "preferredDate" = None)
     ∨ (msg = "Preferred time is required" ∧ d !! "preferredTime" = None))
  ∧ (valid (validateAppointmentData d) = true
     ↔ (∃ n, d !! "name" = Some n ∧ (2 <= String.length n)%nat)
       ∧ is_Some (d !! "email") ∧ is_Some (d !! "phone") ∧ is_Some (d !! "service")
       ∧ is_Some (d !! "preferredDate") ∧ is_Some (d !! "preferredTime")).
Proof.
  intros d. destruct (rules_on_extraction m) as (Rn & Re & Rp & Rs & Rd & Rt).
  fold d in Rn, Re, Rp, Rs, Rd, Rt. split.
  - intros msg. unfold validateAppointmentData. cbn [errors]. rewrite !push_if_app.
    rewrite !in_app_iff, !in_if_singleton.
    rewrite Rn, Re, Rp, Rs, Rd, Rt. cbn [In]. tauto.
  - rewrite valid_iff_no_rule_violated, !andb_true_iff, !negb_true_iff.
    rewrite <- !not_true_iff_false, Rn, Re, Rp, Rs, Rd, Rt.
    rewrite <- !not_eq_None_Some.
    destruct (d !! "name") as [n |]; split.
    + intros (((((Hn & ?) & ?) & ?) & ?) & ?). repeat split; try assumption.
      exists n. split; [reflexivity |].
      destruct (Nat.le_gt_cases 2 (String.length n)); [assumption |].
      exfalso. apply Hn. right. exists n. split; [reflexivity | assumption].
    + intros ((n' & [= <-] & Hlen) & ? & ? & ? & ? & ?). repeat split; try assumption.
      intros [? | (n' & [= <-] & ?)]; [discriminate | lia].
    + intros (((((Hn & ?) & ?) & ?) & ?) & ?). exfalso. apply Hn. left. reflexivity.
    + intros ((n' & ? & _) & _). discriminate.
Qed.

Lemma validation_reports_what_was_not_extracted_witness :
  In "Valid phone number is required"
     (errors (validateAppointmentData (extractAppointmentInfo jane_message))).
Proof.
  refine (proj2 (proj1 (validation_reports_what_was_not_extracted jane_message)
                   "Valid phone number is required") _).
  right. right. left. split; [reflexivity | vm_compute; reflexivity].
Defined.

End ExtractedFields.

(** *** The booking decision of the guarded handler *)

Section BookingDecision.
Import Appointment AppointmentUtils Booking.

Lemma starts_with_app (x b : string) : JS.starts_with x (x ++ b)%string = true.
Proof.
  induction x as [| a x IH]; [destruct b; reflexivity |].
  rewrite str_app_cons. simpl. rewrite Ascii.eqb_refl. exact IH.
Qed.

Lemma includes_here (x b : string) : JS.includes (x ++ b)%string x = true.
Proof.
  destruct (x ++ b)%string eqn:E; simpl; rewrite <- E, starts_with_app; reflexivity.
Qed.

Lemma includes_app_r (a b x : string) :
  JS.includes b x = true → JS.includes (a ++ b)%string x = true.
Proof.
  intros H. induction a as [| c a IH]; [exact H |].
  rewrite str_app_cons. simpl. rewrite IH. apply orb_true_r.
Qed.

Lemma show_created (t : clock) (d : gmap string string) (key v : string) :
  d !! key = Some v →
  key ≠ "updatedAt" → key ≠ "createdAt" → key ≠ "status" →
  show (createAppointment t d) key = v.
Proof.
  intros H H1 H2 H3. unfold show, createAppointment, JS.merge_props.
  rewrite !lookup_insert_ne by congruence.
  rewrite (lookup_union_Some_l _ _ _ _ H). reflexivity.
Qed.

(** X6: the guarded handler creates an appointment only when the model's
    reply or the message asks for it ("confirm", "book", "schedule") and
    the message itself yields all six fields, the name with at least two
    characters; the reply is then the confirmation text, which carries
    the six extracted values verbatim, and the appointment has status
    'confirmed'. *)
Theorem appointment_needs_all_fields_in_the_message
    (t : clock) (aiReply message reply : string) (conf : confirmation) :
  decide t aiReply message = (reply, Some conf) →
  wantsToConfirm aiReply message = true
  ∧ ∃ n e p sv dt tm,
      extractAppointmentInfo message !! "name" = Some n
      ∧ (2 <= String.length n)%nat
      ∧ extractAppointmentInfo message !! "email" = Some e
      ∧ extractAppointmentInfo message !! "phone" = Some p
      ∧ extractAppointmentInfo message !! "service" = Some sv
      ∧ extractAppointmentInfo message !! "preferredDate" = Some dt
      ∧ extractAppointmentInfo message !! "preferredTime" = Some tm
      ∧ reply = confirmationMessage conf
      ∧ reply
        = ("Thank you " ++ n ++ "! Your appointment has been confirmed for " ++ sv
           ++ " on " ++ dt ++ " at " ++ tm
           ++ ". We'll send a confirmation email to " ++ e
           ++ " and call you at " ++ p ++ " if needed.")%string
      ∧ JS.includes reply n = true ∧ JS.includes reply sv = true
      ∧ JS.includes reply dt = true ∧ JS.includes reply tm = true
      ∧ JS.includes reply e = true ∧ JS.includes reply p = true
      ∧ appointmentData conf !! "status" = Some "confirmed".
Proof.
  unfold decide.
  destruct (wantsToConfirm aiReply message) eqn:Hw; [| discriminate].
  destruct (hasAppointmentInfo (extractAppointmentInfo message)); [| discriminate].
  cbn [andb].
  destruct (valid (validateAppointmentData (extractAppointmentInfo message))) eqn:Hv;
    [| discriminate].
  intros [= <- <-]. split; [reflexivity |].
  destruct (rules_on_extraction message) as (Rn & Re & Rp & Rs & Rd & Rt).
  rewrite valid_iff_no_rule_violated, !andb_true_iff, !negb_true_iff in Hv.
  destruct Hv as (((((Hn & He) & Hp) & Hs) & Hd) & Ht).
  set (d := extractAppointmentInfo message) in *.
  destruct (d !! "name") as [n |] eqn:En;
    [| exfalso; rewrite (proj2 Rn) in Hn; [discriminate | left; reflexivity]].
  destruct (d !! "email") as [e |] eqn:Ee;
    [| exfalso; rewrite (proj2 Re) in He; [discriminate | reflexivity]].
  destruct (d !! "phone") as [p |] eqn:Ep;
    [| exfalso; rewrite (proj2 Rp) in Hp; [discriminate | reflexivity]].
  destruct (d !! "service") as [sv |] eqn:Es;
    [| exfalso; rewrite (proj2 Rs) in Hs; [discriminate | reflexivity]].
  destruct (d !! "preferredDate") as [dt |] eqn:Ed;
    [| exfalso; rewrite (proj2 Rd) in Hd; [discriminate | reflexivity]].
  destruct (d !! "preferredTime") as [tm |] eqn:Et;
    [| exfalso; rewrite (proj2 Rt) in Ht; [discriminate | reflexivity]].
  exists n, e, p, sv, dt, tm.
  assert (Hlen : (2 <= String.length n)%nat).
  { destruct (Nat.le_gt_cases 2 (String.length n)); [assumption |].
    exfalso. rewrite (proj2 Rn) in Hn; [discriminate |].
    right. exists n. split; [reflexivity | assumption]. }
  assert (Hreply :
            confirmationMessage
              (generateAppointmentConfirmation (confirmed_ms t) (createAppointment t d))
            = ("Thank you " ++ n ++ "! Your appointment has been confirmed for " ++ sv
               ++ " on " ++ dt ++ " at " ++ tm
               ++ ". We'll send a confirmation email to " ++ e
               ++ " and call you at " ++ p ++ " if needed.")%string).
  { cbn [confirmationMessage generateAppointmentConfirmation].
    rewrite (show_created t d "name" n En), (show_created t d "service" sv Es),
      (show_created t d "preferredDate" dt Ed), (show_created t d "preferredTime" tm Et),
      (show_created t d "email" e Ee), (show_created t d "phone" p Ep)
      by discriminate.
    reflexivity. }
  repeat (split; [first [reflexivity | assumption] |]).
  rewrite (show_created t d "name" n En), (show_created t d "service" sv Es),
    (show_created t d "preferredDate" dt Ed), (show_created t d "preferredTime" tm Et),
    (show_created t d "email" e Ee), (show_created t d "phone" p Ep)
    by discriminate.
  repeat split.
  - apply includes_app_r, includes_here.
  - do 3 apply includes_app_r. apply includes_here.
  - do 5 apply includes_app_r. apply includes_here.
  - do 7 apply includes_app_r. apply includes_here.
  - do 9 apply includes_app_r. apply includes_here.
  - do 11 apply includes_app_r. apply includes_here.
  - cbn [appointmentData generateAppointmentConfirmation]. unfold createAppointment.
    by rewrite lookup_insert_ne, lookup_insert_ne, lookup_insert_eq.
Qed.

Lemma appointment_needs_all_fields_in_the_message_witness :
  wantsToConfirm "Sure." booking_message = true.
Proof.
  refine (proj1 (appointment_needs_all_fields_in_the_message
                   booking_clock "Sure." booking_message _ _ _)).
  vm_compute. reflexivity.
Defined.

Lemma slot_listed_In (slots : list string) (time : string) :
  slot_listed slots time = true ↔ In time slots.
Proof.
  unfold slot_listed. rewrite existsb_exists. split.
  - intros (x & Hin & ->%String.eqb_eq). exact Hin.
  - intros Hin. exists time. split; [exact Hin | apply String.eqb_refl].
Qed.

(** X7: [checkAvailability] accepts exactly the six slots of its list,
    whatever the date and the service; an accepted slot is one that
    [getAvailableTimeSlots] advertises and comes with no alternative; a
    refused slot comes with alternatives that are all accepted.  The
    half-hour slots that [getAvailableTimeSlots] advertises are refused. *)
Theorem availability_follows_the_six_slots (date time svc : string) :
  let a := checkAvailability date time svc in
  (available a = true ↔ In time availableSlots)
  ∧ (available a = true → In time getAvailableTimeSlots ∧ alternativeSlots a = [])
  ∧ (available a = false →
       alternativeSlots a = availableSlots
       ∧ ∀ alt, In alt (alternativeSlots a) →
                available (checkAvailability date alt svc) = true)
  ∧ (∀ half, In half ["09:30 AM"; "10:30 AM"; "11:30 AM";
                      "02:30 PM"; "03:30 PM"; "04:30 PM"] →
             In half getAvailableTimeSlots
             ∧ available (checkAvailability date half svc) = false).
Proof.
  intros a. unfold a, checkAvailability. cbn [available alternativeSlots].
  split; [apply slot_listed_In |]. split; [| split].
  - intros H. rewrite H. split; [| reflexivity].
    apply slot_listed_In in H. simpl in H.
    destruct H as [<- | [<- | [<- | [<- | [<- | [<- | []]]]]]];
      apply slot_listed_In; reflexivity.
  - intros H. rewrite H. split; [reflexivity |].
    intros alt Halt. apply slot_listed_In. exact Halt.
  - intros half Hh. simpl in Hh.
    destruct Hh as [<- | [<- | [<- | [<- | [<- | [<- | []]]]]]];
      (split; [apply slot_listed_In; reflexivity | reflexivity]).
Qed.

Lemma availability_follows_the_six_slots_witness :
  In "10:00 AM" getAvailableTimeSlots
  ∧ alternativeSlots (checkAvailability "March 3" "10:00 AM" "checkup") = [].
Proof.
  refine (proj1 (proj2 (availability_follows_the_six_slots "March 3" "10:00 AM" "checkup"))
            _).
  reflexivity.
Defined.

End BookingDecision.

(** *** The slot-filling handler: cancellation, persistence, other sessions *)

Section SlotFillingMore.
Import SlotFilling.

(** A session that has no field missing is one that was stored: a
    session just created misses every field. *)
Lemma complete_session_exists (e : env) (sid : string) (w : world) (s' : session) :
  current e sid w = Some s' → missing (data s') = [] →
  ∃ s, sessions w !! sid = Some s ∧ missing (data s) = []
       ∧ s' = set_lastActive (now e) s.
Proof.
  unfold current. destruct (sessions w !! sid) as [s |].
  - intros [= <-] H. exists s. repeat split. exact H.
  - destruct (inherits sid w); [discriminate |]. intros [= <-].
    cbn [data fresh]. rewrite missing_empty. discriminate.
Qed.

(** The session a turn works on carries the time of the turn. *)
Lemma current_clock (e : env) (sid : string) (w : world) (s : session) :
  current e sid w = Some s → lastActive s = now e.
Proof.
  unfold current. destruct (sessions w !! sid) as [s0 |].
  - intros [= <-]. reflexivity.
  - destruct (inherits sid w); [discriminate |]. intros [= <-]. reflexivity.
Qed.

(** When the key finds something that is not a session, it has no
    session of its own, before and after the turn. *)
Lemma current_none (e : env) (sid : string) (w : world) :
  current e sid w = None →
  sessions w !! sid = None ∧ inherits sid w = true
  ∧ sessions (touched e sid w) = sessions w
  ∧ collection (touched e sid w) = collection w.
Proof.
  unfold current, touched. destruct (sessions w !! sid) as [s0 |]; [discriminate |].
  destruct (inherits sid w); [| discriminate]. intros _.
  destruct (String.eqb sid "__proto__"); repeat split.
Qed.

(** The two ways the extraction branch ends: it throws and leaves the
    state as it was, or it replies and rewrites the session. *)
Lemma extraction_cases (e : env) (sid : string) (s : session) (msg : string) (w : world) :
  (∃ err, extraction e sid s msg w = (JS.Throw err, w))
  ∨ (∃ r s', extraction e sid s msg w = (JS.Ok r, with_session sid s' w)).
Proof.
  destruct (completion e) as [err | | v] eqn:Hc.
  - left. exists err. apply extraction_rejected. exact Hc.
  - right. eexists _, _. apply extraction_unparseable. exact Hc.
  - destruct v;
      try (right; eexists _, _; apply (extraction_parsed e sid msg s w _ Hc);
           discriminate).
    left. eexists. unfold extraction, JS.bind, JS.lift, handleAIConversation.
    rewrite Hc. reflexivity.
Qed.

Lemma length_zero_nil {A : Type} (l : list A) : (List.length l =? 0)%nat = true → l = [].
Proof. destruct l; [reflexivity | discriminate]. Qed.

(** X8: with all required fields collected, a message that matches
    [/no/i] and not [/yes/i] cancels: the reply is 200 with completed =
    false, the session is deleted, nothing is stored, and, when the key
    finds nothing on [Object.prototype], the next turn for the key
    creates and stores a new session, which holds only what the
    completion of that turn gave.  A message that matches [/yes/i] books
    even when it matches [/no/i] as well. *)
Theorem no_cancels_unless_yes
    (e : env) (sid msg : string) (w : world) (s : session) :
  mongo e = None → openai e = None →
  sid ≠ "" →
  sessions w !! sid = Some s →
  missing (data s) = [] →
  Regex.test noRegex msg = true →
  (Regex.test yesRegex msg = false →
     handler e (Body (Some sid) (Some msg)) w
     = ({| statusCode := 200;
           payload := Cancelled
             "Appointment cancelled. If you want to start over, just say hi!" false |},
        without_session sid w)
     ∧ sessions (without_session sid w) !! sid = None
     ∧ collection (without_session sid w) = collection w
     ∧ (∀ e2 msg2, mongo e2 = None → openai e2 = None → msg2 ≠ "" →
          inherits sid w = false →
          sessions (snd (handler e2 (Body (Some sid) (Some msg2)) (without_session sid w)))
            !! sid
          = Some {| step := 0; data := extracted e2; lastActive := now e2;
                    started := false |}))
  ∧ (Regex.test yesRegex msg = true → insertOne e = None →
       ∃ doc, fst (handler e (Body (Some sid) (Some msg)) w)
              = {| statusCode := 200;
                   payload := Booked "Your appointment is confirmed! Thank you." doc true |}).
Proof.
  intros Hm Ho Hsid Hs Hmiss Hno. split.
  - intros Hyes.
    assert (Hmsg : msg ≠ "") by (intros ->; vm_compute in Hno; discriminate).
    assert (Hgone : sessions (without_session sid w) !! sid = None)
      by (simpl; apply lookup_delete_eq).
    split; [| split; [exact Hgone | split; [reflexivity |]]].
    + unfold handler. rewrite handler_try_turn by assumption.
      rewrite (turn_confirmation e sid msg w s Hs Hmiss).
      unfold confirmation. rewrite Hyes, Hno. unfold bind, delete_session, ret.
      rewrite without_with_session. reflexivity.
    + intros e2 msg2 Hm2 Ho2 Hmsg2 Hinh. apply first_turn_session; assumption.
  - intros Hyes Hi. eexists.
    rewrite (handler_books e sid msg w s) by assumption. reflexivity.
Qed.

Lemma no_cancels_unless_yes_witness :
  handler calm_env (Body (Some "abc") (Some "No, thanks")) complete_world
  = ({| statusCode := 200;
        payload := Cancelled
          "Appointment cancelled. If you want to start over, just say hi!" false |},
     without_session "abc" complete_world)
  ∧ ∃ doc, fst (handler calm_env (Body (Some "abc") (Some "yes, no problem"))
                  complete_world)
           = {| statusCode := 200;
                payload := Booked "Your appointment is confirmed! Thank you." doc true |}.
Proof.
  split.
  - refine (proj1 (proj1 (no_cancels_unless_yes calm_env "abc" "No, thanks"
                            complete_world complete_session _ _ _ _ _ _) _)).
    + reflexivity.
    + reflexivity.
    + discriminate.
    + vm_compute; reflexivity.
    + vm_compute; reflexivity.
    + vm_compute; reflexivity.
    + vm_compute; reflexivity.
  - refine (proj2 (no_cancels_unless_yes calm_env "abc" "yes, no problem"
                     complete_world complete_session _ _ _ _ _ _) _ _).
    + reflexivity.
    + reflexivity.
    + discriminate.
    + vm_compute; reflexivity.
    + vm_compute; reflexivity.
    + vm_compute; reflexivity.
    + vm_compute; reflexivity.
    + reflexivity.
Defined.

(** X9: the handler stores a document only in one case: the session of
    the request was stored with every required field collected, the
    message matches [/yes/i] and the reply is the booking (status 200,
    completed = true) of that very document.  In every other case, and
    whatever the collaborators answer, the collection is left as it
    was. *)
Theorem only_a_yes_stores_a_record (e : env) (ev : event) (w : world) :
  collection (snd (handler e ev w)) = collection w
  ∨ ∃ sid msg s,
      ev = Body (Some sid) (Some msg)
      ∧ sessions w !! sid = Some s
      ∧ missing (data s) = []
      ∧ Regex.test yesRegex msg = true
      ∧ collection (snd (handler e ev w))
        = collection w ++ [booking_doc e sid (data s)]
      ∧ fst (handler e ev w)
        = {| statusCode := 200;
             payload := Booked "Your appointment is confirmed! Thank you."
                          (booking_doc e sid (data s)) true |}.
Proof.
  unfold handler, handler_try, bind, await.
  destruct (mongo e); [left; reflexivity |].
  destruct (openai e); [left; reflexivity |]. cbn [ret].
  destruct ev as [err | sid msg]; [left; reflexivity |].
  destruct (negb (JS.truthy_str sid) || negb (JS.truthy_str msg)); [left; reflexivity |].
  destruct sid as [sid |], msg as [msg |]; try (left; reflexivity).
  rewrite turn_current.
  destruct (current e sid w) as [s0 |] eqn:Hcur.
  2:{ left. cbn [snd]. apply (current_none e sid w Hcur). }
  destruct (List.length (missing (data s0)) =? 0)%nat eqn:Hlen.
  - apply length_zero_nil in Hlen.
    destruct (complete_session_exists e sid w s0 Hcur Hlen) as (s & Hs & Hmiss & ->).
    unfold confirmation.
    destruct (Regex.test yesRegex msg) eqn:Hyes.
    + unfold bind, insert. destruct (insertOne e) eqn:Hi; [left; reflexivity |].
      right. exists sid, msg, s. repeat split; assumption.
    + destruct (Regex.test noRegex msg); left; reflexivity.
  - left. destruct (extraction_cases e sid s0 msg (with_session sid s0 w))
      as [(err & ->) | (r & s' & ->)]; reflexivity.
Qed.

(** A request leaves the session of every other key as it was. *)
Lemma handler_other_session (e : env) (ev : event) (w : world) (k : string) :
  (∀ msg, ev ≠ Body (Some k) msg) →
  sessions (snd (handler e ev w)) !! k = sessions w !! k.
Proof.
  intros Hk. unfold handler, handler_try, bind, await.
  destruct (mongo e); [reflexivity |].
  destruct (openai e); [reflexivity |]. cbn [ret].
  destruct ev as [err | sid msg]; [reflexivity |].
  destruct (negb (JS.truthy_str sid) || negb (JS.truthy_str msg)); [reflexivity |].
  destruct sid as [sid |], msg as [msg |]; try reflexivity.
  assert (Hne : sid ≠ k) by (intros ->; exact (Hk (Some msg) eq_refl)).
  rewrite turn_current.
  destruct (current e sid w) as [s0 |] eqn:Hcur.
  2:{ cbn [snd]. destruct (current_none e sid w Hcur) as (_ & _ & -> & _). reflexivity. }
  destruct (List.length (missing (data s0)) =? 0)%nat.
  - unfold confirmation.
    destruct (Regex.test yesRegex msg).
    + unfold bind, insert. destruct (insertOne e); simpl;
        rewrite ?lookup_delete_ne by exact Hne;
        rewrite lookup_insert_ne by exact Hne; reflexivity.
    + destruct (Regex.test noRegex msg); simpl;
        rewrite ?lookup_delete_ne by exact Hne;
        rewrite lookup_insert_ne by exact Hne; reflexivity.
  - destruct (extraction_cases e sid s0 msg (with_session sid s0 w))
      as [(err & ->) | (r & s' & ->)]; simpl;
      rewrite !lookup_insert_ne by exact Hne; reflexivity.
Qed.

(** Only a request with the key [__proto__] writes on
    [Object.prototype]. *)
Lemma handler_prototype (e : env) (ev : event) (w : world) :
  (∀ msg, ev ≠ Body (Some "__proto__") msg) →
  prototype_lastActive (snd (handler e ev w)) = prototype_lastActive w.
Proof.
  intros Hk. unfold handler, handler_try, bind, await.
  destruct (mongo e); [reflexivity |].
  destruct (openai e); [reflexivity |]. cbn [ret].
  destruct ev as [err | sid msg]; [reflexivity |].
  destruct (negb (JS.truthy_str sid) || negb (JS.truthy_str msg)); [reflexivity |].
  destruct sid as [sid |], msg as [msg |]; try reflexivity.
  assert (Hne : sid ≠ "__proto__") by (intros ->; exact (Hk (Some msg) eq_refl)).
  rewrite turn_current.
  destruct (current e sid w) as [s0 |] eqn:Hcur.
  2:{ cbn [snd]. unfold touched.
      destruct (String.eqb_spec sid "__proto__"); [contradiction | reflexivity]. }
  destruct (List.length (missing (data s0)) =? 0)%nat.
  - unfold confirmation.
    destruct (Regex.test yesRegex msg).
    + unfold bind, insert. destruct (insertOne e); reflexivity.
    + destruct (Regex.test noRegex msg); reflexivity.
  - destruct (extraction_cases e sid s0 msg (with_session sid s0 w))
      as [(err & ->) | (r & s' & ->)]; reflexivity.
Qed.

(** What a key inherits depends on [Object.prototype.lastActive] for
    the key [lastActive] alone. *)
Lemma inherited_other (k : string) (w1 w2 : world) :
  k ≠ "lastActive" ∨ prototype_lastActive w1 = prototype_lastActive w2 →
  inherited k w1 = inherited k w2.
Proof.
  intros H. unfold inherited.
  destruct (String.eqb k "__proto__"); [reflexivity |].
  destruct (on_object_prototype k); [reflexivity |].
  destruct (String.eqb_spec k "lastActive") as [-> | _]; [| reflexivity].
  destruct H as [H | ->]; [contradiction | reflexivity].
Qed.

(** A turn for a key that finds, without a session of its own, a
    property of [Object.prototype]. *)
Lemma turn_on_inherited_key (e : env) (sid msg : string) (w : world) :
  mongo e = None → openai e = None → sid ≠ "" → msg ≠ "" →
  sessions w !! sid = None → inherits sid w = true →
  handler e (Body (Some sid) (Some msg)) w
  = ({| statusCode := 500;
        payload := ErrorBody "Database connection error"
                     (Some "Cannot read properties of undefined (reading 'patientName')") |},
     touched e sid w).
Proof.
  intros Hm Ho Hsid Hmsg Hs Hinh. unfold handler.
  rewrite handler_try_turn by assumption. rewrite turn_current.
  unfold current. rewrite Hs, Hinh. reflexivity.
Qed.

(** X10: a request never changes the session stored under another key,
    and no session appears under such a key.  What another key finds
    ([sessions[k]]) is unchanged as well, with one exception: a request
    whose key is [__proto__] and has no session of its own sets
    [Object.prototype.lastActive] to the time of the request; from then
    on the key [lastActive], when it has no session of its own, finds
    that number, and a request for it is answered 500 and creates no
    session. *)
Theorem other_sessions_are_untouched (e : env) (ev : event) (w : world) (k : string) :
  (∀ msg, ev ≠ Body (Some k) msg) →
  let w' := snd (handler e ev w) in
  sessions w' !! k = sessions w !! k
  ∧ (k ≠ "lastActive" ∨ (∀ msg, ev ≠ Body (Some "__proto__") msg) →
     sessions_get k w' = sessions_get k w)
  ∧ (∀ msg, ev = Body (Some "__proto__") (Some msg) → msg ≠ "" →
       mongo e = None → openai e = None → sessions w !! "__proto__" = None →
       prototype_lastActive w' = Some (now e)
       ∧ (sessions w !! "lastActive" = None → now e ≠ 0%Z →
          sessions_get "lastActive" w' = Stamp (now e)
          ∧ ∀ e2 msg2, mongo e2 = None → openai e2 = None → msg2 ≠ "" →
              statusCode (fst (handler e2 (Body (Some "lastActive") (Some msg2)) w'))
              = 500%Z
              ∧ sessions (snd (handler e2 (Body (Some "lastActive") (Some msg2)) w'))
                  !! "lastActive" = None)).
Proof.
  intros Hk w'.
  assert (Hown : sessions w' !! k = sessions w !! k)
    by (apply handler_other_session; exact Hk).
  split; [exact Hown |]. split.
  - intros H. unfold sessions_get. rewrite Hown.
    destruct (sessions w !! k); [reflexivity |].
    apply inherited_other. destruct H as [H | H]; [left; exact H |].
    right. apply handler_prototype. exact H.
  - intros msg -> Hmsg Hm Ho Hproto.
    assert (E : w' = with_prototype_lastActive (now e) w).
    { unfold w'. rewrite turn_on_inherited_key; try assumption; [reflexivity | discriminate |
        reflexivity]. }
    split; [rewrite E; reflexivity |].
    intros Hla Hnow.
    assert (Hs' : sessions w' !! "lastActive" = None) by (rewrite E; exact Hla).
    assert (Hget : inherited "lastActive" w' = Stamp (now e)) by (rewrite E; reflexivity).
    assert (Hinh : inherits "lastActive" w' = true).
    { unfold inherits. rewrite Hget. cbn [found].
      destruct (Z.eqb_spec (now e) 0); [contradiction | reflexivity]. }
    split; [unfold sessions_get; rewrite Hs'; exact Hget |].
    intros e2 msg2 Hm2 Ho2 Hmsg2.
    rewrite (turn_on_inherited_key e2 "lastActive" msg2 w') by (assumption || discriminate).
    split; [reflexivity |]. exact Hs'.
Qed.

Lemma other_sessions_are_untouched_witness :
  sessions (snd (handler calm_env (Body (Some "xyz") (Some "yes")) complete_world))
    !! "abc"
  = Some complete_session.
Proof.
  etransitivity.
  - refine (proj1 (other_sessions_are_untouched calm_env (Body (Some "xyz") (Some "yes"))
                     complete_world "abc" _)).
    intros msg. discriminate.
  - vm_compute. reflexivity.
Defined.

(** X28: a key that names a property of [Object.prototype] never gets a
    session.  [sessions] being a plain object, such a key finds the
    inherited property: the ten-field handler then answers 500, stores
    no session and no document, and leaves the key as it found it
    (a request with the key [__proto__] has by then set
    [Object.prototype.lastActive]); the seven-field handler answers
    with the reply of the model and no step number, and changes
    nothing. *)
Theorem inherited_key_gets_no_session
    (e : env) (ce : CursorFlow.env) (sid msg : string) (w : world) (cw : CursorFlow.world) :
  on_object_prototype sid = true → msg ≠ "" →
  (mongo e = None → openai e = None → sessions w !! sid = None →
     let w' := snd (handler e (Body (Some sid) (Some msg)) w) in
     statusCode (fst (handler e (Body (Some sid) (Some msg)) w)) = 500%Z
     ∧ sessions w' = sessions w
     ∧ collection w' = collection w
     ∧ inherits sid w' = true
     ∧ prototype_lastActive w'
       = if String.eqb sid "__proto__" then Some (now e) else prototype_lastActive w)
  ∧ (CursorFlow.init ce = None → CursorFlow.sessions cw !! sid = None →
       CursorFlow.handler ce (CursorFlow.Body (Some sid) (Some msg)) cw
       = match CursorFlow.aiResponse ce with
         | Ok reply =>
             ({| CursorFlow.statusCode := 200;
                 CursorFlow.payload := CursorFlow.Unnumbered reply 7 |}, cw)
         | Throw err => (Conversation.cursor_error err, cw)
         end).
Proof.
  intros Hp Hmsg.
  assert (Hsid : sid ≠ "") by (intros ->; discriminate).
  split.
  - intros Hm Ho Hs w'.
    assert (Hinh : ∀ w0, inherits sid w0 = true).
    { intros w0. unfold inherits, inherited.
      destruct (String.eqb sid "__proto__"); [reflexivity |]. rewrite Hp. reflexivity. }
    assert (E : handler e (Body (Some sid) (Some msg)) w
                = ({| statusCode := 500;
                      payload := ErrorBody "Database connection error"
                        (Some "Cannot read properties of undefined (reading 'patientName')") |},
                   touched e sid w)).
    { apply turn_on_inherited_key; try assumption. apply Hinh. }
    unfold w'. rewrite E. cbn [fst snd statusCode].
    split; [reflexivity |]. unfold touched.
    destruct (String.eqb sid "__proto__") eqn:Hproto.
    + repeat split. apply (Hinh (with_prototype_lastActive (now e) w)).
    + repeat split. apply Hinh.
  - intros Hi Hs. apply cursor_inherited_turn; try assumption.
    unfold CursorFlow.inherits. rewrite Hs. exact Hp.
Qed.

Lemma inherited_key_gets_no_session_witness :
  CursorFlow.handler cursor_env (CursorFlow.Body (Some "constructor") (Some "hello"))
    cursor_world
  = ({| CursorFlow.statusCode := 200;
        CursorFlow.payload :=
          CursorFlow.Unnumbered "Nice to meet you! What is your email address?" 7 |},
     cursor_world).
Proof.
  refine (proj2 (inherited_key_gets_no_session calm_env cursor_env "constructor" "hello"
                   empty_world cursor_world _ _) _ _).
  - reflexivity.
  - discriminate.
  - reflexivity.
  - reflexivity.
Defined.

End SlotFillingMore.

(** *** The cached connection *)

Section Connection.
Import MongoInit.

(** X11: when a connection attempt fails in a container, [initMongo]
    throws the driver's error, and it never tries again: every later
    call returns [undefined] without asking the driver, so every later
    invocation of the handler answers 500 and leaves sessions and
    collection as they were, whatever the request.  After a successful
    attempt every later call returns the cached handles, again without
    asking the driver. *)
Theorem failed_connection_is_never_retried (c : connection) (err : JS.error) :
  mongoClient c = false →
  cachedDb c && cachedCollection c = false →
  let c' := snd (initMongo {| construct := None; connect := Some err |} c) in
  fst (initMongo {| construct := None; connect := Some err |} c) = JS.Throw err
  ∧ mongoClient c' = true
  ∧ (∀ d, initMongo d c' = (JS.Ok None, c'))
  ∧ (∀ d e ev w,
       invoke d e ev (c', w)
       = ({| SlotFilling.statusCode := 500;
             SlotFilling.payload :=
               SlotFilling.ErrorBody "Database connection error"
                 (Some "Cannot destructure property 'db' of '(intermediate value)' as it is undefined.") |},
          (c', w)))
  ∧ (let ok := snd (initMongo {| construct := None; connect := None |} c) in
     fst (initMongo {| construct := None; connect := None |} c) = JS.Ok (Some Handles)
     ∧ ∀ d, initMongo d ok = (JS.Ok (Some Handles), ok)).
Proof.
  intros Hc Hcache c'.
  assert (Ec : initMongo {| construct := None; connect := Some err |} c
               = (JS.Throw err,
                  {| mongoClient := true; cachedDb := cachedDb c;
                     cachedCollection := cachedCollection c |})).
  { unfold initMongo. rewrite Hcache, Hc. reflexivity. }
  assert (Hnext : ∀ d, initMongo d c' = (JS.Ok None, c')).
  { intros d. unfold c'. rewrite Ec. unfold initMongo. cbn [snd cachedDb
      cachedCollection mongoClient]. rewrite Hcache. reflexivity. }
  split; [rewrite Ec; reflexivity |].
  split; [unfold c'; rewrite Ec; reflexivity |].
  split; [exact Hnext |]. split.
  - intros d e ev w. unfold invoke. cbn [fst snd]. rewrite Hnext. reflexivity.
  - assert (Eok : initMongo {| construct := None; connect := None |} c
                  = (JS.Ok (Some Handles),
                     {| mongoClient := true; cachedDb := true;
                        cachedCollection := true |})).
    { unfold initMongo. rewrite Hcache, Hc. reflexivity. }
    rewrite Eok. split; reflexivity.
Qed.

Lemma failed_connection_is_never_retried_witness :
  invoke {| construct := None; connect := None |} calm_env
    (SlotFilling.Body (Some "abc") (Some "yes"))
    (snd (initMongo {| construct := None;
                       connect := Some (JS.ServiceError "connection refused") |} cold),
     complete_world)
  = ({| SlotFilling.statusCode := 500;
        SlotFilling.payload :=
          SlotFilling.ErrorBody "Database connection error"
            (Some "Cannot destructure property 'db' of '(intermediate value)' as it is undefined.") |},
     (snd (initMongo {| construct := None;
                        connect := Some (JS.ServiceError "connection refused") |} cold),
      complete_world)).
Proof.
  refine (proj1 (proj2 (proj2 (proj2
            (failed_connection_is_never_retried cold
               (JS.ServiceError "connection refused") _ _)))) _ _ _ _).
  - reflexivity.
  - reflexivity.
Defined.

End Connection.

(** *** Sessions over time: sweeps, turns and merges *)

Section SessionLifecycle.
Import SlotFilling.

Lemma world_eq (w1 w2 : world) :
  sessions w1 = sessions w2 → collection w1 = collection w2 →
  prototype_lastActive w1 = prototype_lastActive w2 → w1 = w2.
Proof. destruct w1, w2. simpl. intros -> -> ->. reflexivity. Qed.

Lemma expired_mono (t1 t2 : Z) (s : session) :
  (t1 <= t2)%Z → expired t1 s = true → expired t2 s = true.
Proof.
  unfold expired. intros Ht H.
  destruct (Z.gtb_spec (t1 - lastActive s) IDLE_LIMIT_MS); [| discriminate].
  destruct (Z.gtb_spec (t2 - lastActive s) IDLE_LIMIT_MS); [reflexivity | lia].
Qed.

(** X12: sweeping twice at the same time changes nothing more, a sweep
    makes every earlier sweep redundant, and a session that survives a
    sweep would have survived any earlier one. *)
Theorem later_sweep_subsumes_earlier (t1 t2 : Z) (w : world) :
  (t1 <= t2)%Z →
  sweep t2 (sweep t1 w) = sweep t2 w
  ∧ sweep t1 (sweep t2 w) = sweep t2 w
  ∧ sweep t1 (sweep t1 w) = sweep t1 w
  ∧ (∀ k s, sessions (sweep t2 w) !! k = Some s → sessions (sweep t1 w) !! k = Some s).
Proof.
  intros Ht.
  assert (H21 : sweep t2 (sweep t1 w) = sweep t2 w).
  { apply world_eq; [| reflexivity | reflexivity]. apply map_eq. intros k.
    rewrite !sweep_lookup.
    destruct (sessions w !! k) as [s |]; [| reflexivity].
    destruct (expired t1 s) eqn:E1; [| reflexivity].
    rewrite (expired_mono t1 t2 s Ht E1). reflexivity. }
  assert (H12 : sweep t1 (sweep t2 w) = sweep t2 w).
  { apply world_eq; [| reflexivity | reflexivity]. apply map_eq. intros k.
    rewrite !sweep_lookup.
    destruct (sessions w !! k) as [s |]; [| reflexivity].
    destruct (expired t2 s) eqn:E2; [reflexivity |].
    destruct (expired t1 s) eqn:E1; [| reflexivity].
    rewrite (expired_mono t1 t2 s Ht E1) in E2. discriminate. }
  assert (H11 : sweep t1 (sweep t1 w) = sweep t1 w).
  { apply world_eq; [| reflexivity | reflexivity]. apply map_eq. intros k.
    rewrite !sweep_lookup.
    destruct (sessions w !! k) as [s |]; [| reflexivity].
    destruct (expired t1 s) eqn:E1; [reflexivity | rewrite E1; reflexivity]. }
  split; [exact H21 |]. split; [exact H12 |]. split; [exact H11 |].
  intros k s. rewrite !sweep_lookup.
  destruct (sessions w !! k) as [s0 |]; [| discriminate].
  destruct (expired t2 s0) eqn:E2; [discriminate |]. intros [= <-].
  destruct (expired t1 s0) eqn:E1; [| reflexivity].
  rewrite (expired_mono t1 t2 s0 Ht E1) in E2. discriminate.
Qed.

Lemma later_sweep_subsumes_earlier_witness :
  sweep (1000 + 16 * 60 * 1000) (sweep (1000 + 15 * 60 * 1000) complete_world)
  = sweep (1000 + 16 * 60 * 1000) complete_world.
Proof.
  refine (proj1 (later_sweep_subsumes_earlier (1000 + 15 * 60 * 1000)
                   (1000 + 16 * 60 * 1000) complete_world _)).
  vm_compute. discriminate.
Defined.

Lemma extraction_keeps_clock (e : env) (sid : string) (s : session) (msg : string)
      (w : world) :
  (∃ err, extraction e sid s msg w = (JS.Throw err, w))
  ∨ (∃ r d, extraction e sid s msg w = (JS.Ok r, with_session sid (set_data d s) w)).
Proof.
  destruct (completion e) as [err | | v] eqn:Hc.
  - left. exists err. apply extraction_rejected. exact Hc.
  - right. eexists. exists (data s). rewrite set_data_same.
    apply extraction_unparseable. exact Hc.
  - destruct v;
      try (right; eexists _, _; apply (extraction_parsed e sid msg s w _ Hc);
           discriminate).
    left. eexists. unfold extraction, JS.bind, JS.lift, handleAIConversation.
    rewrite Hc. reflexivity.
Qed.

(** X13: when a turn for a key leaves a session under that key, the
    session's [lastActive] is the time of the turn, so every sweep that
    runs within the next 15 minutes keeps it. *)
Theorem session_survives_15_minutes_after_a_turn
    (e : env) (sid msg : string) (w : world) (s' : session) (t : Z) :
  mongo e = None → openai e = None → sid ≠ "" → msg ≠ "" →
  sessions (snd (handler e (Body (Some sid) (Some msg)) w)) !! sid = Some s' →
  lastActive s' = now e
  ∧ ((t - now e <= 15 * 60 * 1000)%Z →
     sessions (sweep t (snd (handler e (Body (Some sid) (Some msg)) w))) !! sid
     = Some s').
Proof.
  intros Hm Ho Hsid Hmsg Hs'.
  assert (Hclock : lastActive s' = now e).
  { revert Hs'. unfold handler. rewrite handler_try_turn by assumption.
    rewrite turn_current.
    destruct (current e sid w) as [s0 |] eqn:Hcur.
    2:{ cbn [snd]. destruct (current_none e sid w Hcur) as (Hnone & _ & -> & _).
        rewrite Hnone. discriminate. }
    pose proof (current_clock e sid w s0 Hcur) as Hclock0.
    destruct (List.length (missing (data s0)) =? 0)%nat.
    - unfold confirmation. destruct (Regex.test yesRegex msg).
      + unfold JS.bind, insert. destruct (insertOne e); simpl.
        * rewrite lookup_insert_eq. intros [= <-]. exact Hclock0.
        * rewrite lookup_delete_eq. discriminate.
      + destruct (Regex.test noRegex msg); simpl.
        * rewrite lookup_delete_eq. discriminate.
        * rewrite lookup_insert_eq. intros [= <-]. exact Hclock0.
    - destruct (extraction_keeps_clock e sid s0 msg (with_session sid s0 w))
        as [(err & ->) | (r & d & ->)]; simpl;
        rewrite lookup_insert_eq; intros [= <-]; exact Hclock0. }
  split; [exact Hclock |].
  intros Ht. rewrite sweep_lookup, Hs'. unfold expired, IDLE_LIMIT_MS. rewrite Hclock.
  destruct (Z.gtb_spec (t - now e) (15 * 60 * 1000)); [lia | reflexivity].
Qed.

Lemma session_survives_15_minutes_after_a_turn_witness :
  sessions
    (sweep (2000 + 15 * 60 * 1000)
       (snd (handler calm_env (Body (Some "abc") (Some "maybe")) complete_world)))
    !! "abc"
  = Some (set_lastActive 2000 complete_session).
Proof.
  refine (proj2 (session_survives_15_minutes_after_a_turn calm_env "abc" "maybe"
                   complete_world (set_lastActive 2000 complete_session)
                   (2000 + 15 * 60 * 1000) _ _ _ _ _) _).
  - reflexivity.
  - reflexivity.
  - discriminate.
  - discriminate.
  - vm_compute. reflexivity.
  - vm_compute. discriminate.
Defined.

Lemma object_props_snoc (l : list (string * JS.value)) (k : string) (v : JS.value) :
  JS.object_props (l ++ [(k, v)]) = <[k := v]> (JS.object_props l).
Proof. unfold JS.object_props. rewrite fold_left_app. reflexivity. Qed.

Lemma missing_In (d : gmap string JS.value) (f : string) :
  In f (missing d) ↔ In f requiredFields ∧ JS.truthy_opt (d !! f) = false.
Proof.
  unfold missing. rewrite filter_In, negb_true_iff. reflexivity.
Qed.

Lemma spread2_lookup (d : gmap string JS.value) (l : list (string * JS.value))
      (k : string) :
  JS.spread2 d (Some (JS.VObj l)) !! k
  = match JS.object_props l !! k with
    | Some v => Some v
    | None => d !! k
    end.
Proof.
  unfold JS.spread2, JS.merge_props. cbn [JS.own_props]. rewrite lookup_union.
  destruct (JS.object_props l !! k), (d !! k); reflexivity.
Qed.

(** X14: in the merge of an extracted object into the collected fields,
    a key the object mentions takes the object's value, the last one if
    the object mentions the key twice, and a key it does not mention
    keeps its collected value.  So a required field that the completion
    returns with a falsy value (empty string, 0, false, null) is missing
    after the merge even if it was collected before, and a field the
    completion does not mention is missing after the merge exactly when
    it was before. *)
Theorem extracted_value_replaces_collected
    (d : gmap string JS.value) (l : list (string * JS.value)) (f : string) :
  (∀ v, JS.object_props l !! f = Some v →
        JS.spread2 d (Some (JS.VObj l)) !! f = Some v
        ∧ (In f requiredFields →
           (In f (missing (JS.spread2 d (Some (JS.VObj l)))) ↔ JS.truthy v = false)))
  ∧ (JS.object_props l !! f = None →
       JS.spread2 d (Some (JS.VObj l)) !! f = d !! f
       ∧ (In f (missing (JS.spread2 d (Some (JS.VObj l)))) ↔ In f (missing d)))
  ∧ (∀ v, JS.object_props (l ++ [(f, v)]) !! f = Some v).
Proof.
  split; [| split].
  - intros v Hv. rewrite missing_In, spread2_lookup, Hv. split; [reflexivity |].
    intros Hreq. simpl. tauto.
  - intros Hv. rewrite !missing_In, spread2_lookup, Hv. split; reflexivity.
  - intros v. rewrite object_props_snoc. apply lookup_insert_eq.
Qed.

Lemma extracted_value_replaces_collected_witness :
  In "status"
     (missing (JS.spread2 complete_data
                 (Some (JS.VObj [("status", JS.VStr "x"); ("status", JS.VStr "")])))).
Proof.
  refine (proj2 (proj2 (proj1 (extracted_value_replaces_collected complete_data
            [("status", JS.VStr "x"); ("status", JS.VStr "")] "status")
            (JS.VStr "") _) _) _).
  - vm_compute. reflexivity.
  - vm_compute. tauto.
  - reflexivity.
Defined.

(** X15: filling and confirming compose.  When a turn works on a
    session (the one stored under the key, or a new one if the key
    finds nothing) and its completion brings the collected fields to
    completion, the reply says step 10 of 10, and a next turn matching
    [/yes/i], the insert succeeding, books the record built from the
    merged fields and ends the session. *)
Theorem completed_fields_then_yes_books
    (e1 e2 : env) (sid msg1 msg2 : string) (w : world) (s : session) (v : JS.value) :
  mongo e1 = None → openai e1 = None → mongo e2 = None → openai e2 = None →
  insertOne e2 = None →
  sid ≠ "" → msg1 ≠ "" →
  current e1 sid w = Some s →
  missing (data s) ≠ [] →
  completion e1 = Parsed v → v ≠ JS.VNull →
  missing (JS.spread2 (data s) (get_prop v "data")) = [] →
  Regex.test yesRegex msg2 = true →
  let collected := JS.spread2 (data s) (get_prop v "data") in
  let w1 := snd (handler e1 (Body (Some sid) (Some msg1)) w) in
  fst (handler e1 (Body (Some sid) (Some msg1)) w)
  = {| statusCode := 200; payload := Prompt (get_prop v "nextPrompt") 10 10 |}
  ∧ handler e2 (Body (Some sid) (Some msg2)) w1
    = ({| statusCode := 200;
          payload := Booked "Your appointment is confirmed! Thank you."
                       (booking_doc e2 sid collected) true |},
       without_session sid (with_document (booking_doc e2 sid collected) w)).
Proof.
  intros Hm1 Ho1 Hm2 Ho2 Hi2 Hsid Hmsg1 Hcur Hmiss Hc Hv Hfull Hyes collected w1.
  assert (E1 : handler e1 (Body (Some sid) (Some msg1)) w
               = ({| statusCode := 200;
                     payload := Prompt (get_prop v "nextPrompt") 10 10 |},
                  with_session sid (set_data collected s) w)).
  { rewrite (handler_merges e1 sid msg1 w s v) by assumption.
    fold collected. unfold collected at 1. rewrite Hfull. reflexivity. }
  split; [rewrite E1; reflexivity |].
  unfold w1. rewrite E1. cbn [snd].
  rewrite (handler_books e2 sid msg2 _ (set_data collected s));
    try assumption.
  - cbn [data set_data]. f_equal. apply world_eq; [| reflexivity | reflexivity].
    simpl. apply delete_insert_eq.
  - simpl. apply lookup_insert_eq.
Qed.

Lemma completed_fields_then_yes_books_witness :
  fst (handler (env_with None (Parsed (JS.VObj [("data", JS.VObj [("dob", JS.VStr "1990-01-01")]);
                                               ("nextPrompt", JS.VStr "Shall I book it?")])))
         (Body (Some "abc") (Some "born 1990-01-01")) almost_complete_world)
  = {| statusCode := 200;
       payload := Prompt (Some (JS.VStr "Shall I book it?")) 10 10 |}.
Proof.
  refine (proj1 (completed_fields_then_yes_books
                   (env_with None (Parsed (JS.VObj [("data", JS.VObj [("dob", JS.VStr "1990-01-01")]);
                                                    ("nextPrompt", JS.VStr "Shall I book it?")])))
                   calm_env "abc" "born 1990-01-01" "yes" almost_complete_world
                   {| step := 0; data := delete "dob" complete_data;
                      lastActive := 2000; started := false |}
                   (JS.VObj [("data", JS.VObj [("dob", JS.VStr "1990-01-01")]);
                             ("nextPrompt", JS.VStr "Shall I book it?")])
                   _ _ _ _ _ _ _ _ _ _ _ _ _)).
  - reflexivity.
  - reflexivity.
  - reflexivity.
  - reflexivity.
  - reflexivity.
  - discriminate.
  - discriminate.
  - vm_compute. reflexivity.
  - vm_compute. discriminate.
  - reflexivity.
  - discriminate.
  - vm_compute. reflexivity.
  - vm_compute. reflexivity.
Defined.

End SessionLifecycle.

(** *** The seven-field handler, turn by turn *)

Section CursorTurns.
Import CursorFlow Conversation.

(** The turn at the end of the cursor: the document is stored. *)
Lemma cursor_book (ce : env) (sid msg reply : string) (cw : world) (s : session) :
  init ce = None → aiResponse ce = JS.Ok reply → insertOne ce = None →
  sid ≠ "" → msg ≠ "" →
  sessions cw !! sid = Some s → (7 <= step s)%nat →
  handler ce (Body (Some sid) (Some msg)) cw
  = ({| statusCode := 200;
        payload := Completed reply (cursor_doc ce sid (save_previous msg s)) true |},
     {| sessions := delete sid (sessions cw);
        collection := collection cw ++ [cursor_doc ce sid (save_previous msg s)] |}).
Proof.
  intros Hi Ha Hins Hsid Hmsg Hs Hge.
  rewrite cursor_handler_step
    by (try assumption; exact (cursor_stored_not_inherited sid cw s Hs)).
  cbv zeta. rewrite (cursor_current_stored sid msg cw s Hs), save_previous_step.
  destruct (Nat.leb_spec 7 (step s)); [| lia]. rewrite Hins, Ha. reflexivity.
Qed.

(** X16: a conversation with the seven-field handler books on the
    eighth message.  From a key without a session, and which is not the
    name of a property of [Object.prototype], eight messages, the
    collaborators answering each time, get the replies step 1 of 7 to
    step 7 of 7 and then the completed appointment; the record holds the
    second to eighth messages, whole, as name, email, phoneNumber,
    doctor, service, date and time; the first message is stored nowhere;
    the session is gone at the end. *)
Theorem cursor_books_on_the_eighth_message
    (sid : string) (cw : world)
    (e1 e2 e3 e4 e5 e6 e7 e8 : env)
    (m1 m2 m3 m4 m5 m6 m7 m8 r1 r2 r3 r4 r5 r6 r7 r8 : string) :
  Forall (λ t : env * string * string,
            init t.1.1 = None ∧ aiResponse t.1.1 = JS.Ok t.2 ∧ t.1.2 ≠ "")
         [ (e1, m1, r1); (e2, m2, r2); (e3, m3, r3); (e4, m4, r4);
           (e5, m5, r5); (e6, m6, r6); (e7, m7, r7); (e8, m8, r8) ] →
  insertOne e8 = None →
  sid ≠ "" →
  sessions cw !! sid = None →
  JS.on_object_prototype sid = false →
  let doc : gmap string JS.value :=
    <["sessionId" := JS.VStr sid]>
      (<["createdAt" := JS.VDate (createdAt e8)]>
         (<["time" := JS.VStr m8]>
            (<["date" := JS.VStr m7]>
               (<["service" := JS.VStr m6]>
                  (<["doctor" := JS.VStr m5]>
                     (<["phoneNumber" := JS.VStr m4]>
                        (<["email" := JS.VStr m3]>
                           (<["name" := JS.VStr m2]> ∅)))))))) in
  cursor_run sid
    [ (e1, m1); (e2, m2); (e3, m3); (e4, m4); (e5, m5); (e6, m6); (e7, m7); (e8, m8) ]
    cw
  = ([ {| statusCode := 200; payload := Next r1 1 7 |};
       {| statusCode := 200; payload := Next r2 2 7 |};
       {| statusCode := 200; payload := Next r3 3 7 |};
       {| statusCode := 200; payload := Next r4 4 7 |};
       {| statusCode := 200; payload := Next r5 5 7 |};
       {| statusCode := 200; payload := Next r6 6 7 |};
       {| statusCode := 200; payload := Next r7 7 7 |};
       {| statusCode := 200; payload := Completed r8 doc true |} ],
     {| sessions := sessions cw; collection := collection cw ++ [doc] |}).
Proof.
  intros Hall Hins Hsid Habsent Hplain doc.
  repeat match goal with
         | H : Forall _ (_ :: _) |- _ => apply Forall_cons in H as [(? & ? & ?) H]
         end.
  cbn [fst snd] in *. unfold cursor_run.
  rewrite (cursor_first_turn e1 sid m1 r1 cw) by assumption.
  change {| sessions := <[sid := {| step := 1; data := ∅ |}]> (sessions cw);
            collection := collection cw |}
    with (cursor_with sid {| step := 1; data := ∅ |} cw).
  rewrite (cursor_advance e2 sid m2 r2 _ {| step := 1; data := ∅ |});
    [| assumption.. | apply lookup_insert_eq | cbn; lia].
  rewrite (cursor_advance e3 sid m3 r3 _ _ ltac:(assumption) ltac:(assumption)
             ltac:(assumption) ltac:(assumption) (lookup_insert_eq _ _ _))
    by (cbn; lia).
  rewrite (cursor_advance e4 sid m4 r4 _ _ ltac:(assumption) ltac:(assumption)
             ltac:(assumption) ltac:(assumption) (lookup_insert_eq _ _ _))
    by (cbn; lia).
  rewrite (cursor_advance e5 sid m5 r5 _ _ ltac:(assumption) ltac:(assumption)
             ltac:(assumption) ltac:(assumption) (lookup_insert_eq _ _ _))
    by (cbn; lia).
  rewrite (cursor_advance e6 sid m6 r6 _ _ ltac:(assumption) ltac:(assumption)
             ltac:(assumption) ltac:(assumption) (lookup_insert_eq _ _ _))
    by (cbn; lia).
  rewrite (cursor_advance e7 sid m7 r7 _ _ ltac:(assumption) ltac:(assumption)
             ltac:(assumption) ltac:(assumption) (lookup_insert_eq _ _ _))
    by (cbn; lia).
  rewrite (cursor_book e8 sid m8 r8 _ _ ltac:(assumption) ltac:(assumption)
             ltac:(assumption) ltac:(assumption) ltac:(assumption)
             (lookup_insert_eq _ _ _))
    by (cbn; lia).
  cbn [step data save_previous cursor_with sessions collection cursor_doc
       Nat.ltb Nat.leb andb List.length appointmentFields Nat.sub].
  repeat f_equal.
  rewrite !delete_insert_eq. apply delete_id. exact Habsent.
Qed.

Lemma cursor_books_on_the_eighth_message_witness :
  ∃ doc : gmap string JS.value,
    snd (cursor_run "abc"
           [ (cursor_env, "Hello"); (cursor_env, "Jane Doe");
             (cursor_env, "jane@example.com"); (cursor_env, "5551234567");
             (cursor_env, "Dr. Alice Smith"); (cursor_env, "cardiology");
             (cursor_env, "03/03/2026"); (cursor_env, "10:30") ]
           cursor_world)
    = {| sessions := ∅; collection := [doc] |}
    ∧ doc !! "name" = Some (JS.VStr "Jane Doe")
    ∧ doc !! "time" = Some (JS.VStr "10:30").
Proof.
  eexists. split.
  - rewrite (cursor_books_on_the_eighth_message "abc" cursor_world
               cursor_env cursor_env cursor_env cursor_env
               cursor_env cursor_env cursor_env cursor_env
               "Hello" "Jane Doe" "jane@example.com" "5551234567"
               "Dr. Alice Smith" "cardiology" "03/03/2026" "10:30"
               "Nice to meet you! What is your email address?"
               "Nice to meet you! What is your email address?"
               "Nice to meet you! What is your email address?"
               "Nice to meet you! What is your email address?"
               "Nice to meet you! What is your email address?"
               "Nice to meet you! What is your email address?"
               "Nice to meet you! What is your email address?"
               "Nice to meet you! What is your email address?").
    + reflexivity.
    + repeat (apply Forall_cons; split;
              [split; [reflexivity | split; [reflexivity | discriminate]] |]).
      apply Forall_nil_2.
    + reflexivity.
    + discriminate.
    + reflexivity.
    + reflexivity.
  - split; vm_compute; reflexivity.
Defined.

(** X17: when the insert fails on the booking turn of the seven-field
    handler, the caller gets 500 and the session stays, with the message
    of that turn already saved as the time; the message of a retry
    replaces it, so the record that the retry stores carries the retry's
    message as the time. *)
Theorem cursor_retry_replaces_the_time
    (e1 e2 : env) (sid msg1 msg2 reply : string) (cw : world) (s : session)
    (err : JS.error) :
  init e1 = None → init e2 = None →
  insertOne e1 = Some err → insertOne e2 = None → aiResponse e2 = JS.Ok reply →
  sid ≠ "" → msg1 ≠ "" → msg2 ≠ "" →
  sessions cw !! sid = Some s → step s = 7%nat →
  let cw1 := snd (handler e1 (Body (Some sid) (Some msg1)) cw) in
  fst (handler e1 (Body (Some sid) (Some msg1)) cw) = cursor_error err
  ∧ sessions cw1 !! sid
    = Some {| step := 7; data := <["time" := JS.VStr msg1]> (data s) |}
  ∧ collection cw1 = collection cw
  ∧ ∃ doc, handler e2 (Body (Some sid) (Some msg2)) cw1
           = ({| statusCode := 200; payload := Completed reply doc true |},
              {| sessions := delete sid (sessions cw);
                 collection := collection cw ++ [doc] |})
           ∧ doc !! "time" = Some (JS.VStr msg2).
Proof.
  intros Hi1 Hi2 Hins1 Hins2 Ha2 Hsid Hm1 Hm2 Hs H7 cw1.
  assert (Hsave : ∀ m s0, step s0 = 7%nat →
                          save_previous m s0
                          = {| step := 7; data := <["time" := JS.VStr m]> (data s0) |}).
  { intros m s0 Hs0. unfold save_previous. rewrite Hs0. reflexivity. }
  assert (E1 : handler e1 (Body (Some sid) (Some msg1)) cw
               = (cursor_error err,
                  cursor_with sid
                    {| step := 7; data := <["time" := JS.VStr msg1]> (data s) |} cw)).
  { rewrite cursor_handler_step
      by (try assumption; exact (cursor_stored_not_inherited sid cw s Hs)).
    cbv zeta.
    rewrite (cursor_current_stored sid msg1 cw s Hs), (Hsave msg1 s H7).
    cbn [step Nat.leb]. rewrite Hins1. reflexivity. }
  unfold cw1. rewrite E1. cbn [fst snd].
  split; [reflexivity |]. split; [apply lookup_insert_eq |]. split; [reflexivity |].
  eexists. split.
  - rewrite (cursor_book e2 sid msg2 reply _
               {| step := 7; data := <["time" := JS.VStr msg1]> (data s) |});
      try assumption; [| apply lookup_insert_eq | cbn; lia].
    cbn [cursor_with sessions collection]. rewrite delete_insert_eq. reflexivity.
  - unfold cursor_doc.
    rewrite (Hsave msg2 {| step := 7; data := <["time" := JS.VStr msg1]> (data s) |}
               eq_refl).
    cbn [data].
    by rewrite lookup_insert_ne, lookup_insert_ne, lookup_insert_eq.
Qed.

(** X18: when the model's reply fails in the seven-field handler, the
    caller gets 500 but the turn's writes stay.  On the booking turn the
    record is already stored and the session already deleted; on an
    earlier turn the message is already saved under the field of the
    previous question while the cursor has not moved, so the next
    message overwrites that field. *)
Theorem cursor_reply_failure_keeps_the_writes
    (ce : env) (sid msg : string) (cw : world) (s : session) (err : JS.error) :
  init ce = None → aiResponse ce = JS.Throw err →
  sid ≠ "" → msg ≠ "" →
  sessions cw !! sid = Some s →
  ((7 <= step s)%nat → insertOne ce = None →
     handler ce (Body (Some sid) (Some msg)) cw
     = (cursor_error err,
        {| sessions := delete sid (sessions cw);
           collection := collection cw ++ [cursor_doc ce sid (save_previous msg s)] |}))
  ∧ ((step s < 7)%nat →
       handler ce (Body (Some sid) (Some msg)) cw
       = (cursor_error err, cursor_with sid (save_previous msg s) cw)
       ∧ step (save_previous msg s) = step s
       ∧ ∀ field, appointmentFields !! (step s - 1)%nat = Some field →
                  (0 < step s)%nat →
                  data (save_previous msg s) !! field = Some (JS.VStr msg)).
Proof.
  intros Hi Ha Hsid Hmsg Hs.
  pose proof (cursor_handler_step ce sid msg cw Hi Hsid Hmsg
                (cursor_stored_not_inherited sid cw s Hs)) as E.
  cbv zeta in E. rewrite (cursor_current_stored sid msg cw s Hs), save_previous_step in E.
  rewrite Ha in E. split.
  - intros H7 Hins. rewrite E, Hins. destruct (Nat.leb_spec 7 (step s)); [| lia].
    reflexivity.
  - intros Hlt. rewrite E. destruct (Nat.leb_spec 7 (step s)); [lia |].
    split; [reflexivity |]. split; [apply save_previous_step |].
    intros field Hf Hpos. unfold save_previous.
    destruct (Nat.ltb_spec 0 (step s)); [| lia].
    destruct (Nat.leb_spec (step s) (List.length appointmentFields));
      [| cbn in *; lia].
    cbn [andb]. rewrite Hf. cbn [data]. apply lookup_insert_eq.
Qed.

Lemma cursor_retry_replaces_the_time_witness :
  sessions (snd (handler cursor_store_down (Body (Some "abc") (Some "10:30"))
                   cursor_last_world)) !! "abc"
  = Some {| step := 7;
            data := <["time" := JS.VStr "10:30"]> {[ "name" := JS.VStr "Jane Doe" ]} |}.
Proof.
  refine (proj1 (proj2 (cursor_retry_replaces_the_time cursor_store_down cursor_env
            "abc" "10:30" "please try again"
            "Nice to meet you! What is your email address?" cursor_last_world
            {| step := 7; data := {[ "name" := JS.VStr "Jane Doe" ]} |}
            (JS.ServiceError "write failed") _ _ _ _ _ _ _ _ _ _))).
  - reflexivity.
  - reflexivity.
  - reflexivity.
  - reflexivity.
  - reflexivity.
  - discriminate.
  - discriminate.
  - discriminate.
  - vm_compute; reflexivity.
  - reflexivity.
Defined.

Lemma cursor_reply_failure_keeps_the_writes_witness :
  handler cursor_model_down (Body (Some "abc") (Some "10:30")) cursor_last_world
  = (cursor_error (JS.ServiceError "Request timed out."),
     {| sessions := delete "abc" (sessions cursor_last_world);
        collection :=
          collection cursor_last_world
          ++ [cursor_doc cursor_model_down "abc"
                (save_previous "10:30"
                   {| step := 7; data := {[ "name" := JS.VStr "Jane Doe" ]} |})] |}).
Proof.
  refine (proj1 (cursor_reply_failure_keeps_the_writes cursor_model_down "abc" "10:30"
                   cursor_last_world
                   {| step := 7; data := {[ "name" := JS.VStr "Jane Doe" ]} |}
                   (JS.ServiceError "Request timed out.") _ _ _ _ _) _ _).
  - reflexivity.
  - reflexivity.
  - discriminate.
  - discriminate.
  - vm_compute; reflexivity.
  - cbn; lia.
  - reflexivity.
Defined.

End CursorTurns.

(* ===================================================================== *)
(** ** The rate limiter *)
(* ===================================================================== *)

Section RateLimiter.
Import JS Gateway RateLimit.

Lemma isRateLimited_eq (now : Z) (sid : string) (cache : gmap string (list Z)) :
  isRateLimited now sid cache
  = if (10 <=? List.length (recent now (recorded sid cache)))%nat
    then (Ok true, cache)
    else (Ok false, <[sid := recent now (recorded sid cache) ++ [now]]> cache).
Proof.
  unfold isRateLimited, recorded, recent, RATE_LIMIT_MAX_REQUESTS.
  destruct (cache !! sid) as [l|] eqn:Hl.
  - rewrite Hl. reflexivity.
  - rewrite lookup_insert_eq. cbn. rewrite insert_insert_eq. reflexivity.
Qed.

Lemma recorded_insert (sid : string) (l : list Z) (cache : gmap string (list Z)) :
  recorded sid (<[sid := l]> cache) = l.
Proof. unfold recorded. rewrite lookup_insert_eq. reflexivity. Qed.

Lemma recent_length (now : Z) (l : list Z) :
  (List.length (recent now l) <= List.length l)%nat.
Proof. apply List.filter_length_le. Qed.

Lemma recent_all (now lo : Z) (l : list Z) :
  (now < lo + RATE_LIMIT_WINDOW)%Z →
  List.Forall (fun t => (lo <= t)%Z) l →
  recent now l = l.
Proof.
  unfold recent, RATE_LIMIT_WINDOW. intros Hnow Hl.
  induction Hl as [|x l Hx _ IH]; [reflexivity|].
  cbn [List.filter]. rewrite IH.
  destruct (Z.gtb_spec x (now - 60000)) as [_|Hle]; [reflexivity|lia].
Qed.

Lemma recent_none (now : Z) (l : list Z) :
  List.Forall (fun t => (t <= now - RATE_LIMIT_WINDOW)%Z) l →
  recent now l = [].
Proof.
  unfold recent, RATE_LIMIT_WINDOW. intros Hl.
  induction Hl as [|x l Hx _ IH]; [reflexivity|].
  cbn [List.filter]. rewrite IH.
  destruct (Z.gtb_spec x (now - 60000)) as [Hgt|_]; [lia|reflexivity].
Qed.

(** X19: one call of [isRateLimited].  It refuses exactly when ten or
    more of the recorded timestamps of the key are newer than one minute
    before now.  A refused call leaves the cache as it was, so it is not
    recorded.  An accepted call drops the older timestamps and records
    now, which leaves at most ten; when all recorded timestamps are a
    minute old or more the call is accepted and only now is recorded.
    The lists of the other keys are not touched. *)
Theorem rate_limiter_contract (now : Z) (sid : string) (cache : gmap string (list Z)) :
  let old := recorded sid cache in
  let r := isRateLimited now sid cache in
  (fst r = Ok true ↔ (10 <= List.length (recent now old))%nat)
  ∧ (fst r = Ok false ↔ (List.length (recent now old) < 10)%nat)
  ∧ (fst r = Ok true → snd r = cache)
  ∧ (fst r = Ok false →
       recorded sid (snd r) = recent now old ++ [now]
       ∧ (List.length (recorded sid (snd r)) <= 10)%nat)
  ∧ (List.Forall (fun t => (t <= now - RATE_LIMIT_WINDOW)%Z) old →
       fst r = Ok false ∧ recorded sid (snd r) = [now])
  ∧ (∀ k, k ≠ sid → snd r !! k = cache !! k).
Proof.
  intros old r. subst r old. rewrite isRateLimited_eq.
  destruct (Nat.leb_spec 10 (List.length (recent now (recorded sid cache)))) as [Hge|Hlt];
    cbn [fst snd].
  - split; [split; [intros _; exact Hge|reflexivity]|].
    split; [split; [discriminate|lia]|].
    split; [reflexivity|].
    split; [discriminate|].
    split; [|reflexivity].
    intros Hold. rewrite (recent_none _ _ Hold) in Hge. cbn in Hge. lia.
  - rewrite recorded_insert.
    split; [split; [discriminate|lia]|].
    split; [split; [intros _; exact Hlt|reflexivity]|].
    split; [discriminate|].
    split; [intros _; split; [reflexivity|rewrite length_app; cbn; lia]|].
    split.
    + intros Hold. rewrite (recent_none _ _ Hold). split; reflexivity.
    + intros k Hk. rewrite lookup_insert_ne by congruence. reflexivity.
Qed.

Lemma arrivals_cons (sid : string) (t : Z) (rest : list Z) (cache : gmap string (list Z)) :
  arrivals sid (t :: rest) cache
  = match isRateLimited t sid cache with
    | (Ok b, c) =>
        match arrivals sid rest c with
        | (Ok bs, c') => (Ok (b :: bs), c')
        | (Throw e, c') => (Throw e, c')
        end
    | (Throw e, c) => (Throw e, c)
    end.
Proof. reflexivity. Qed.

Lemma saturated (a b n : nat) :
  (10 <= a)%nat → (10 <= b)%nat →
  map (fun i => (10 <=? i)%nat) (seq a n) = map (fun i => (10 <=? i)%nat) (seq b n).
Proof.
  revert a b. induction n as [|n IH]; intros a b Ha Hb; [reflexivity|].
  cbn [seq map]. rewrite (IH (S a) (S b)) by lia.
  f_equal.
  destruct (Nat.leb_spec 10 a), (Nat.leb_spec 10 b); (reflexivity || lia).
Qed.

Lemma arrivals_in_window (sid : string) (lo : Z) (times : list Z) :
  List.Forall (fun t => (lo <= t < lo + RATE_LIMIT_WINDOW)%Z) times →
  ∀ cache,
    List.Forall (fun t => (lo <= t)%Z) (recorded sid cache) →
    fst (arrivals sid times cache)
    = Ok (map (fun i => (10 <=? i)%nat)
            (seq (List.length (recorded sid cache)) (List.length times)))
    ∧ recorded sid (snd (arrivals sid times cache))
      = recorded sid cache ++ take (10 - List.length (recorded sid cache)) times.
Proof.
  induction 1 as [|t rest [Hlo Hhi] _ IH]; intros cache Hold.
  - cbn. rewrite take_nil, app_nil_r. split; reflexivity.
  - rewrite arrivals_cons, isRateLimited_eq, (recent_all t lo _ Hhi Hold).
    destruct (Nat.leb_spec 10 (List.length (recorded sid cache))) as [Hge|Hlt].
    + destruct (IH cache Hold) as [Hres Hrec].
      destruct (arrivals sid rest cache) as [[bs|e] c']; cbn [fst snd] in *;
        [|discriminate].
      injection Hres as ->. split.
      * cbn [List.length seq map]. f_equal. f_equal.
        -- destruct (Nat.leb_spec 10 (List.length (recorded sid cache)));
             [reflexivity|lia].
        -- apply saturated; lia.
      * rewrite Hrec.
        replace (10 - List.length (recorded sid cache))%nat with 0%nat by lia.
        reflexivity.
    + assert (Hnew : List.Forall (fun t0 => (lo <= t0)%Z)
                       (recorded sid (<[sid := recorded sid cache ++ [t]]> cache))).
      { rewrite recorded_insert. apply Forall_app. split; [exact Hold|].
        constructor; [lia|constructor]. }
      destruct (IH _ Hnew) as [Hres Hrec]. rewrite recorded_insert in Hres, Hrec.
      destruct (arrivals sid rest (<[sid := recorded sid cache ++ [t]]> cache))
        as [[bs|e] c']; cbn [fst snd] in *; [|discriminate].
      injection Hres as ->. split.
      * cbn [List.length seq map]. f_equal. f_equal.
        -- destruct (Nat.leb_spec 10 (List.length (recorded sid cache)));
             [lia|reflexivity].
        -- rewrite length_app. cbn [List.length].
           replace (List.length (recorded sid cache) + 1)%nat
             with (S (List.length (recorded sid cache))) by lia.
           reflexivity.
      * rewrite Hrec, length_app. cbn [List.length].
        destruct (10 - List.length (recorded sid cache))%nat as [|m] eqn:Hm; [lia|].
        replace (10 - (List.length (recorded sid cache) + 1))%nat with m by lia.
        cbn [take]. rewrite <- app_assoc. reflexivity.
Qed.

(** X20: of the requests of a new key whose clock readings all lie
    within one span shorter than the window, in any order, exactly the
    first ten are accepted; the others are refused, and the cache then
    holds the first ten readings. *)
Theorem burst_allows_exactly_ten
    (sid : string) (lo : Z) (times : list Z) (cache : gmap string (list Z)) :
  cache !! sid = None →
  List.Forall (fun t => (lo <= t < lo + RATE_LIMIT_WINDOW)%Z) times →
  fst (arrivals sid times cache)
  = Ok (map (fun i => (10 <=? i)%nat) (seq 0 (List.length times)))
  ∧ recorded sid (snd (arrivals sid times cache)) = take 10 times.
Proof.
  intros Hnone Htimes.
  assert (Hrec : recorded sid cache = []) by (unfold recorded; rewrite Hnone; reflexivity).
  destruct (arrivals_in_window sid lo times Htimes cache) as [Hres Hafter].
  { rewrite Hrec. constructor. }
  rewrite Hrec in Hres, Hafter. exact (conj Hres Hafter).
Qed.

Lemma burst_allows_exactly_ten_witness :
  fst (arrivals "abc" [0; 5; 10; 15; 20; 25; 30; 35; 40; 45; 50; 59999]%Z ∅)
  = Ok [false; false; false; false; false; false; false; false; false; false;
        true; true]
  ∧ recorded "abc"
      (snd (arrivals "abc" [0; 5; 10; 15; 20; 25; 30; 35; 40; 45; 50; 59999]%Z ∅))
    = [0; 5; 10; 15; 20; 25; 30; 35; 40; 45]%Z.
Proof.
  apply (burst_allows_exactly_ten "abc" 0
           [0; 5; 10; 15; 20; 25; 30; 35; 40; 45; 50; 59999]%Z ∅).
  - reflexivity.
  - unfold RATE_LIMIT_WINDOW. repeat (constructor; [lia|]). constructor.
Defined.

End RateLimiter.

(* ===================================================================== *)
(** ** The guarded handler: the order of its checks; the cached history;
       the stored system prompt *)
(* ===================================================================== *)

Section GatewayOrder.
Import Gateway RateLimit.

(** X21: in the guarded handler a valid request refused by the rate
    limiter is answered 429 whatever the key check and the processing
    would have given, and changes nothing.  A request that is not
    refused is recorded by the limiter whatever follows: a missing API
    key (500), an error of the processing (the status of the [catch]
    block) or a reply (200). *)
Theorem rate_limit_precedes_processing
    (e : env) (sid msg : string) (cache : gmap string (list Z)) :
  valid (validateInput (Some (VStr sid)) (Some (VStr msg))) = true →
  let n := List.length (recent (now e) (recorded sid cache)) in
  let ev := {| httpMethod := "POST";
               body := Fields (Some (VStr sid)) (Some (VStr msg)) |} in
  ((10 <= n)%nat →
     handler e ev cache
     = (Ok {| statusCode := 429;
              content := RateLimited
                "Rate limit exceeded. Please wait before sending another message." 60 |},
        cache))
  ∧ ((n < 10)%nat →
       handler e ev cache
       = (Ok (if negb (apiKey e) then
                {| statusCode := 500; content := ErrorBody "OpenAI API key not configured" |}
              else
                match processing e with
                | Ok reply => {| statusCode := 200; content := Reply reply |}
                | Throw err => catch_response err
                end),
          <[sid := recent (now e) (recorded sid cache) ++ [now e]]> cache)).
Proof.
  intros Hv n ev. subst n ev. rewrite handler_post, Hv. cbn [negb].
  unfold validated, bind. rewrite isRateLimited_eq.
  destruct (Nat.leb_spec 10 (List.length (recent (now e) (recorded sid cache))))
    as [Hge|Hlt].
  - split; [intros _; reflexivity|lia].
  - split; [lia|intros _].
    destruct (apiKey e); cbn [negb]; [|reflexivity].
    unfold lift. destruct (processing e); reflexivity.
Qed.

Lemma rate_limit_precedes_processing_witness :
  handler gateway_env
    {| httpMethod := "POST";
       body := Fields (Some (VStr "abc")) (Some (VStr "Hello")) |} ∅
  = (Ok {| statusCode := 200; content := Reply "How can I help you?" |},
     {[ "abc" := [2000%Z] ]}).
Proof.
  refine (proj2 (rate_limit_precedes_processing gateway_env "abc" "Hello" ∅ _) _).
  - reflexivity.
  - vm_compute. lia.
Defined.

End GatewayOrder.

Section CachedHistory.
Import History.

Lemma push_capped_spec (h : list message) (m : message) :
  push_capped h m = drop (List.length h + 1 - 50) (h ++ [m]).
Proof.
  unfold push_capped. rewrite length_app. cbn [List.length].
  destruct (Nat.ltb_spec 50 (List.length h + 1)) as [Hlt|Hge]; [reflexivity|].
  replace (List.length h + 1 - 50)%nat with 0%nat by lia. reflexivity.
Qed.

Lemma push_capped_facts (h : list message) (m : message) :
  last (push_capped h m) = Some m
  ∧ List.length (push_capped h m) = Nat.min (List.length h + 1) 50
  ∧ push_capped h m `suffix_of` (h ++ [m]).
Proof.
  rewrite push_capped_spec. split; [|split].
  - destruct (Nat.le_gt_cases (List.length h + 1 - 50) (List.length h)) as [Hle|Hgt];
      [|lia].
    rewrite drop_app_le by exact Hle. apply last_snoc.
  - rewrite length_drop, length_app. cbn [List.length]. lia.
  - apply suffix_drop.
Qed.

(** X25: when the session has a cached history and the write succeeds,
    [saveMessage] returns the message and caches the last 50 entries of
    the history with the message appended.  [getSessionHistory] then
    returns that list without consulting the database; the list ends
    with the message and holds at most 50 entries. *)
Theorem saved_message_is_read_back
    (e e' : env) (sid role content : string) (h : list message)
    (cache : gmap string (list message)) :
  cache !! sid = Some h → getCollection e = None → insertOne e = None →
  let m := {| sessionId := sid; role := role; content := content;
              createdAt := now e |} in
  let kept := drop (List.length h + 1 - 50) (h ++ [m]) in
  saveMessage e sid role content cache = (Ok m, <[sid := kept]> cache)
  ∧ getSessionHistory e' sid (<[sid := kept]> cache) = (Ok kept, <[sid := kept]> cache)
  ∧ last kept = Some m
  ∧ List.length kept = Nat.min (List.length h + 1) 50.
Proof.
  intros Hc Hg Hi m kept. subst m kept. rewrite <- push_capped_spec.
  split; [|split].
  - unfold saveMessage, bind. rewrite Hg, Hi. cbn [await ret]. rewrite Hc. reflexivity.
  - unfold getSessionHistory. rewrite lookup_insert_eq. reflexivity.
  - destruct (push_capped_facts h
                {| sessionId := sid; role := role; content := content;
                   createdAt := now e |}) as (Hlast & Hlen & _).
    split; assumption.
Qed.

Lemma saved_message_is_read_back_witness :
  let m := {| sessionId := "abc"; role := "assistant"; content := "hello";
              createdAt := 3000 |} in
  let h := repeat {| sessionId := "abc"; role := "user"; content := "hi";
                     createdAt := 1000 |} 50 in
  let kept := drop (List.length h + 1 - 50) (h ++ [m]) in
  saveMessage history_env "abc" "assistant" "hello" history_cache
  = (Ok m, <["abc" := kept]> history_cache)
  ∧ getSessionHistory history_down "abc" (<["abc" := kept]> history_cache)
    = (Ok kept, <["abc" := kept]> history_cache)
  ∧ last kept = Some m
  ∧ List.length kept = Nat.min (List.length h + 1) 50.
Proof.
  apply (saved_message_is_read_back history_env history_down "abc" "assistant" "hello"
           (repeat {| sessionId := "abc"; role := "user"; content := "hi";
                      createdAt := 1000 |} 50) history_cache).
  - vm_compute. reflexivity.
  - reflexivity.
  - reflexivity.
Defined.

(** X26: [saveMessage] leaves [sessionCache] as it was when the session
    has no cached history or when a database call fails: it never
    creates an entry, and a failed write is not cached.  It throws the
    error of the first database call that failed and returns the
    message otherwise. *)
Theorem save_never_starts_a_cache
    (e : env) (sid role content : string) (cache : gmap string (list message)) :
  cache !! sid = None ∨ getCollection e ≠ None ∨ insertOne e ≠ None →
  snd (saveMessage e sid role content cache) = cache
  ∧ fst (saveMessage e sid role content cache)
    = match getCollection e, insertOne e with
      | Some err, _ => Throw err
      | None, Some err => Throw err
      | None, None =>
          Ok {| sessionId := sid; role := role; content := content;
                createdAt := now e |}
      end.
Proof.
  intros H. unfold saveMessage, bind.
  destruct (getCollection e) as [err1|] eqn:Hg; cbn [await ret throw];
    [split; reflexivity|].
  destruct (insertOne e) as [err2|] eqn:Hi; cbn [await ret throw];
    [split; reflexivity|].
  destruct H as [Hc|[Hn|Hn]]; try congruence.
  rewrite Hc. split; reflexivity.
Qed.

Lemma save_never_starts_a_cache_witness :
  snd (saveMessage history_down "abc" "user" "hi" history_cache) = history_cache.
Proof.
  refine (proj1 (save_never_starts_a_cache history_down "abc" "user" "hi"
                   history_cache _)).
  right. right. discriminate.
Defined.

End CachedHistory.

Section StoredPrompt.
Import InMemoryStore.

(** X27: the system prompt of a session is the one of the first call
    of [getMessages] for its key.  On an unknown key a non-empty prompt
    creates the history with that prompt alone; any later call returns
    that history whatever prompt it passes, and changes nothing.  On an
    unknown key a call without a prompt returns [undefined] and creates
    nothing. *)
Theorem first_prompt_is_kept
    (sid p : string) (q : option string) (st : gmap string (list value)) :
  st !! sid = None → p ≠ "" →
  let l := [VObj [("role", VStr "system"); ("content", VStr p)]] in
  getMessages sid (Some p) st = (Ok (Some l), <[sid := l]> st)
  ∧ getMessages sid q (<[sid := l]> st) = (Ok (Some l), <[sid := l]> st)
  ∧ (truthy_str q = false → getMessages sid q st = (Ok None, st)).
Proof.
  intros Hs Hp l. subst l. unfold getMessages. rewrite Hs.
  assert (Ht : truthy_str (Some p) = true).
  { cbn. destruct (String.eqb_spec p ""); [contradiction|reflexivity]. }
  rewrite Ht. cbn [negb default]. rewrite !lookup_insert_eq.
  split; [reflexivity|]. split; [reflexivity|].
  intros ->. reflexivity.
Qed.

Lemma first_prompt_is_kept_witness :
  getMessages "abc" (Some "Be brief.") ∅
  = (Ok (Some [VObj [("role", VStr "system"); ("content", VStr "Be brief.")]]),
     {[ "abc" := [VObj [("role", VStr "system"); ("content", VStr "Be brief.")]] ]}).
Proof.
  refine (proj1 (first_prompt_is_kept "abc" "Be brief." None ∅ _ _)).
  - reflexivity.
  - discriminate.
Defined.

End StoredPrompt.

(* ===================================================================== *)
(** ** The handler that offers [book_appointment] *)
(* ===================================================================== *)

Section FunctionCallingHandler.
Import FunctionCalling.

Variable stringify : gmap string string -> string.

Lemma appendMessage_rejects (sid : string) (msg : value) (st : gmap string (list value)) :
  InMemoryStore.appendMessage sid msg st
  = (Throw (ReferenceError "getMessages is not defined"), st).
Proof. reflexivity. Qed.

Lemma systemPrompt_truthy (c m : string) :
  truthy_str (Some (systemPrompt stringify c m)) = true.
Proof. unfold systemPrompt, prompt_head. rewrite str_app_cons. reflexivity. Qed.

Lemma system_message_role (p : string) :
  filter_role "assistant" [VObj [("role", VStr "system"); ("content", VStr p)]] = Ok [].
Proof.
  cbn [filter_role prop object_props fold_left fst snd].
  rewrite lookup_insert_ne by discriminate. rewrite lookup_insert_eq. reflexivity.
Qed.

(** The store once [getMessages(sessionId, systemPrompt)] has run. *)
Lemma getMessages_prompt (sid p : string) (st : gmap string (list value)) :
  truthy_str (Some p) = true →
  ∃ l, InMemoryStore.getMessages sid (Some p) st
       = (Ok (Some l), match st !! sid with Some _ => st | None => <[sid := l]> st end)
       ∧ match st !! sid with
         | Some l0 => l = l0
         | None => l = [VObj [("role", VStr "system"); ("content", VStr p)]]
         end.
Proof.
  intros Hp. unfold InMemoryStore.getMessages.
  destruct (st !! sid) as [l0|] eqn:Hl.
  - exists l0. split; reflexivity.
  - rewrite Hp. cbn [negb]. rewrite lookup_insert_eq.
    eexists. split; reflexivity.
Qed.

Lemma getMessages_known (sid : string) (p : option string) (l : list value)
      (st : gmap string (list value)) :
  st !! sid = Some l → InMemoryStore.getMessages sid p st = (Ok (Some l), st).
Proof. intros Hl. unfold InMemoryStore.getMessages. rewrite Hl. reflexivity. Qed.

Lemma function_call_throws (e : env) (sid : string) (choice : item) (w : world) :
  ∃ err, function_call e sid choice w = (Throw err, w)
         ∧ (arguments e = Ok tt →
            catch_response err
            = {| statusCode := 500; content := ErrorBody "Internal server error" |}).
Proof.
  unfold function_call, bind, lift.
  destruct (arguments e) as [[]|err].
  - destruct (is_string "book_appointment" (choice !! "name")).
    + destruct (crypto e); eexists; (split; [reflexivity|intros _; reflexivity]).
    + cbn [ret]. unfold on_store. rewrite appendMessage_rejects.
      destruct w. eexists; (split; [reflexivity|intros _; reflexivity]).
  - exists err. split; [reflexivity|discriminate].
Qed.

Lemma answered_cases (e : env) (sid msg : string) (w : world) :
  match context e with
  | Throw err => answered stringify e sid msg w = (Throw err, w)
  | Ok c =>
      ∃ w1 l,
        rateLimitCache w1 = rateLimitCache w
        ∧ (∀ k, k ≠ sid → store w1 !! k = store w !! k)
        ∧ store w1 !! sid = Some l
        ∧ l = default [VObj [("role", VStr "system");
                             ("content", VStr (systemPrompt stringify c msg))]]
                (store w !! sid)
        ∧ match first e with
          | Throw err => answered stringify e sid msg w = (Throw err, w1)
          | Ok f =>
              match output f with
              | [] =>
                  answered stringify e sid msg w
                  = (Throw (TypeError
                              "Cannot read properties of undefined (reading 'type')"), w1)
              | choice :: _ =>
                  if is_string "function_call" (choice !! "type") then
                    ∃ err,
                      answered stringify e sid msg w = (Throw err, w1)
                      ∧ (arguments e = Ok tt →
                         catch_response err
                         = {| statusCode := 500;
                              content := ErrorBody "Internal server error" |})
                  else if truthy_str (output_text f) then
                    answered stringify e sid msg w
                    = (Throw (ReferenceError "getMessages is not defined"), w1)
                  else
                    filter_role "assistant" l = Ok [] →
                    answered stringify e sid msg w
                    = (Ok {| statusCode := 200;
                             content := Reply None sid (tokens choice) |}, w1)
              end
          end
  end.
Proof.
  unfold answered, bind, lift.
  destruct (context e) as [c|err]; [|reflexivity].
  destruct (getMessages_prompt sid (systemPrompt stringify c msg) (store w)
              (systemPrompt_truthy c msg)) as (l & Hget & Hl).
  set (w1 := {| rateLimitCache := rateLimitCache w;
                store := match store w !! sid with
                         | Some _ => store w
                         | None => <[sid := l]> (store w)
                         end |}).
  assert (Hsid : store w1 !! sid = Some l).
  { subst w1. cbn [store]. destruct (store w !! sid) as [l0|] eqn:H0.
    - subst l. exact H0.
    - apply lookup_insert_eq. }
  exists w1, l. split; [reflexivity|]. split.
  { intros k Hk. subst w1. cbn [store]. destruct (store w !! sid); [reflexivity|].
    apply lookup_insert_ne. congruence. }
  split; [exact Hsid|]. split.
  { destruct (store w !! sid) as [l0|]; exact Hl. }
  assert (Hon : on_store (InMemoryStore.getMessages sid
                             (Some (systemPrompt stringify c msg))) w
                = (Ok (Some l), w1)).
  { unfold on_store. rewrite Hget. reflexivity. }
  rewrite Hon. cbn [ret].
  destruct (first e) as [f|err]; [|reflexivity].
  destruct (output f) as [|choice rest]; [reflexivity|].
  destruct (is_string "function_call" (choice !! "type")).
  - destruct (function_call_throws e sid choice w1) as (err & Hf & Hc).
    exists err. rewrite Hf. split; [reflexivity|exact Hc].
  - destruct (truthy_str (output_text f)).
    + unfold on_store. rewrite appendMessage_rejects. reflexivity.
    + intros Hrole. unfold ret. cbn beta iota.
      unfold on_store. rewrite (getMessages_known sid None l _ Hsid).
      unfold reply_of, lift. rewrite Hrole. reflexivity.
Qed.

Lemma parsed_invalid (e : env) (sessionId message : option value) (w : world) :
  Gateway.valid (Gateway.validateInput sessionId message) = false →
  ∃ msg, parsed stringify e sessionId message w
         = (Ok {| statusCode := 400; content := ErrorBody msg |}, w)
         ∧ msg ≠ "Invalid JSON in request body".
Proof.
  intros Hv. unfold parsed. rewrite Hv. cbn [negb].
  eexists. split; [reflexivity|].
  revert Hv. rewrite validateInput_spec.
  destruct (Gateway.not_nonempty_string sessionId); [intros _; discriminate|].
  destruct (Gateway.not_nonempty_string message); [intros _; discriminate|].
  destruct (100 <? Gateway.str_length sessionId)%nat; [intros _; discriminate|].
  destruct (4000 <? Gateway.str_length message)%nat; [intros _; discriminate|].
  discriminate.
Qed.

(** A valid request: the rate limiter, the key check, then the
    [catch] block around what follows. *)
Lemma parsed_valid (e : env) (sid msg : string) (w : world) :
  Gateway.valid (Gateway.validateInput (Some (VStr sid)) (Some (VStr msg))) = true →
  parsed stringify e (Some (VStr sid)) (Some (VStr msg)) w
  = if (10 <=? List.length (RateLimit.recent (now e)
                              (RateLimit.recorded sid (rateLimitCache w))))%nat
    then (Ok {| statusCode := 429;
                content := RateLimited
                  "Rate limit exceeded. Please wait before sending another message."
                  60 |},
          {| rateLimitCache := rateLimitCache w; store := store w |})
    else
      let w0 :=
        {| rateLimitCache :=
             <[sid := RateLimit.recent (now e)
                        (RateLimit.recorded sid (rateLimitCache w)) ++ [now e]]>
               (rateLimitCache w);
           store := store w |} in
      if negb (apiKey e) then
        (Ok {| statusCode := 500;
               content := ErrorBody "OpenAI API key not configured" |}, w0)
      else answered stringify e sid msg w0.
Proof.
  intros Hv. unfold parsed. rewrite Hv. cbn [negb].
  unfold bind, on_cache. rewrite isRateLimited_eq.
  destruct (10 <=? _)%nat; [reflexivity|].
  destruct (apiKey e); reflexivity.
Qed.

Lemma handler_malformed (e : env) (ev : Gateway.event) (w : world) :
  Gateway.body ev = Gateway.InvalidJSON ∨ Gateway.body ev = Gateway.JSONNull →
  ∃ err, handler stringify e ev w = (Throw err, w).
Proof.
  intros [Hb|Hb]; unfold handler, handler_try, bind, lift, Gateway.log_session;
    rewrite Hb; eexists; reflexivity.
Qed.

Lemma catch_response_not_a_reply (err : JS.error) :
  (∀ reply sid tok, content (catch_response err) ≠ Reply reply sid tok)
  ∧ content (catch_response err) ≠ ErrorBody "Invalid JSON in request body"
  ∧ statusCode (catch_response err) ≠ 200%Z.
Proof.
  unfold catch_response.
  repeat match goal with |- context [if ?b then _ else _] => destruct b end;
    cbn [content statusCode]; (split; [intros ? ? ?; discriminate|split; discriminate]).
Qed.

(** The outcome of a request on a store in which no history holds a
    message of the assistant. *)
Lemma handler_outcome (e : env) (ev : Gateway.event) (w : world) :
  (∀ sid l, store w !! sid = Some l → filter_role "assistant" l = Ok []) →
  match handler stringify e ev w with
  | (Throw _, w') =>
      w' = w ∧ (Gateway.body ev = Gateway.InvalidJSON ∨ Gateway.body ev = Gateway.JSONNull)
  | (Ok r, w') =>
      (∀ sid l, store w' !! sid = Some l → filter_role "assistant" l = Ok [])
      ∧ (∀ reply sid tok, content r = Reply reply sid tok → reply = None)
      ∧ content r ≠ ErrorBody "Invalid JSON in request body"
      ∧ Gateway.body ev ≠ Gateway.InvalidJSON ∧ Gateway.body ev ≠ Gateway.JSONNull
  end.
Proof.
  intros Hinv.
  assert (Hearly : ∀ (code : Z) (p : payload),
             (∀ reply sid tok, p ≠ Reply reply sid tok) →
             p ≠ ErrorBody "Invalid JSON in request body" →
             Gateway.body ev ≠ Gateway.InvalidJSON →
             Gateway.body ev ≠ Gateway.JSONNull →
             (∀ sid l, store w !! sid = Some l → filter_role "assistant" l = Ok [])
             ∧ (∀ reply sid tok,
                  content {| statusCode := code; content := p |} = Reply reply sid tok →
                  reply = None)
             ∧ content {| statusCode := code; content := p |}
               ≠ ErrorBody "Invalid JSON in request body"
             ∧ Gateway.body ev ≠ Gateway.InvalidJSON
             ∧ Gateway.body ev ≠ Gateway.JSONNull).
  { intros code p Hp Hq H1 H2. split; [exact Hinv|]. split; [|auto].
    intros reply sid tok Hc. cbn in Hc. destruct (Hp _ _ _ Hc). }
  assert (Hparsed : ∀ sessionId message,
             Gateway.body ev ≠ Gateway.InvalidJSON →
             Gateway.body ev ≠ Gateway.JSONNull →
             match
               match parsed stringify e sessionId message w with
               | (Ok r, w') => (Ok r, w')
               | (Throw err, w') => (Ok (catch_response err), w')
               end
             with
             | (Throw _, w') => False
             | (Ok r, w') =>
                 (∀ sid l, store w' !! sid = Some l → filter_role "assistant" l = Ok [])
                 ∧ (∀ reply sid tok, content r = Reply reply sid tok → reply = None)
                 ∧ content r ≠ ErrorBody "Invalid JSON in request body"
                 ∧ Gateway.body ev ≠ Gateway.InvalidJSON
                 ∧ Gateway.body ev ≠ Gateway.JSONNull
             end).
  { intros sessionId message H1 H2.
    destruct (Gateway.valid (Gateway.validateInput sessionId message)) eqn:Hv.
    - pose proof Hv as Hv'.
      apply validateInput_valid in Hv' as (sid & msg & -> & -> & _).
      rewrite (parsed_valid e sid msg w Hv).
      destruct (10 <=? _)%nat.
      { split; [exact Hinv|]. split; [intros ? ? ? Hc; discriminate Hc|].
        split; [discriminate|auto]. }
      cbv zeta.
      destruct (apiKey e); cbn [negb].
      2:{ split; [exact Hinv|]. split; [intros ? ? ? Hc; discriminate Hc|].
          split; [discriminate|auto]. }
      set (w0 := {| rateLimitCache := _; store := store w |}).
      pose proof (answered_cases e sid msg w0) as Hcases.
      destruct (context e) as [c|err].
      2:{ rewrite Hcases. destruct (catch_response_not_a_reply err) as (Ha & Hb & _).
          split; [exact Hinv|]. split; [intros ? ? ? Hc; destruct (Ha _ _ _ Hc)|].
          split; [exact Hb|auto]. }
      destruct Hcases as (w1 & l & _ & Hothers & Hl & Hdef & Hans).
      assert (Hrole : filter_role "assistant" l = Ok []).
      { subst l. subst w0. cbn [store]. destruct (store w !! sid) as [l0|] eqn:H0.
        - exact (Hinv sid l0 H0).
        - apply system_message_role. }
      assert (Hinv1 : ∀ k l1, store w1 !! k = Some l1 →
                              filter_role "assistant" l1 = Ok []).
      { intros k l1 Hk. destruct (decide (k = sid)) as [->|Hne].
        - rewrite Hl in Hk. injection Hk as <-. exact Hrole.
        - rewrite (Hothers k Hne) in Hk. exact (Hinv k l1 Hk). }
      assert (Hthrown : ∀ err,
                 answered stringify e sid msg w0 = (Throw err, w1) →
                 match
                   match answered stringify e sid msg w0 with
                   | (Ok r, w') => (Ok r, w')
                   | (Throw err, w') => (Ok (catch_response err), w')
                   end
                 with
                 | (Throw _, w') => False
                 | (Ok r, w') =>
                     (∀ sid l, store w' !! sid = Some l →
                               filter_role "assistant" l = Ok [])
                     ∧ (∀ reply sid tok, content r = Reply reply sid tok → reply = None)
                     ∧ content r ≠ ErrorBody "Invalid JSON in request body"
                     ∧ Gateway.body ev ≠ Gateway.InvalidJSON
                     ∧ Gateway.body ev ≠ Gateway.JSONNull
                 end).
      { intros err ->. destruct (catch_response_not_a_reply err) as (Ha & Hb & _).
        split; [exact Hinv1|]. split; [intros ? ? ? Hc; destruct (Ha _ _ _ Hc)|].
        split; [exact Hb|auto]. }
      destruct (first e) as [f|err]; [|exact (Hthrown _ Hans)].
      destruct (output f) as [|choice rest]; [exact (Hthrown _ Hans)|].
      destruct (is_string "function_call" (choice !! "type")).
      { destruct Hans as (err & Hans & _). exact (Hthrown _ Hans). }
      destruct (truthy_str (output_text f)); [exact (Hthrown _ Hans)|].
      rewrite (Hans Hrole). split; [exact Hinv1|].
      split; [intros ? ? ? Hc; cbn in Hc; congruence|]. split; [discriminate|auto].
    - destruct (parsed_invalid e sessionId message w Hv) as (m & -> & Hm).
      split; [exact Hinv|]. split; [intros ? ? ? Hc; discriminate Hc|].
      split; [cbn; congruence|auto]. }
  unfold handler, handler_try, bind, lift.
  destruct (Gateway.body ev) eqn:Hbody; unfold Gateway.log_session; rewrite Hbody.
  2,3: split; auto.
  - destruct (String.eqb (Gateway.httpMethod ev) "OPTIONS").
    { cbn [ret]. apply Hearly; (discriminate || (intros ? ? ?; discriminate)). }
    destruct (String.eqb (Gateway.httpMethod ev) "POST"); cbn [negb].
    2:{ cbn [ret]. apply Hearly; (discriminate || (intros ? ? ?; discriminate)). }
    specialize (Hparsed None None).
    destruct (parsed stringify e None None w) as [[r|err] w'];
      (apply Hparsed; discriminate).
  - destruct (String.eqb (Gateway.httpMethod ev) "OPTIONS").
    { cbn [ret]. apply Hearly; (discriminate || (intros ? ? ?; discriminate)). }
    destruct (String.eqb (Gateway.httpMethod ev) "POST"); cbn [negb].
    2:{ cbn [ret]. apply Hearly; (discriminate || (intros ? ? ?; discriminate)). }
    specialize (Hparsed sessionId message).
    destruct (parsed stringify e sessionId message w) as [[r|err] w'];
      (apply Hparsed; discriminate).
Qed.

Lemma answered_returns_a_reply (e : env) (sid msg : string) (w w' : world) (r : response) :
  answered stringify e sid msg w = (Ok r, w') →
  ∃ reply tok, content r = Reply reply sid tok.
Proof.
  unfold answered, bind, lift.
  destruct (context e) as [c|err]; [|discriminate].
  destruct (on_store _ w) as [[[l|]|err] w1]; cbn [ret throw]; try discriminate.
  destruct (first e) as [f|err]; [|discriminate].
  destruct (output f) as [|choice rest]; [discriminate|].
  destruct (is_string "function_call" (choice !! "type")).
  { destruct (function_call_throws e sid choice w1) as (err & -> & _). discriminate. }
  destruct (truthy_str (output_text f)).
  { unfold on_store at 1. rewrite appendMessage_rejects. discriminate. }
  cbn [ret].
  destruct (on_store _ w1) as [[h|err] w3]; [|discriminate].
  destruct (reply_of h) as [reply|err]; [|discriminate].
  intros H. injection H as <- _. eexists _, _. reflexivity.
Qed.

(** X22: a body that is not JSON, or is the JSON [null], is never
    answered.  The handler that offers [book_appointment] and the
    guarded handler both reject, for every HTTP method, and change
    nothing; they answer for every other body.  The 400 response
    "Invalid JSON in request body" of the inner [try] is never
    returned. *)
Theorem malformed_body_is_never_answered
    (e : env) (ge : Gateway.env) (ev : Gateway.event) (w : world)
    (cache : gmap string (list Z)) :
  match handler stringify e ev w with
  | (Throw _, w') =>
      w' = w ∧ (Gateway.body ev = Gateway.InvalidJSON ∨ Gateway.body ev = Gateway.JSONNull)
  | (Ok r, _) =>
      Gateway.body ev ≠ Gateway.InvalidJSON ∧ Gateway.body ev ≠ Gateway.JSONNull
      ∧ content r ≠ ErrorBody "Invalid JSON in request body"
  end
  ∧ match Gateway.handler ge ev cache with
    | (Throw _, cache') =>
        cache' = cache
        ∧ (Gateway.body ev = Gateway.InvalidJSON ∨ Gateway.body ev = Gateway.JSONNull)
    | (Ok _, _) =>
        Gateway.body ev ≠ Gateway.InvalidJSON ∧ Gateway.body ev ≠ Gateway.JSONNull
    end.
Proof.
  split.
  - assert (Hparsed : ∀ sessionId message r w',
               parsed stringify e sessionId message w = (Ok r, w') →
               content r ≠ ErrorBody "Invalid JSON in request body").
    { intros sessionId message r w' Hp.
      destruct (Gateway.valid (Gateway.validateInput sessionId message)) eqn:Hv.
      - pose proof Hv as Hv'.
        apply validateInput_valid in Hv' as (sid & msg & -> & -> & _).
        rewrite (parsed_valid e sid msg w Hv) in Hp.
        destruct (10 <=? _)%nat; [injection Hp as <- _; discriminate|].
        cbv zeta in Hp. destruct (apiKey e); cbn [negb] in Hp.
        + apply answered_returns_a_reply in Hp as (reply & tok & ->). discriminate.
        + injection Hp as <- _. discriminate.
      - destruct (parsed_invalid e sessionId message w Hv) as (m & Hm & Hne).
        rewrite Hm in Hp. injection Hp as <- _. cbn. congruence. }
    unfold handler, handler_try, bind, lift.
    destruct (Gateway.body ev) eqn:Hbody; unfold Gateway.log_session; rewrite Hbody.
    2,3: split; auto.
    + destruct (String.eqb (Gateway.httpMethod ev) "OPTIONS");
        [cbn; repeat split; discriminate|].
      destruct (String.eqb (Gateway.httpMethod ev) "POST"); cbn [negb];
        [|cbn; repeat split; discriminate].
      destruct (parsed stringify e None None w) as [[r|err] w'] eqn:Hp.
      * repeat split; try discriminate; try exact (Hparsed _ _ _ _ Hp).
      * repeat split; try discriminate;
          try (destruct (catch_response_not_a_reply err) as (_ & Hb & _); exact Hb).
    + destruct (String.eqb (Gateway.httpMethod ev) "OPTIONS");
        [cbn; repeat split; discriminate|].
      destruct (String.eqb (Gateway.httpMethod ev) "POST"); cbn [negb];
        [|cbn; repeat split; discriminate].
      destruct (parsed stringify e sessionId message w) as [[r|err] w'] eqn:Hp.
      * repeat split; try discriminate; try exact (Hparsed _ _ _ _ Hp).
      * repeat split; try discriminate;
          try (destruct (catch_response_not_a_reply err) as (_ & Hb & _); exact Hb).
  - unfold Gateway.handler, Gateway.handler_try, bind, lift.
    destruct (Gateway.body ev) eqn:Hbody; unfold Gateway.log_session; rewrite Hbody.
    2,3: split; auto.
    + match goal with |- match (match ?x with _ => _ end) with _ => _ end =>
        destruct x as [[r|err] c'] end; split; discriminate.
    + match goal with |- match (match ?x with _ => _ end) with _ => _ end =>
        destruct x as [[r|err] c'] end; split; discriminate.
Qed.

(** X23: the handler that offers [book_appointment] never returns a
    reply of the model.  On a store in which no history holds a message
    of the assistant, a response that has a [reply] field has it
    undefined, and the store still holds no message of the assistant
    afterwards. *)
Theorem function_calling_never_replies
    (e : env) (ev : Gateway.event) (w w' : world) (r : response) :
  (∀ sid l, store w !! sid = Some l → filter_role "assistant" l = Ok []) →
  handler stringify e ev w = (Ok r, w') →
  (∀ reply sid tok, content r = Reply reply sid tok → reply = None)
  ∧ (∀ sid l, store w' !! sid = Some l → filter_role "assistant" l = Ok []).
Proof.
  intros Hinv Hh. pose proof (handler_outcome e ev w Hinv) as Hout.
  rewrite Hh in Hout. destruct Hout as (Hinv' & Hreply & _). split; assumption.
Qed.

(** X24: in the handler that offers [book_appointment], a valid request
    that passes the rate limiter and the key check, and to which the
    model answers with a function call (whose arguments parse) or with
    text, is answered 500 "Internal server error".  The history of the
    key is then the one it had, or only the system prompt if it had
    none; the other histories are not touched. *)
Theorem model_answer_ends_in_500
    (e : env) (sid msg c : string) (w : world) (f : completion)
    (choice : item) (rest : list item) :
  Gateway.valid (Gateway.validateInput (Some (VStr sid)) (Some (VStr msg))) = true →
  (List.length (RateLimit.recent (now e) (RateLimit.recorded sid (rateLimitCache w)))
   < 10)%nat →
  apiKey e = true → context e = Ok c → first e = Ok f →
  output f = choice :: rest → arguments e = Ok tt →
  is_string "function_call" (choice !! "type") = true
  ∨ truthy_str (output_text f) = true →
  ∃ w',
    handler stringify e
      {| Gateway.httpMethod := "POST";
         Gateway.body := Gateway.Fields (Some (VStr sid)) (Some (VStr msg)) |} w
    = (Ok {| statusCode := 500; content := ErrorBody "Internal server error" |}, w')
    ∧ store w' !! sid
      = Some (default [VObj [("role", VStr "system");
                             ("content", VStr (systemPrompt stringify c msg))]]
                (store w !! sid))
    ∧ ∀ k, k ≠ sid → store w' !! k = store w !! k.
Proof.
  intros Hv Hlt Hkey Hctx Hfirst Hout Hargs Hanswer.
  unfold handler, handler_try, bind, lift. cbn [Gateway.log_session Gateway.body
    Gateway.httpMethod String.eqb Ascii.eqb Bool.eqb negb].
  rewrite (parsed_valid e sid msg w Hv).
  destruct (Nat.leb_spec 10 (List.length (RateLimit.recent (now e)
              (RateLimit.recorded sid (rateLimitCache w))))) as [Hge|_]; [lia|].
  cbv zeta. rewrite Hkey. cbn [negb].
  set (w0 := {| rateLimitCache := _; store := store w |}).
  pose proof (answered_cases e sid msg w0) as Hcases.
  rewrite Hctx, Hfirst, Hout in Hcases.
  destruct Hcases as (w1 & l & _ & Hothers & Hl & Hdef & Hans).
  assert (Hthrown : ∃ err,
             answered stringify e sid msg w0 = (Throw err, w1)
             ∧ catch_response err
               = {| statusCode := 500; content := ErrorBody "Internal server error" |}).
  { destruct (is_string "function_call" (choice !! "type")).
    - destruct Hans as (err & Hans & Hc). exists err. split; [exact Hans|exact (Hc Hargs)].
    - destruct Hanswer as [Hfc|Htext]; [discriminate|]. rewrite Htext in Hans.
      eexists. split; [exact Hans|reflexivity]. }
  destruct Hthrown as (err & -> & ->).
  exists w1. split; [reflexivity|]. split.
  - rewrite Hl, Hdef. reflexivity.
  - exact Hothers.
Qed.


End FunctionCallingHandler.

Section FunctionCallingExamples.
Import FunctionCalling.

Lemma function_calling_never_replies_witness :
  (∀ reply sid tok,
     content {| statusCode := 200; content := Reply None "abc" None |}
     = Reply reply sid tok → reply = None)
  ∧ (∀ sid l,
       store (snd (handler fc_stringify (fc_env fc_silent)
                     (post (Some (VStr "abc")) (Some (VStr "Hello"))) fc_world))
         !! sid = Some l →
       filter_role "assistant" l = Ok []).
Proof.
  apply (function_calling_never_replies fc_stringify (fc_env fc_silent)
           (post (Some (VStr "abc")) (Some (VStr "Hello"))) fc_world).
  - intros sid l H. unfold fc_world in H. cbn [store] in H.
    rewrite lookup_empty in H. discriminate.
  - vm_compute. reflexivity.
Defined.

Lemma model_answer_ends_in_500_witness :
  ∃ w',
    handler fc_stringify (fc_env fc_text)
      {| Gateway.httpMethod := "POST";
         Gateway.body := Gateway.Fields (Some (VStr "abc")) (Some (VStr "Hello")) |}
      fc_world
    = (Ok {| statusCode := 500; content := ErrorBody "Internal server error" |}, w')
    ∧ store w' !! "abc"
      = Some (default [VObj [("role", VStr "system");
                             ("content", VStr (systemPrompt fc_stringify "" "Hello"))]]
                (store fc_world !! "abc"))
    ∧ ∀ k, k ≠ "abc" → store w' !! k = store fc_world !! k.
Proof.
  apply (model_answer_ends_in_500 fc_stringify (fc_env fc_text) "abc" "Hello" ""
           fc_world fc_text {[ "type" := VStr "message" ]} []).
  - reflexivity.
  - vm_compute. lia.
  - reflexivity.
  - reflexivity.
  - reflexivity.
  - reflexivity.
  - reflexivity.
  - right. reflexivity.
Defined.

End FunctionCallingExamples.
